(** * Wee-Web-Scraper: a shallow embedding of [Wee-Web-Scraper.py]

    The script fetches one page, stores it in a time-stamped directory,
    downloads the assets the page refers to under a wall-clock limit and
    rewrites the references of the page to local paths.

    Python strings are modelled by [string] (a sequence of characters),
    byte buffers by [list Byte.byte], the file tree by a finite map from paths
    to contents, and the effects of the script (files, directories, the
    lines printed, the HTTP requests issued, the readings of the clock, the
    calls of the file system) by an explicit world threaded through a
    state-and-exception monad. What the script does not control (the
    replies of the network, the clock, the consent of the file system,
    the library functions it calls, some of which raise) is a parameter
    of every definition. *)

From Stdlib Require Import ZArith QArith Qround Ascii String List Lia.
From stdpp Require Import base option list strings gmap pretty.

Import ListNotations.

(** ** Characters and strings, as the Python built-ins used by the script *)

Module Str.

(** [c in s] for a one-character string [c]. *)
Fixpoint contains (c : ascii) (s : string) : bool :=
  match s with
  | EmptyString => false
  | String d s' => if Ascii.eqb c d then true else contains c s'
  end.

(** [s.split(c, 1)[0]]: the part of [s] before the first [c], all of
    [s] when [c] does not occur. *)
Fixpoint before (c : ascii) (s : string) : string :=
  match s with
  | EmptyString => EmptyString
  | String d s' => if Ascii.eqb d c then EmptyString else String d (before c s')
  end.

(** [''.join(f(char) for char in s)] for a character-valued [f]. *)
Fixpoint map (f : ascii -> ascii) (s : string) : string :=
  match s with
  | EmptyString => EmptyString
  | String d s' => String (f d) (map f s')
  end.

(** [s.startswith(p)] *)
Definition startswith (p s : string) : bool := String.prefix p s.

(** [s.endswith(c)] for a one-character string [c]. *)
Fixpoint endswith (c : ascii) (s : string) : bool :=
  match s with
  | EmptyString => false
  | String d EmptyString => Ascii.eqb d c
  | String _ s' => endswith c s'
  end.

(** [s[:n]] *)
Definition take (n : nat) (s : string) : string := String.substring 0 n s.

(** Every character of [s] satisfies [P]. *)
Fixpoint all (P : ascii -> bool) (s : string) : bool :=
  match s with
  | EmptyString => true
  | String d s' => P d && all P s'
  end.

(** [str.isspace] on one character (the white space of the first 256
    code points). *)
Definition isspace (c : ascii) : bool :=
  let n := nat_of_ascii c in
  (((9 <=? n) && (n <=? 13)) || ((28 <=? n) && (n <=? 32))
   || (n =? 133) || (n =? 160))%nat.

(** [s.lstrip()] *)
Fixpoint lstrip (s : string) : string :=
  match s with
  | EmptyString => EmptyString
  | String d s' => if isspace d then lstrip s' else s
  end.

(** [s.rstrip()] *)
Fixpoint rstrip (s : string) : string :=
  match s with
  | EmptyString => EmptyString
  | String d s' =>
      match rstrip s' with
      | EmptyString => if isspace d then EmptyString else String d EmptyString
      | r => String d r
      end
  end.

(** [s.strip()] *)
Definition strip (s : string) : string := rstrip (lstrip s).

(** [s.rstrip(c)] for a one-character string [c]. *)
Fixpoint rstrip_char (c : ascii) (s : string) : string :=
  match s with
  | EmptyString => EmptyString
  | String d s' =>
      match rstrip_char c s' with
      | EmptyString => if Ascii.eqb d c then EmptyString else String d EmptyString
      | r => String d r
      end
  end.

(** [(s[:i], s[i:])] for [i = s.rfind(c) + 1] when [c] occurs in [s]:
    [s] cut after its last [c]. *)
Fixpoint rsplit (c : ascii) (s : string) : option (string * string) :=
  match s with
  | EmptyString => None
  | String d s' =>
      match rsplit c s' with
      | Some (h, t) => Some (String d h, t)
      | None => if Ascii.eqb d c then Some (String d EmptyString, s') else None
      end
  end.

(** [re.findall(r"\S+", s)]: the maximal runs of characters that are
    not white space. [run] is the run being read, reversed. *)
Fixpoint tokens_from (run : list ascii) (s : string) : list string :=
  let flush := match run with
               | [] => []
               | _ => [string_of_list_ascii (rev run)]
               end in
  match s with
  | EmptyString => flush
  | String d s' =>
      if isspace d then flush ++ tokens_from [] s'
      else tokens_from (d :: run) s'
  end.

Definition tokens (s : string) : list string := tokens_from [] s.

End Str.

(** ** [string.ascii_letters], [string.digits] *)

Definition ascii_letters : string :=
  "abcdefghijklmnopqrstuvwxyzABCDEFGHIJKLMNOPQRSTUVWXYZ".
Definition digits : string := "0123456789".

(** ** [sanitize_filename] *)

(** The character test of the generator expression:
    [char in string.ascii_letters + string.digits + "._-"]. *)
Definition filename_char (char : ascii) : bool :=
  Str.contains char (ascii_letters +:+ digits +:+ "._-").

Definition sanitize_filename (filename : string) : string :=
  let filename := Str.before "?" filename in
  let filename := Str.before "#" filename in
  Str.map (fun char => if filename_char char then char else "_"%char) filename.

(** *** The sanitizer as the specification words it *)

(** The set {A-Z, a-z, 0-9, '.', '_', '-'}, by character codes. *)
Definition allowed (c : ascii) : bool :=
  let n := nat_of_ascii c in
  (((65 <=? n) && (n <=? 90)) || ((97 <=? n) && (n <=? 122))
   || ((48 <=? n) && (n <=? 57))
   || (n =? 46) || (n =? 95) || (n =? 45))%nat.

(** Everything from the first '?' or '#' onward removed. *)
Fixpoint strip_query_fragment (s : string) : string :=
  match s with
  | EmptyString => EmptyString
  | String d s' =>
      if Ascii.eqb d "?" || Ascii.eqb d "#" then EmptyString
      else String d (strip_query_fragment s')
  end.

(** Every character outside the set replaced by '_'. *)
Definition replace_disallowed (s : string) : string :=
  Str.map (fun c => if allowed c then c else "_"%char) s.

Definition sanitize_spec (s : string) : string :=
  replace_disallowed (strip_query_fragment s).

(** ** [os.path] (POSIX) *)

Module Path.

(** [os.path.join(a, b)] *)
Definition join (a b : string) : string :=
  if Str.startswith "/" b then b
  else if (String.eqb a EmptyString || Str.endswith "/" a)%bool then a +:+ b
  else a +:+ "/" +:+ b.

(** [os.path.basename(p)]: [p[p.rfind('/') + 1:]] *)
Definition basename (p : string) : string :=
  match Str.rsplit "/" p with
  | Some (_, tail) => tail
  | None => p
  end.

(** [os.path.dirname(p)]: the head [p[:p.rfind('/') + 1]], without its
    trailing slashes unless it consists of slashes only. *)
Definition dirname (p : string) : string :=
  match Str.rsplit "/" p with
  | Some (head, _) =>
      if Str.all (fun c => Ascii.eqb c "/") head then head
      else Str.rstrip_char "/" head
  | None => EmptyString
  end.

(** The path [p] and the directories above it, outermost first: what
    [os.makedirs(p, exist_ok=True)] makes sure exist. [seen] is the part
    of the path already read. *)
Fixpoint chain_from (seen : string) (p : string) : list string :=
  match p with
  | EmptyString => [seen]
  | String d p' =>
      (if Ascii.eqb d "/" then [seen] else [])
        ++ chain_from (seen +:+ String d EmptyString) p'
  end.

Definition chain (p : string) : list string :=
  List.filter (fun d => negb (String.eqb d EmptyString)) (chain_from EmptyString p).

End Path.

(** ** The parsed page: the element tree of [BeautifulSoup] *)

(** The attributes of a tag: a Python [dict] from names to values, in
    insertion order. *)
Definition attributes := list (string * string).

Fixpoint dict_get (attrs : attributes) (key : string) : option string :=
  match attrs with
  | [] => None
  | (k, v) :: rest => if String.eqb k key then Some v else dict_get rest key
  end.

(** [attrs[key] = value]: an existing key keeps its place. *)
Fixpoint dict_set (attrs : attributes) (key value : string) : attributes :=
  match attrs with
  | [] => [(key, value)]
  | (k, v) :: rest =>
      if String.eqb k key then (k, value) :: rest
      else (k, v) :: dict_set rest key value
  end.

Unset Elimination Schemes.
Inductive node : Type :=
| Tag (name : string) (attrs : attributes) (contents : list node)
| NavigableString (text : string).
Set Elimination Schemes.

(** Induction on a tree, with the property known of all the children. *)
Section NodeInduction.

Variable P : node -> Prop.
Hypothesis tag_case :
  forall name attrs contents, Forall P contents -> P (Tag name attrs contents).
Hypothesis string_case : forall text, P (NavigableString text).

Fixpoint node_ind (n : node) : P n :=
  match n with
  | Tag name attrs contents =>
      tag_case name attrs contents
        ((fix all (l : list node) : Forall P l :=
            match l with
            | [] => List.Forall_nil P
            | c :: l' => List.Forall_cons P c l' (node_ind c) (all l')
            end) contents)
  | NavigableString text => string_case text
  end.

End NodeInduction.

(** A [BeautifulSoup] object: the top-level nodes of the document. *)
Definition soup := list node.

(** The name and the attributes of an element. *)
Definition element_name (element : node) : string :=
  match element with
  | Tag name _ _ => name
  | NavigableString _ => EmptyString
  end.

Definition element_attrs (element : node) : attributes :=
  match element with
  | Tag _ attrs _ => attrs
  | NavigableString _ => []
  end.

(** What the loops of the script see of an element: its name and its
    attributes. *)
Definition shallow (element : node) : string * attributes :=
  (element_name element, element_attrs element).

(** [element.has_attr(key)] and [element[key]] together: the value when
    the attribute is there. *)
Definition element_get (element : node) (key : string) : option string :=
  match element with
  | Tag _ attrs _ => dict_get attrs key
  | NavigableString _ => None
  end.

(** The elements of a subtree that satisfy [wanted], in document order. *)
Fixpoint find_all_node (wanted : string -> attributes -> bool) (n : node) : list node :=
  match n with
  | Tag name attrs contents =>
      (if wanted name attrs then [n] else [])
        ++ flat_map (find_all_node wanted) contents
  | NavigableString _ => []
  end.

Definition find_all_where (wanted : string -> attributes -> bool) (s : soup) : list node :=
  flat_map (find_all_node wanted) s.

(** [soup.find_all(tag)] *)
Definition named (tag : string) : string -> attributes -> bool :=
  fun name _ => String.eqb name tag.

Definition find_all (tag : string) (s : soup) : list node :=
  find_all_where (named tag) s.

(** [soup.find_all(tag, rel=value)]: [rel] is a multi-valued attribute, a
    tag matches when one of its white-space separated values is [value]. *)
Definition named_rel (tag value : string) : string -> attributes -> bool :=
  fun name attrs =>
    (String.eqb name tag
     && match dict_get attrs "rel" with
        | Some v => existsb (String.eqb value) (Str.tokens v)
        | None => false
        end)%bool.

(** [tag.string]: the only child when it is a string, the [string] of the
    only child when it is a tag. *)
Fixpoint node_string (n : node) : option string :=
  match n with
  | NavigableString text => Some text
  | Tag _ _ [child] => node_string child
  | Tag _ _ _ => None
  end.

(** [soup.title]: the first [title] element of the document. *)
Definition soup_title (s : soup) : option node := head (find_all "title" s).

(** The loop [for el in soup.find_all(...): if el.has_attr(key):
    el[key] = f(el[key])], which assigns in place: every matching element
    of the tree that has the attribute gets the new value. [assign] is
    the body of the loop on the attributes of one tag. *)
Definition assign (wanted : string -> attributes -> bool) (key : string)
    (f : string -> string) (name : string) (attrs : attributes) : attributes :=
  if wanted name attrs then
    match dict_get attrs key with
    | Some v => dict_set attrs key (f v)
    | None => attrs
    end
  else attrs.

(** The body of an assignment loop on the name and attributes of an
    element the loop visits. *)
Definition reassign (key : string) (f : string -> string)
    (element : string * attributes) : string * attributes :=
  (fst element,
   match dict_get (snd element) key with
   | Some v => dict_set (snd element) key (f v)
   | None => snd element
   end).

Fixpoint assign_node (wanted : string -> attributes -> bool) (key : string)
    (f : string -> string) (n : node) : node :=
  match n with
  | Tag name attrs contents =>
      Tag name (assign wanted key f name attrs)
        (List.map (assign_node wanted key f) contents)
  | NavigableString _ => n
  end.

Definition assign_all (wanted : string -> attributes -> bool) (key : string)
    (f : string -> string) (s : soup) : soup :=
  List.map (assign_node wanted key f) s.

(** ** The world the script acts on *)

Record world : Type := World {
  files : gmap string (list Byte.byte);   (** regular files, by path *)
  dirs : gset string;                (** directories that exist *)
  stdout : list string;              (** lines printed, oldest first *)
  requests : list string;            (** URLs of the GETs issued, oldest first *)
  clock_reads : nat;                 (** readings of the system clock made so far *)
  fs_calls : nat;                    (** calls of [os.makedirs] and [open] made so far *)
}.

Definition empty_world : world := World ∅ ∅ [] [] 0 0.

(** What the script cannot decide: the replies of the network, the clock
    and the file system's consent. *)
Inductive reply : Type :=
| Response (status_code : Z) (reason : string) (content : list Byte.byte)
| RequestException (e : string).

(** How [with open(path, mode) as file: file.write(data)] fails, with
    the text of the exception. Either [open] raises and the file is left
    as it was; or [open] has created the file, or emptied the one that was
    there, and [write] or the closing of the file raises when the first
    [kept] bytes of the data are in the file. *)
Inductive write_failure : Type :=
| OpenFailed (e : string)
| WriteFailed (e : string) (kept : nat).

Record environment : Type := Environment {
  (** the outcome of the [n]-th [requests.get] of the run, by URL *)
  network : nat -> string -> reply;
  (** the [n]-th reading of the system clock, by [time.time()] or by
      [datetime.now()], in seconds *)
  clock : nat -> Q;
  (** [strftime("%Y%m%d_%H%M%S")] of a reading of the clock, in local
      time *)
  strftime : Q -> string;
  (** the text of the [OSError] that [mkdir] raises for a directory
      that is missing, when asked during the [n]-th call of the file
      system; [None] when the directory is made *)
  mkdir_error : nat -> string -> option string;
  (** how writing the file at a path fails when this is the [n]-th call
      of the file system; [None] when the file is written *)
  io_error : nat -> string -> option write_failure;
}.

(** The library functions the script calls and does not define. *)
Record ParseResult : Type := { scheme : string; netloc : string }.

Record library : Type := Library {
  (** [urllib.parse.urlparse]; [None] when it raises [ValueError], as
      it does for a network location with a '[' or a ']' that has no
      partner, or with a bracketed host that is no IP address *)
  urlparse : string -> option ParseResult;
  (** [urllib.parse.urljoin]. The script calls it on a base made of the
      scheme and the network location of a URL that [urlparse] has
      parsed, and on a reference that starts with "..", in which
      [urlparse] finds no network location: it returns. *)
  urljoin : string -> string -> string;
  (** [BeautifulSoup(content, "html.parser")] *)
  BeautifulSoup : list Byte.byte -> soup;
  (** [soup.prettify(formatter="html5")], UTF-8 encoded *)
  prettify : soup -> list Byte.byte;
  abspath : string -> string;
}.

(** ** Computations: state and exceptions *)

(** The exceptions that leave a function of the script: of an attribute
    looked up on [None]; of [open] or [write] for a path; of
    [os.makedirs] for a path; the [ValueError] of [urlparse] for a URL.
    ([IOError] is Python's [OSError]; the two constructors tell the
    call that raised.) *)
Inductive exn : Type :=
| AttributeError
| IOError (path : string)
| OSError (path : string)
| URLValueError (url : string).

Inductive outcome (A : Type) : Type :=
| Ret (a : A)
| Raise (e : exn).
Arguments Ret {A} a.
Arguments Raise {A} e.

Definition M (A : Type) : Type := world -> outcome A * world.

Definition ret {A} (a : A) : M A := fun w => (Ret a, w).

Definition raise {A} (e : exn) : M A := fun w => (Raise e, w).

Definition bind {A B} (c : M A) (k : A -> M B) : M B :=
  fun w =>
    match c w with
    | (Ret a, w') => k a w'
    | (Raise e, w') => (Raise e, w')
    end.

(** The result of a library call that returns, or its exception. *)
Definition or_raise {A} (e : exn) (result : option A) : M A :=
  match result with
  | Some a => ret a
  | None => raise e
  end.

Declare Scope py_scope.
Delimit Scope py_scope with py.
Bind Scope py_scope with M.
Notation "x <- c ;; k" := (bind c (fun x => k))
  (at level 100, c at next level, right associativity) : py_scope.
Notation "c ;; k" := (bind c (fun _ => k))
  (at level 100, right associativity) : py_scope.

(** How a loop body ends: it goes on to the next item, or it executes the
    [return] of the enclosing function. *)
Inductive flow : Type := Next | Returned.

(** *** Primitive effects *)

Definition print (line : string) : M unit :=
  fun w => (Ret tt, World (files w) (dirs w) (stdout w ++ [line]) (requests w)
                      (clock_reads w) (fs_calls w)).

(** The world after a call of the file system that changes nothing. *)
Definition fs_call (w : world) : world :=
  World (files w) (dirs w) (stdout w) (requests w) (clock_reads w) (S (fs_calls w)).

(** The world after a file has been opened for writing and holds
    [data]. *)
Definition write_file (path : string) (data : list Byte.byte) (w : world) : world :=
  World (<[path := data]> (files w)) (dirs w) (stdout w) (requests w) (clock_reads w)
    (S (fs_calls w)).

(** [mkdir] along the directories of a path, outermost first, the way
    [os.makedirs(path, exist_ok=True)] goes: a directory that exists is
    passed over, a missing one is made unless the file system refuses,
    and then no further one is made. The result tells whether every
    directory of the chain exists in the end, and which directories
    do. *)
Fixpoint mkdir_chain (refused : string -> bool) (chain : list string)
    (existing : gset string) : bool * gset string :=
  match chain with
  | [] => (true, existing)
  | d :: rest =>
      if bool_decide (d ∈ existing) then mkdir_chain refused rest existing
      else if refused d then (false, existing)
      else mkdir_chain refused rest (existing ∪ {[d]})
  end.

Section Script.

Variable lib : library.
Variable env : environment.

Local Open Scope py_scope.

(** [time.time()] *)
Definition time_time : M Q :=
  fun w => (Ret (clock env (clock_reads w)),
            World (files w) (dirs w) (stdout w) (requests w) (S (clock_reads w))
              (fs_calls w)).

(** [datetime.now().strftime("%Y%m%d_%H%M%S")]: one more reading of the
    clock. *)
Definition datetime_now_strftime : M string :=
  now <- time_time ;;
  ret (strftime env now).

(** Whether [mkdir] fails for a missing directory during the [n]-th call
    of the file system: a regular file has the name, or the file system
    refuses. *)
Definition mkdir_refused (tree : gmap string (list Byte.byte)) (n : nat) (d : string) : bool :=
  match tree !! d, mkdir_error env n d with
  | None, None => false
  | _, _ => true
  end.

(** [os.makedirs(path, exist_ok=True)]. The empty path raises
    ([FileNotFoundError]); a directory that exists is no error. The
    directories made before a failure stay. *)
Definition makedirs (path : string) : M unit :=
  fun w =>
    let '(made, existing) :=
      if String.eqb path EmptyString then (false, dirs w)
      else mkdir_chain (mkdir_refused (files w) (fs_calls w)) (Path.chain path) (dirs w) in
    let w' := World (files w) existing (stdout w) (requests w) (clock_reads w)
                (S (fs_calls w)) in
    if made then (Ret tt, w') else (Raise (OSError path), w').

(** [with open(path, mode) as file: file.write(data)]: the file is
    written, or the text of the [IOError] is returned; what is in the
    file then depends on whether [open] or [write] raised. *)
Definition open_write (path : string) (data : list Byte.byte) : M (option string) :=
  fun w => match io_error env (fs_calls w) path with
           | None => (Ret None, write_file path data w)
           | Some (OpenFailed e) => (Ret (Some e), fs_call w)
           | Some (WriteFailed e kept) => (Ret (Some e), write_file path (firstn kept data) w)
           end.

(** [response.raise_for_status()]: the text of the [HTTPError] raised
    for the status codes 400 to 599, if any. *)
Definition raise_for_status (url : string) (status_code : Z) (reason : string) : option string :=
  if ((400 <=? status_code) && (status_code <? 500))%Z then
    Some (pretty status_code +:+ " Client Error: " +:+ reason +:+ " for url: " +:+ url)
  else if ((500 <=? status_code) && (status_code <? 600))%Z then
    Some (pretty status_code +:+ " Server Error: " +:+ reason +:+ " for url: " +:+ url)
  else None.

(** The [try] block of both fetches:
    [response = requests.get(url, timeout=4); response.raise_for_status()],
    with the [RequestException] caught: the content, or the text of the
    exception. *)
Definition requests_get (url : string) : M (list Byte.byte + string) :=
  fun w =>
    let w' := World (files w) (dirs w) (stdout w) (requests w ++ [url]) (clock_reads w)
                (fs_calls w) in
    match network env (length (requests w)) url with
    | Response status_code reason content =>
        match raise_for_status url status_code reason with
        | Some e => (Ret (inr e), w')
        | None => (Ret (inl content), w')
        end
    | RequestException e => (Ret (inr e), w')
    end.

(** *** The functions of the script *)

Definition create_directory (title : string) : M string :=
  timestamp <- datetime_now_strftime ;;
  let directory_name := timestamp +:+ "_" +:+ sanitize_filename (Str.take 20 title) in
  makedirs directory_name ;;
  ret directory_name.

(** [None] when [urlparse] raises. *)
Definition is_valid_url (url : string) : option bool :=
  match urlparse lib url with
  | Some parsed_url =>
      Some (negb (String.eqb (netloc parsed_url) EmptyString)
            && negb (String.eqb (scheme parsed_url) EmptyString))
  | None => None
  end.

Definition download_file (url filename directory : string) : M string :=
  valid <- or_raise (URLValueError url) (is_valid_url url) ;;
  if negb valid then
    print ("Skipping invalid URL: " +:+ url) ;;
    ret EmptyString
  else
    response <- requests_get url ;;
    match response with
    | inr e =>
        print ("Failed to download file: " +:+ filename) ;;
        print ("Error: " +:+ e) ;;
        ret EmptyString
    | inl content =>
        let sanitized_filename := sanitize_filename filename in
        let file_path := Path.join directory sanitized_filename in
        makedirs (Path.dirname file_path) ;;
        failure <- open_write file_path content ;;
        match failure with
        | Some e =>
            print ("Failed to save file: " +:+ file_path) ;;
            print ("Error: " +:+ e) ;;
            ret EmptyString
        | None => ret (abspath lib file_path)
        end
    end.

(** The three assignment loops of [modify_html_content], on the parsed
    page. *)
Definition rewrite_references (page : soup) : soup :=
  let page := assign_all (named "img") "src"
                (fun src => Path.join "images" (sanitize_filename src)) page in
  let page := assign_all (named "script") "src"
                (fun src => Path.join "js" (sanitize_filename src)) page in
  assign_all (named_rel "link" "stylesheet") "href"
    (fun href => Path.join "css" (sanitize_filename href)) page.

(** An [open] outside a [try]: the [IOError] propagates. *)
Definition open_write_or_raise (path : string) (data : list Byte.byte) : M unit :=
  failure <- open_write path data ;;
  match failure with
  | Some _ => raise (IOError path)
  | None => ret tt
  end.

Definition modify_html_content (content : list Byte.byte)
    (directory_name base_url : string) : M unit :=
  let soup := BeautifulSoup lib content in
  let soup := rewrite_references soup in
  let modified_content := prettify lib soup in
  open_write_or_raise (Path.join directory_name "index.html") modified_content.

(** The inner loop of [parse_website],
    [for element in soup.find_all(tag): ...], over the elements left. *)
Fixpoint download_elements (elements : list node) (attribute subdir base_url : string)
    (start_time : Q) (time_limit : Z) : M flow :=
  match elements with
  | [] => ret Next
  | element :: rest =>
      match element_get element attribute with
      | Some content_url =>
          let content_url :=
            if Str.startswith ".." content_url then urljoin lib base_url content_url
            else content_url in
          let filename := Path.basename content_url in
          download_file content_url filename subdir ;;
          now <- time_time ;;
          let elapsed_time := (now - start_time)%Q in
          if Qle_bool (inject_Z time_limit) elapsed_time then
            print ("Time limit exceeded (" +:+ pretty time_limit
                   +:+ "s). Stopping further downloads.") ;;
            ret Returned
          else download_elements rest attribute subdir base_url start_time time_limit
      | None => download_elements rest attribute subdir base_url start_time time_limit
      end
  end.

(** The outer loop, [for tag, attribute, subdir in [...]: ...], over the
    rows left. *)
Fixpoint download_categories (rows : list (string * string * string)) (page : soup)
    (base_url : string) (start_time : Q) (time_limit : Z) : M flow :=
  match rows with
  | [] => ret Next
  | (tag, attribute, subdir) :: rest =>
      ended <- download_elements (find_all tag page) attribute subdir base_url
                 start_time time_limit ;;
      match ended with
      | Returned => ret Returned
      | Next => download_categories rest page base_url start_time time_limit
      end
  end.

(** [for subdir in subdirectories.values(): os.makedirs(subdir, exist_ok=True)] *)
Fixpoint makedirs_each (paths : list string) : M unit :=
  match paths with
  | [] => ret tt
  | subdir :: rest => makedirs subdir ;; makedirs_each rest
  end.

(** The dictionary [subdirectories] of [parse_website], in insertion
    order. *)
Definition subdirectories (directory_name : string) : list (string * string) :=
  [ ("images", Path.join directory_name "images");
    ("audio", Path.join directory_name "audio");
    ("pdfs", Path.join directory_name "pdfs");
    ("text", Path.join directory_name "text");
    ("js", Path.join directory_name "js");
    ("css", Path.join directory_name "css") ].

(** The list the download loop of [parse_website] runs over. *)
Definition download_rows (directory_name : string) : list (string * string * string) :=
  [ ("img", "src", Path.join directory_name "images");
    ("audio", "src", Path.join directory_name "audio");
    ("a", "href", Path.join directory_name "pdfs");
    ("a", "href", Path.join directory_name "text");
    ("script", "src", Path.join directory_name "js") ].

(** [soup.title.string.strip()]; each of [soup.title] and
    [soup.title.string] may be [None], and the next attribute access
    then raises [AttributeError]. *)
Definition title_of (page : soup) : M string :=
  match soup_title page with
  | None => raise AttributeError
  | Some title =>
      match node_string title with
      | None => raise AttributeError
      | Some text => ret (Str.strip text)
      end
  end.

Definition parse_website (url : string) (time_limit : Z) : M unit :=
  start_time <- time_time ;;
  parsed_url <- or_raise (URLValueError url) (urlparse lib url) ;;
  let base_url := scheme parsed_url +:+ "://" +:+ netloc parsed_url in
  response <- requests_get url ;;
  match response with
  | inr e =>
      print ("Failed to access website: " +:+ url) ;;
      print ("Error: " +:+ e)
  | inl content =>
      let soup := BeautifulSoup lib content in
      title <- title_of soup ;;
      directory_name <- create_directory title ;;
      makedirs_each (List.map snd (subdirectories directory_name)) ;;
      open_write_or_raise (Path.join directory_name "index.html") content ;;
      ended <- download_categories (download_rows directory_name) soup base_url
                 start_time time_limit ;;
      match ended with
      | Returned => ret tt
      | Next =>
          modify_html_content content directory_name base_url ;;
          print "Website parsing and download completed."
      end
  end.

(** *** The download loop as a list of jobs

    The two nested loops visit, row by row and element by element, the
    elements that have the attribute of the row. A job is the value of
    the attribute with the subdirectory of the row. *)

Definition job : Type := string * string.

Definition jobs_in (elements : list node) (attribute subdir : string) : list job :=
  flat_map (fun element => match element_get element attribute with
                           | Some content_url => [(content_url, subdir)]
                           | None => []
                           end) elements.

Definition schedule (rows : list (string * string * string)) (page : soup) : list job :=
  flat_map (fun '(tag, attribute, subdir) => jobs_in (find_all tag page) attribute subdir) rows.

(** The URL a reference is fetched from and the name it is saved
    under. *)
Definition resolve (base_url content_url : string) : string :=
  if Str.startswith ".." content_url then urljoin lib base_url content_url
  else content_url.

Definition local_name (base_url content_url : string) : string :=
  sanitize_filename (Path.basename (resolve base_url content_url)).

(** One job carried out: the download, then the reading of the clock.
    The exception of the download, if any, ends the job before the
    clock is read. *)
Definition attempt (base_url : string) (j : job) : M unit :=
  let url := resolve base_url (fst j) in
  download_file url (Path.basename url) (snd j) ;;
  time_time ;;
  ret tt.

(** The jobs of a list carried out one after the other, up to the first
    that raises. *)
Fixpoint attempt_each (base_url : string) (jobs : list job) : M unit :=
  match jobs with
  | [] => ret tt
  | j :: rest => attempt base_url j ;; attempt_each base_url rest
  end.

(** The loop over the jobs, with the check of the time limit after each
    of them. *)
Fixpoint download_jobs (jobs : list job) (base_url : string)
    (start_time : Q) (time_limit : Z) : M flow :=
  match jobs with
  | [] => ret Next
  | (content_url, subdir) :: rest =>
      let url := resolve base_url content_url in
      download_file url (Path.basename url) subdir ;;
      now <- time_time ;;
      if Qle_bool (inject_Z time_limit) (now - start_time)%Q then
        print ("Time limit exceeded (" +:+ pretty time_limit
               +:+ "s). Stopping further downloads.") ;;
        ret Returned
      else download_jobs rest base_url start_time time_limit
  end.

(** The name [create_directory] gives the directory of a run when
    [datetime.now()] is the reading of the clock of index [reads]. *)
Definition directory_of (reads : nat) (title : string) : string :=
  strftime env (clock env reads) +:+ "_" +:+ sanitize_filename (Str.take 20 title).

(** The steps of [parse_website] between the fetch of the page and the
    download loop, for a run begun in [w] whose fetch of the page
    returned [content] with a title [title]. [started] is the world
    after the fetch: the clock read once, the request logged.
    [provisioned] makes the directory of the run and its
    subdirectories; [root_persisted] then saves the raw page as
    [index.html]. Each of them returns, or raises what the first
    failing call of the file system raises. *)
Definition started (url : string) (w : world) : world :=
  World (files w) (dirs w) (stdout w) (requests w ++ [url]) (S (clock_reads w)) (fs_calls w).

Definition provisioned (url title : string) (w : world) : outcome string * world :=
  (directory_name <- create_directory title ;;
   makedirs_each (List.map snd (subdirectories directory_name)) ;;
   ret directory_name) (started url w).

Definition root_persisted (url title : string) (content : list Byte.byte)
    (w : world) : outcome unit * world :=
  (directory_name <- create_directory title ;;
   makedirs_each (List.map snd (subdirectories directory_name)) ;;
   open_write_or_raise (Path.join directory_name "index.html") content) (started url w).

(** The line printed when the limit is reached. *)
Definition time_limit_notice (time_limit : Z) : string :=
  "Time limit exceeded (" +:+ pretty time_limit +:+ "s). Stopping further downloads.".

(** *** The scheduler as the specification describes it

    The limit is looked at before each job, and the job is dropped with
    all that follow when the limit is reached. *)
Fixpoint check_first_jobs (jobs : list job) (base_url : string)
    (start_time : Q) (time_limit : Z) : M flow :=
  match jobs with
  | [] => ret Next
  | (content_url, subdir) :: rest =>
      now <- time_time ;;
      if Qle_bool (inject_Z time_limit) (now - start_time)%Q then
        print (time_limit_notice time_limit) ;;
        ret Returned
      else
        let url := resolve base_url content_url in
        download_file url (Path.basename url) subdir ;;
        check_first_jobs rest base_url start_time time_limit
  end.

End Script.

(** ** Notions used in the statements *)

(** How the new value of a reference attribute relates to the old one
    when the reference has been made local under the directory [dir]: an
    element without the attribute still has none; a value is replaced by
    a path below [dir], which for a plain file name (no '/', no leading
    "..") is [dir] joined with the name the download loop saves it
    under. *)
Definition made_local (lib : library) (base_url dir : string)
    (old new : option string) : Prop :=
  match old with
  | None => new = None
  | Some v =>
      exists v', new = Some v'
        /\ Str.startswith (dir +:+ "/") v' = true
        /\ (Str.contains "/" v = false -> Str.startswith ".." v = false ->
            v' = Path.join dir (local_name lib base_url v))
  end.

(** The values of an attribute on the elements that have it, in order. *)
Definition values_of (attribute : string) (elements : list node) : list string :=
  flat_map (fun element => match element_get element attribute with
                           | Some v => [v]
                           | None => []
                           end) elements.

(** The rows of the download loop with the directory names the rewriter
    would use for them. *)
Definition handled_categories : list (string * string * string) :=
  [ ("img", "src", "images");
    ("audio", "src", "audio");
    ("a", "href", "pdfs");
    ("a", "href", "text");
    ("script", "src", "js") ].

(** The rewriter as the specification describes it: every element of a
    row of the download loop has its reference replaced by the directory
    of the row joined with the local name of the reference. *)
Definition rewrites_every_category (lib : library) (base_url : string)
    (page : soup) : Prop :=
  forall tag attribute dir,
    In (tag, attribute, dir) handled_categories ->
    Forall2 (fun e e' =>
               element_get e' attribute
               = option_map (fun v => Path.join dir (local_name lib base_url v))
                   (element_get e attribute))
      (find_all tag page) (find_all tag (rewrite_references page)).

(** ** A library and an environment to run the script on examples *)

Module Demo.

Definition isalpha (c : ascii) : bool := Str.contains c ascii_letters.

Definition lower (c : ascii) : ascii :=
  let n := nat_of_ascii c in
  if ((65 <=? n) && (n <=? 90))%nat then ascii_of_nat (n + 32) else c.

(** [s.partition(c)]: [s] around the first [c]. *)
Fixpoint partition (c : ascii) (s : string) : option (string * string) :=
  match s with
  | EmptyString => None
  | String d s' =>
      if Ascii.eqb d c then Some (EmptyString, s')
      else match partition c s' with
           | Some (a, b) => Some (String d a, b)
           | None => None
           end
  end.

(** The text before the first of '/', '?' and '#'. *)
Fixpoint authority (s : string) : string :=
  match s with
  | EmptyString => EmptyString
  | String d s' =>
      if Str.contains d "/?#" then EmptyString else String d (authority s')
  end.

(** The scheme and the network location that [urllib.parse.urlparse]
    finds in a URL without control characters and without a bracketed
    host: the scheme is the text before the first ':' when it starts
    with a letter and is made of letters, digits, '+', '-' and '.'; the
    network location follows a "//" and ends at the next '/', '?' or
    '#'. A network location with a '[' and no ']', or with a ']' and no
    '[', makes [urlparse] raise [ValueError] ("Invalid IPv6 URL"). *)
Definition urlparse (url : string) : option ParseResult :=
  let '(scheme, rest) :=
    match url with
    | String c _ =>
        if isalpha c then
          match partition ":" url with
          | Some (a, b) =>
              if Str.all (fun d => Str.contains d (ascii_letters +:+ digits +:+ "+-.")) a
              then (Str.map lower a, b) else (EmptyString, url)
          | None => (EmptyString, url)
          end
        else (EmptyString, url)
    | EmptyString => (EmptyString, url)
    end in
  match rest with
  | String "/" (String "/" rest') =>
      let netloc := authority rest' in
      if (Str.contains "[" netloc && negb (Str.contains "]" netloc))
         || (Str.contains "]" netloc && negb (Str.contains "[" netloc))
      then None
      else Some {| scheme := scheme; netloc := netloc |}
  | _ => Some {| scheme := scheme; netloc := EmptyString |}
  end.

(** A reference without its leading "../" steps. *)
Fixpoint climb (fuel : nat) (url : string) : string :=
  match fuel, url with
  | S fuel', String "." (String "." (String "/" url')) => climb fuel' url'
  | _, _ => url
  end.

(** [urllib.parse.urljoin] for a base that has no path and a reference
    made of "../" steps and a path: the steps are dropped, the path is
    put below the base. *)
Definition urljoin (base url : string) : string :=
  base +:+ "/" +:+ climb (String.length url) url.

(** Void elements are printed without a closing tag. *)
Definition void (name : string) : bool :=
  existsb (String.eqb name) ["img"; "link"; "br"; "meta"; "hr"; "input"].

Definition quote : string := String (ascii_of_nat 34) EmptyString.

Definition attribute_text (attrs : attributes) : string :=
  fold_right (fun '(k, v) acc => " " +:+ k +:+ "=" +:+ quote +:+ v +:+ quote +:+ acc)
    EmptyString attrs.

Fixpoint indent (depth : nat) : string :=
  match depth with
  | O => EmptyString
  | S d => " " +:+ indent d
  end.

Definition newline : string := String (ascii_of_nat 10) EmptyString.

(** A printer in the manner of [prettify]: one tag or text per line,
    indented by its depth. *)
Fixpoint print_node (depth : nat) (n : node) : string :=
  match n with
  | NavigableString text => indent depth +:+ Str.strip text +:+ newline
  | Tag name attrs contents =>
      let opening := indent depth +:+ "<" +:+ name +:+ attribute_text attrs +:+ ">" +:+ newline in
      if void name then opening
      else
        opening
          +:+ fold_right (fun child acc => print_node (S depth) child +:+ acc)
                EmptyString contents
          +:+ indent depth +:+ "</" +:+ name +:+ ">" +:+ newline
  end.

Definition prettify (page : soup) : list Byte.byte :=
  list_byte_of_string
    (fold_right (fun child acc => print_node 0 child +:+ acc) EmptyString page).

(** The markup of a tree, written without any white space added. *)
Fixpoint markup_node (n : node) : string :=
  match n with
  | NavigableString text => text
  | Tag name attrs contents =>
      let opening := "<" +:+ name +:+ attribute_text attrs +:+ ">" in
      if void name then opening
      else
        opening
          +:+ fold_right (fun child acc => markup_node child +:+ acc) EmptyString contents
          +:+ "</" +:+ name +:+ ">"
  end.

Definition markup (page : soup) : list Byte.byte :=
  list_byte_of_string
    (fold_right (fun child acc => markup_node child +:+ acc) EmptyString page).

(** The parser, on the pages of a table: a page is recognised by its
    markup; any other content parses to the empty document. *)
Definition BeautifulSoup (pages : list soup) (content : list Byte.byte) : soup :=
  match List.find (fun page => String.eqb (string_of_list_byte (markup page))
                                 (string_of_list_byte content)) pages with
  | Some page => page
  | None => []
  end.

Definition lib (pages : list soup) : library :=
  Library urlparse urljoin (BeautifulSoup pages) prettify
    (fun path => "/home/user/" +:+ path).

(** A network that serves a table of URLs with status 200 and answers
    404 for every other URL. *)
Definition network (served : list (string * list Byte.byte)) (n : nat) (url : string) : reply :=
  match List.find (fun '(u, _) => String.eqb u url) served with
  | Some (_, content) => Response 200 "OK" content
  | None => Response 404 "Not Found" []
  end.

Definition two_digits (n : nat) : string :=
  (if (n <? 10)%nat then "0" else EmptyString) +:+ pretty n.

(** The time stamp of a reading of a clock that shows the seconds since
    noon of the first of January 2024, within the hour that follows. *)
Definition strftime (t : Q) : string :=
  let seconds := Z.to_nat (Qfloor t) in
  "20240101_12" +:+ two_digits ((seconds / 60) mod 60) +:+ two_digits (seconds mod 60).

(** [open] refuses a path that ends with '/': it names a directory. *)
Definition io_error (n : nat) (path : string) : option write_failure :=
  if Str.endswith "/" path
  then Some (OpenFailed ("[Errno 21] Is a directory: '" +:+ path +:+ "'"))
  else None.

(** The network above, a clock whose [n]-th reading is [tick * n]
    seconds, and a file system that makes every directory and writes
    every file. *)
Definition env (served : list (string * list Byte.byte)) (tick : Q) : environment :=
  Environment (network served) (fun n => (tick * inject_Z (Z.of_nat n))%Q)
    strftime (fun _ _ => None) io_error.

(** A document with a title and a body. *)
Definition document (title : string) (body : list node) : soup :=
  [Tag "html" [] [Tag "head" [] [Tag "title" [] [NavigableString title]];
                  Tag "body" [] body]].

(** The run of the script on a site: the page served at [url], the
    assets served beside it, with the default limit of 4 seconds or the
    one given. *)
Definition run (url : string) (page : soup) (assets : list (string * list Byte.byte))
    (tick : Q) (time_limit : Z) : outcome unit * world :=
  parse_website (lib [page]) (env ((url, markup page) :: assets) tick)
    url time_limit empty_world.

End Demo.

(** ** Example pages *)

Module Examples.

Definition root : string := "http://example.test/".

Definition bytes123 : list Byte.byte := [Byte.x01; Byte.x02; Byte.x03].

(** The page of the end-to-end scenario: one image, named by a relative
    reference. *)
Definition demo_page : soup :=
  Demo.document "Demo Page Title" [Tag "img" [("src", "a.png")] []].

(** The same page with the image named by its absolute URL. *)
Definition absolute_page : soup :=
  Demo.document "Demo Page Title"
    [Tag "img" [("src", "http://example.test/img/a.png")] []].

(** The same page with the image named relative to the parent
    directory. *)
Definition parent_page : soup :=
  Demo.document "Demo Page Title" [Tag "img" [("src", "../a.png")] []].

(** A page with ten images. *)
Definition image_urls : list string :=
  List.map (fun name => "http://example.test/" +:+ name +:+ ".png")
    ["i0"; "i1"; "i2"; "i3"; "i4"; "i5"; "i6"; "i7"; "i8"; "i9"].

Definition gallery_page : soup :=
  Demo.document "Gallery" (List.map (fun url => Tag "img" [("src", url)] []) image_urls).

Definition gallery_assets : list (string * list Byte.byte) :=
  List.map (fun url => (url, bytes123)) image_urls.

(** A page with a sound and a link. *)
Definition media_page : soup :=
  Demo.document "Media"
    [Tag "audio" [("src", "song.mp3")] [];
     Tag "a" [("href", "notes.txt")] [NavigableString "notes"]].

(** A page with a style sheet. *)
Definition styled_page : soup :=
  [Tag "html" []
     [Tag "head" []
        [Tag "title" [] [NavigableString "Styled"];
         Tag "link" [("rel", "stylesheet"); ("href", "http://example.test/style.css")] []];
      Tag "body" [] []]].

(** A page with two images, the first named by a reference that
    [urlparse] rejects. *)
Definition bracket_page : soup :=
  Demo.document "Bracket"
    [Tag "img" [("src", "//[")] [];
     Tag "img" [("src", "http://example.test/a.png")] []].

(** A page with a link to a document. *)
Definition linked_page : soup :=
  Demo.document "Links"
    [Tag "a" [("href", "http://example.test/doc.pdf")] [NavigableString "the document"]].

End Examples.

(** ** Notions used in the further properties *)

(** The text of the failure of the fetch a world is about to make for a
    URL: the exception of [requests.get], or the [HTTPError] that
    [raise_for_status] raises for a status from 400 to 599; [None] when
    the fetch succeeds. *)
Definition fetch_error (env : environment) (url : string) (w : world) : option string :=
  match network env (length (requests w)) url with
  | Response status reason _ => raise_for_status url status reason
  | RequestException e => Some e
  end.

(** The content the fetch returns when it succeeds. *)
Definition fetched (env : environment) (url : string) (w : world) : option (list Byte.byte) :=
  match network env (length (requests w)) url with
  | Response status reason content =>
      match raise_for_status url status reason with
      | Some _ => None
      | None => Some content
      end
  | RequestException _ => None
  end.

(** A path below the directory [dir]. *)
Definition inside (dir path : string) : bool := String.prefix (dir +:+ "/") path.

(** Whether a GET is issued for a URL: [urlparse] returns and finds a
    scheme and a network location. *)
Definition valid_url (lib : library) (url : string) : bool :=
  match is_valid_url lib url with
  | Some valid => valid
  | None => false
  end.

(** An environment like [Demo.env] in which the quota of the user is
    used up: directories are made and files are opened, but no byte can
    be written. *)
Definition quota_env (served : list (string * list Byte.byte)) : environment :=
  Environment (Demo.network served) (fun _ => 0%Q) Demo.strftime (fun _ _ => None)
    (fun _ _ => Some (WriteFailed "[Errno 122] Disk quota exceeded" 0)).

(** An environment like [Demo.env] in which the current directory is
    read-only: no directory is made in it. *)
Definition read_only_env (served : list (string * list Byte.byte)) : environment :=
  Environment (Demo.network served) (fun _ => 0%Q) Demo.strftime
    (fun _ path => Some ("[Errno 13] Permission denied: '" +:+ path +:+ "'"))
    (fun _ path => Some (OpenFailed ("[Errno 2] No such file or directory: '"
                                      +:+ path +:+ "'"))).

(** A page without a title, and a page whose title is empty. *)
Definition untitled_page : soup :=
  [Tag "html" [] [Tag "body" [] [Tag "img" [("src", "http://example.test/a.png")] []]]].

Definition empty_title_page : soup :=
  [Tag "html" [] [Tag "head" [] [Tag "title" [] []];
                  Tag "body" [] [Tag "img" [("src", "http://example.test/a.png")] []]]].

(** A page whose elements have nothing to download: an image without
    [src], an anchor without [href]. *)
Definition bare_page : soup :=
  Demo.document "Bare"
    [Tag "img" [("alt", "logo")] []; Tag "a" [("name", "top")] [NavigableString "top"]].

(** What the three loops of [modify_html_content] do to the attributes
    of one element, by its name. *)
Definition rewritten_attrs (name : string) (attrs : attributes) : attributes :=
  assign (named_rel "link" "stylesheet") "href"
    (fun href => Path.join "css" (sanitize_filename href)) name
    (assign (named "script") "src"
       (fun src => Path.join "js" (sanitize_filename src)) name
       (assign (named "img") "src"
          (fun src => Path.join "images" (sanitize_filename src)) name attrs)).

(** Whether a [rel] attribute names a style sheet: one of its
    white-space separated values is [stylesheet]. *)
Definition is_stylesheet (attrs : attributes) : bool :=
  match dict_get attrs "rel" with
  | Some v => existsb (String.eqb "stylesheet") (Str.tokens v)
  | None => false
  end.

(** A page with three links: a style sheet, an alternate style sheet and
    an icon. *)
Definition links_page : soup :=
  [Tag "html" []
     [Tag "head" []
        [Tag "title" [] [NavigableString "Links"];
         Tag "link" [("rel", "stylesheet"); ("href", "main.css?v=3")] [];
         Tag "link" [("href", "print.css"); ("rel", "alternate  stylesheet")] [];
         Tag "link" [("rel", "icon"); ("href", "favicon.ico")] [];
         Tag "link" [("rel", "Stylesheet"); ("href", "upper.css")] []];
      Tag "body" [] []]].

(** ** The command line *)

(** How the script ends: [parse_website] was run (or the usage line
    printed), or [int] raised [ValueError] on the second argument. *)
Inductive exit : Type :=
| Ran (o : outcome unit)
| ValueError (argument : string).

(** The block under [if __name__ == "__main__"], on [sys.argv]. The
    built-in [int] is a parameter: the integer a string denotes, if
    any. *)
Definition main (lib : library) (env : environment) (int : string -> option Z)
    (argv : list string) (w : world) : exit * world :=
  match argv with
  | _ :: website_url :: rest =>
      match rest with
      | limit :: _ =>
          match int limit with
          | Some time_limit =>
              let (o, w') := parse_website lib env website_url time_limit w in (Ran o, w')
          | None => (ValueError limit, w)
          end
      | [] => let (o, w') := parse_website lib env website_url 4 w in (Ran o, w')
      end
  | _ =>
      let (o, w') := print "Please provide the website address as an argument." w in
      (Ran o, w')
  end.

(** [int] on the decimal numerals used in the examples. *)
Definition int_of_digits (s : string) : option Z :=
  match s with
  | EmptyString => None
  | _ =>
      if Str.all (fun c => Str.contains c digits) s then
        Some (fold_left (fun n c => (10 * n + Z.of_nat (nat_of_ascii c - 48))%Z)
                (list_ascii_of_string s) 0%Z)
      else None
  end.

(** ** The jobs a time limit lets through *)

(** The jobs of a list that the loop carries out when the clock has been
    read [reads] times before the first of them: each job is followed by
    one reading of the clock, and the first reading that finds the limit
    reached ends the list. [cut_short] tells whether some reading does. *)
Fixpoint carried_out (env : environment) (start_time : Q) (time_limit : Z)
    (reads : nat) (jobs : list job) : list job :=
  match jobs with
  | [] => []
  | j :: rest =>
      j :: (if Qle_bool (inject_Z time_limit) (clock env reads - start_time)%Q then []
            else carried_out env start_time time_limit (S reads) rest)
  end.

Fixpoint cut_short (env : environment) (start_time : Q) (time_limit : Z)
    (reads : nat) (jobs : list job) : bool :=
  match jobs with
  | [] => false
  | j :: rest =>
      if Qle_bool (inject_Z time_limit) (clock env reads - start_time)%Q then true
      else cut_short env start_time time_limit (S reads) rest
  end.

(** * Properties *)

(** ** The sanitizer *)

Section SanitizeFacts.

Lemma filename_char_allowed (c : ascii) : filename_char c = allowed c.
Proof.
  destruct c as [[] [] [] [] [] [] [] []]; vm_compute; reflexivity.
Qed.

Lemma allowed_not_query (c : ascii) :
  allowed c = true -> Ascii.eqb c "?" = false /\ Ascii.eqb c "#" = false.
Proof.
  destruct c as [[] [] [] [] [] [] [] []]; vm_compute; intuition congruence.
Qed.

Lemma allowed_underscore : allowed "_" = true.
Proof. reflexivity. Qed.

Lemma before_before (s : string) :
  Str.before "#" (Str.before "?" s) = strip_query_fragment s.
Proof.
  induction s as [|d s IH]; simpl; [reflexivity|].
  destruct (Ascii.eqb d "?") eqn:Eq; simpl; [reflexivity|].
  destruct (Ascii.eqb d "#") eqn:Eh; simpl; [reflexivity|].
  now rewrite IH.
Qed.

Lemma map_ext (f g : ascii -> ascii) (s : string) :
  (forall c, f c = g c) -> Str.map f s = Str.map g s.
Proof.
  intros E; induction s as [|d s IH]; simpl; [reflexivity|].
  now rewrite E, IH.
Qed.

Lemma sanitize_filename_spec' (s : string) :
  sanitize_filename s = replace_disallowed (strip_query_fragment s).
Proof.
  unfold sanitize_filename, replace_disallowed.
  rewrite before_before. apply map_ext.
  intros c. now rewrite filename_char_allowed.
Qed.

Lemma sanitize_filename_spec (s : string) :
  sanitize_filename s = sanitize_spec s.
Proof.
  unfold sanitize_filename, sanitize_spec, replace_disallowed.
  rewrite before_before. apply map_ext.
  intros c. now rewrite filename_char_allowed.
Qed.

Lemma replace_disallowed_all (s : string) :
  Str.all allowed (replace_disallowed s) = true.
Proof.
  unfold replace_disallowed.
  unfold replace_disallowed.
  induction s as [|d s IH]; simpl; [reflexivity|].
  rewrite IH, andb_true_r.
  destruct (allowed d) eqn:E; [exact E | exact allowed_underscore].
Qed.

Lemma strip_query_fragment_allowed (s : string) :
  Str.all allowed s = true -> strip_query_fragment s = s.
Proof.
  induction s as [|d s IH]; simpl; [reflexivity|].
  intros H. apply andb_prop in H. destruct H as [Hd Hs].
  destruct (allowed_not_query d Hd) as [-> ->]. simpl.
  now rewrite IH.
Qed.

Lemma replace_disallowed_allowed (s : string) :
  Str.all allowed s = true -> replace_disallowed s = s.
Proof.
  unfold replace_disallowed.
  induction s as [|d s IH]; simpl; [reflexivity|].
  intros H. apply andb_prop in H. destruct H as [Hd Hs].
  now rewrite Hd, IH.
Qed.

Lemma sanitize_spec_fixed (s : string) :
  Str.all allowed s = true -> sanitize_spec s = s.
Proof.
  intros H. unfold sanitize_spec.
  rewrite (strip_query_fragment_allowed s H).
  now apply replace_disallowed_allowed.
Qed.

Lemma map_length (f : ascii -> ascii) (s : string) :
  String.length (Str.map f s) = String.length s.
Proof. induction s as [|d s IH]; simpl; congruence. Qed.

End SanitizeFacts.

(** What [strip_query_fragment] keeps is the part of the string before
    its first '?' or '#'. *)
Lemma strip_query_fragment_cut (s : string) :
  exists rest,
    s = strip_query_fragment s +:+ rest
    /\ Str.contains "?" (strip_query_fragment s) = false
    /\ Str.contains "#" (strip_query_fragment s) = false
    /\ (rest = EmptyString \/ exists c rest', rest = String c rest'
                                /\ (c = "?"%char \/ c = "#"%char)).
Proof.
  induction s as [|d s IH]; cbn [strip_query_fragment].
  - exists EmptyString. repeat split; auto.
  - destruct (Ascii.eqb d "?") eqn:Eq; cbn [orb].
    + apply Ascii.eqb_eq in Eq. subst d.
      exists (String "?" s). repeat split; auto.
      right. exists "?"%char, s. auto.
    + destruct (Ascii.eqb d "#") eqn:Eh.
      * apply Ascii.eqb_eq in Eh. subst d.
        exists (String "#" s). repeat split; auto.
        right. exists "#"%char, s. auto.
      * destruct IH as (rest & E & Hq & Hh & Hrest).
        exists rest. cbn [Str.contains].
        rewrite (Ascii.eqb_sym "?" d), (Ascii.eqb_sym "#" d), Eq, Eh.
        repeat split; auto.
        change (String d s = String d (strip_query_fragment s +:+ rest)). now f_equal.
Qed.

(** C9. [sanitize_filename] is a total function that agrees with the
    sanitizer of the specification: it drops everything from the first
    '?' or '#' onward and replaces every character outside
    {A-Z, a-z, 0-9, '.', '_', '-'} by '_'. Its result holds allowed
    characters only; the empty string is mapped to the empty string and a
    string of disallowed characters to as many underscores; sanitizing a
    sanitized name changes nothing. *)
Theorem sanitize_filename_total_idempotent (s : string) :
  sanitize_filename s = replace_disallowed (strip_query_fragment s)
  /\ (exists rest, s = strip_query_fragment s +:+ rest
                  /\ Str.contains "?" (strip_query_fragment s) = false
                  /\ Str.contains "#" (strip_query_fragment s) = false
                  /\ (rest = EmptyString
                      \/ exists c rest', rest = String c rest'
                                        /\ (c = "?"%char \/ c = "#"%char)))
  /\ String.length (sanitize_filename s) = String.length (strip_query_fragment s)
  /\ Str.all allowed (sanitize_filename s) = true
  /\ sanitize_filename EmptyString = EmptyString
  /\ (Str.all (fun c => negb (allowed c) && negb (Str.contains c "?#")) s = true ->
      Str.all (Ascii.eqb "_") (sanitize_filename s) = true
      /\ String.length (sanitize_filename s) = String.length s)
  /\ sanitize_filename (sanitize_filename s) = sanitize_filename s.
Proof.
  pose proof (sanitize_filename_spec s) as E. unfold sanitize_spec in E.
  split; [exact E|].
  split; [apply strip_query_fragment_cut|].
  split; [rewrite E; apply map_length|].
  split; [rewrite E; apply replace_disallowed_all|].
  split; [reflexivity|].
  split.
  - rewrite E. clear E. unfold replace_disallowed.
    induction s as [|d s IH]; [cbn; auto|].
    cbn [Str.all strip_query_fragment]. 
    intros H. apply andb_prop in H. destruct H as [Hd Hs].
    apply andb_prop in Hd. destruct Hd as [Ha Hq].
    apply negb_true_iff in Ha.
    assert (Ascii.eqb d "?" || Ascii.eqb d "#" = false) as ->.
    { apply negb_true_iff in Hq. cbn [Str.contains] in Hq.
      destruct (Ascii.eqb d "?"); [discriminate|].
      destruct (Ascii.eqb d "#"); [discriminate|reflexivity]. }
    cbn [Str.map Str.all String.length]. rewrite Ha.
    destruct (IH Hs) as [-> ->]. auto.
  - rewrite (sanitize_filename_spec (sanitize_filename s)).
    apply sanitize_spec_fixed.
    rewrite E. apply replace_disallowed_all.
Qed.

(** ** The asset fetcher *)

(** An invalid URL is skipped: the notice is printed and nothing else is
    done. *)
Lemma download_file_skips (lib : library) (env : environment)
    (url filename directory : string) (w : world) :
  is_valid_url lib url = Some false ->
  download_file lib env url filename directory w
  = (Ret EmptyString,
     World (files w) (dirs w) (stdout w ++ ["Skipping invalid URL: " +:+ url])
       (requests w) (clock_reads w) (fs_calls w)).
Proof. intros Hv. unfold download_file. now rewrite Hv. Qed.

Lemma is_valid_url_false (lib : library) (url : string) (parsed_url : ParseResult) :
  urlparse lib url = Some parsed_url ->
  scheme parsed_url = EmptyString \/ netloc parsed_url = EmptyString ->
  is_valid_url lib url = Some false.
Proof.
  unfold is_valid_url. intros -> [-> | ->]; cbn.
  - now rewrite andb_false_r.
  - reflexivity.
Qed.

(** The [ValueError] of [urlparse] goes through [is_valid_url] and
    [download_file]: neither catches it. *)
Lemma download_file_unparsed (lib : library) (env : environment)
    (url filename directory : string) (w : world) :
  urlparse lib url = None ->
  download_file lib env url filename directory w = (Raise (URLValueError url), w).
Proof. intros Hp. unfold download_file, is_valid_url. now rewrite Hp. Qed.




(** ** The element tree *)


Section TreeFacts.

Variables wanted found : string -> attributes -> bool.
Variable key : string.
Variable f : string -> string.

(** The assignment does not change which elements [found] selects. *)
Hypothesis found_stable :
  forall name attrs, found name (assign wanted key f name attrs) = found name attrs.

Lemma find_all_assign_node (n : node) :
  List.map shallow (find_all_node found (assign_node wanted key f n))
  = List.map (fun e => (element_name e,
                        assign wanted key f (element_name e) (element_attrs e)))
      (find_all_node found n).
Proof.
  induction n as [name attrs contents IH | text] using node_ind; [|reflexivity].
  cbn [assign_node find_all_node]. rewrite found_stable.
  rewrite !List.map_app. f_equal.
  - destruct (found name attrs); reflexivity.
  - induction IH as [|c l Hc _ IHl]; [reflexivity|].
    cbn [List.map flat_map]. rewrite !List.map_app. now rewrite Hc, IHl.
Qed.

Lemma find_all_assign_all (page : soup) :
  List.map shallow (find_all_where found (assign_all wanted key f page))
  = List.map (fun e => (element_name e,
                        assign wanted key f (element_name e) (element_attrs e)))
      (find_all_where found page).
Proof.
  unfold find_all_where, assign_all.
  induction page as [|n page IH]; [reflexivity|].
  cbn [List.map flat_map]. rewrite !List.map_app.
  now rewrite find_all_assign_node, IH.
Qed.

End TreeFacts.

Lemma find_all_node_found (found : string -> attributes -> bool) (n : node) :
  Forall (fun e => found (element_name e) (element_attrs e) = true) (find_all_node found n).
Proof.
  induction n as [name attrs contents IH | text] using node_ind; [|constructor].
  cbn [find_all_node]. apply Forall_app. split.
  - destruct (found name attrs) eqn:E; constructor; [exact E | constructor].
  - induction IH as [|c l Hc _ IHl]; [constructor|].
    cbn [flat_map]. apply Forall_app. now split.
Qed.

Lemma find_all_where_found (found : string -> attributes -> bool) (page : soup) :
  Forall (fun e => found (element_name e) (element_attrs e) = true)
    (find_all_where found page).
Proof.
  unfold find_all_where. induction page as [|n page IH]; [constructor|].
  cbn [flat_map]. apply Forall_app. split; [apply find_all_node_found | exact IH].
Qed.

(** A loop over the elements of another name leaves the elements of the
    name [tag] as they are. *)
Lemma find_all_assign_other (wanted : string -> attributes -> bool) (key : string)
    (f : string -> string) (tag : string) (page : soup) :
  (forall attrs, wanted tag attrs = false) ->
  List.map shallow (find_all tag (assign_all wanted key f page))
  = List.map shallow (find_all tag page).
Proof.
  intros Hother. unfold find_all.
  rewrite find_all_assign_all by reflexivity.
  pose proof (find_all_where_found (named tag) page) as Hall.
  induction Hall as [|e l He _ IH]; [reflexivity|].
  cbn [List.map]. rewrite IH. f_equal.
  unfold named in He. apply String.eqb_eq in He.
  unfold shallow. f_equal. unfold assign. now rewrite He, Hother.
Qed.


(** The loop over the elements named [tag] assigns to each of them. *)
Lemma find_all_assign_same (key : string) (f : string -> string) (tag : string)
    (page : soup) :
  List.map shallow (find_all tag (assign_all (named tag) key f page))
  = List.map (reassign key f) (List.map shallow (find_all tag page)).
Proof.
  unfold find_all.
  rewrite find_all_assign_all by reflexivity.
  pose proof (find_all_where_found (named tag) page) as Hall.
  induction Hall as [|e l He _ IH]; [reflexivity|].
  cbn [List.map]. rewrite IH. f_equal.
  unfold assign, reassign, shallow. cbn [fst snd]. now rewrite He.
Qed.

Lemma dict_get_set (attrs : attributes) (key v x : string) :
  dict_get attrs key = Some v -> dict_get (dict_set attrs key x) key = Some x.
Proof.
  induction attrs as [|[k u] attrs IH]; cbn [dict_get dict_set]; [discriminate|].
  destruct (String.eqb k key) eqn:E; cbn [dict_get]; rewrite E; auto.
Qed.

Lemma element_get_attrs (e : node) (key : string) :
  element_get e key = dict_get (element_attrs e) key.
Proof. destruct e; reflexivity. Qed.

Lemma map_eq_Forall2 {A B C : Type} (f : B -> C) (h : A -> C) (l : list A) (l' : list B) :
  List.map f l' = List.map h l -> Forall2 (fun a b => f b = h a) l l'.
Proof.
  revert l'. induction l as [|a l IH]; intros [|b l'] E; try discriminate; constructor.
  - now injection E.
  - apply IH. now injection E.
Qed.

(** *** Paths and names *)

Lemma sanitize_filename_head (v : string) :
  Str.startswith "/" (sanitize_filename v) = false.
Proof.
  pose proof (replace_disallowed_all (strip_query_fragment v)) as H.
  rewrite <- sanitize_filename_spec' in H.
  destruct (sanitize_filename v) as [|c s]; [reflexivity|].
  cbn [Str.all] in H. apply andb_prop in H. destruct H as [Hc _].
  unfold Str.startswith. cbn [String.prefix].
  destruct (ascii_dec "/" c) as [<-|]; [discriminate Hc | reflexivity].
Qed.

Lemma rsplit_absent (c : ascii) (s : string) :
  Str.contains c s = false -> Str.rsplit c s = None.
Proof.
  induction s as [|d s IH]; [reflexivity|].
  cbn [Str.contains Str.rsplit]. rewrite (Ascii.eqb_sym c d).
  destruct (Ascii.eqb d c); [discriminate|].
  intros H. now rewrite (IH H).
Qed.

Lemma basename_plain (v : string) :
  Str.contains "/" v = false -> Path.basename v = v.
Proof. intros H. unfold Path.basename. now rewrite rsplit_absent. Qed.

(** ** The reference rewriter *)

Lemma rewrite_references_img (page : soup) :
  List.map shallow (find_all "img" (rewrite_references page))
  = List.map (reassign "src" (fun src => Path.join "images" (sanitize_filename src)))
      (List.map shallow (find_all "img" page)).
Proof.
  unfold rewrite_references.
  rewrite find_all_assign_other by (intros; reflexivity).
  rewrite find_all_assign_other by (intros; reflexivity).
  apply find_all_assign_same.
Qed.

Lemma rewrite_references_script (page : soup) :
  List.map shallow (find_all "script" (rewrite_references page))
  = List.map (reassign "src" (fun src => Path.join "js" (sanitize_filename src)))
      (List.map shallow (find_all "script" page)).
Proof.
  unfold rewrite_references.
  rewrite find_all_assign_other by (intros; reflexivity).
  rewrite find_all_assign_same.
  now rewrite find_all_assign_other by (intros; reflexivity).
Qed.

(** The elements of any other name are left as they are. *)
Lemma rewrite_references_other (tag : string) (page : soup) :
  String.eqb "img" tag = false -> String.eqb "script" tag = false ->
  String.eqb "link" tag = false ->
  List.map shallow (find_all tag (rewrite_references page))
  = List.map shallow (find_all tag page).
Proof.
  intros Hi Hs Hl. unfold rewrite_references.
  rewrite find_all_assign_other
    by (intros; unfold named_rel; rewrite (String.eqb_sym tag), Hl; reflexivity).
  rewrite find_all_assign_other
    by (intros; unfold named; rewrite (String.eqb_sym tag), Hs; reflexivity).
  now rewrite find_all_assign_other
    by (intros; unfold named; rewrite (String.eqb_sym tag), Hi; reflexivity).
Qed.

Lemma prefix_append (a b x : string) :
  String.prefix (a +:+ b) (a +:+ b +:+ x) = true.
Proof.
  induction a as [|c a IH].
  - change (String.prefix b (b +:+ x) = true).
    induction b as [|c b IH]; [destruct x; reflexivity|].
    change (String.prefix (String c b) (String c (b +:+ x)) = true).
    cbn [String.prefix]. destruct (ascii_dec c c); [exact IH | congruence].
  - change (String.prefix (String c (a +:+ b)) (String c (a +:+ b +:+ x)) = true).
    cbn [String.prefix]. destruct (ascii_dec c c); [exact IH | congruence].
Qed.

Lemma reassign_made_local (lib : library) (base_url dir : string) (e e' : node) (key : string) :
  Path.join dir EmptyString = dir +:+ "/" ->
  shallow e' = reassign key (fun v => Path.join dir (sanitize_filename v)) (shallow e) ->
  element_name e' = element_name e
  /\ made_local lib base_url dir (element_get e key) (element_get e' key).
Proof.
  intros Hdir H. unfold shallow, reassign in H. cbn [fst snd] in H.
  injection H as Hname Hattrs. split; [exact Hname|].
  rewrite !element_get_attrs, Hattrs. unfold made_local.
  assert (forall x, Str.startswith "/" x = false -> Path.join dir x = dir +:+ "/" +:+ x) as Hjoin.
  { intros x Hx. revert Hdir. unfold Path.join. rewrite Hx. cbn [Str.startswith String.prefix].
    destruct (String.eqb dir EmptyString || Str.endswith "/" dir)%bool; [|reflexivity].
    intros E. exfalso. revert E. clear. induction dir as [|c d IH]; [discriminate|].
    intros E. injection E as E. apply IH. exact E. }
  destruct (dict_get (element_attrs e) key) as [v|] eqn:E; [|exact E].
  exists (Path.join dir (sanitize_filename v)).
  split; [eapply dict_get_set; eassumption|].
  split.
  - rewrite Hjoin by apply sanitize_filename_head. apply prefix_append.
  - intros Hplain Hdots. unfold local_name, resolve.
    now rewrite Hdots, basename_plain.
Qed.

Lemma modify_html_content_writes (lib : library) (env : environment)
    (content : list Byte.byte) (directory_name base_url : string) (w : world) :
  io_error env (fs_calls w) (Path.join directory_name "index.html") = None ->
  modify_html_content lib env content directory_name base_url w
  = (Ret tt, write_file (Path.join directory_name "index.html")
               (prettify lib (rewrite_references (BeautifulSoup lib content))) w).
Proof.
  intros H. unfold modify_html_content, open_write_or_raise, bind, open_write.
  now rewrite H.
Qed.

(** C5, as amended. The rewriter goes by the shape of the references and
    by nothing else. Every [img] and every [script] element that has a
    [src] gets a path below [images/], respectively [js/], and for a plain
    file name this path is the directory joined with the name the download
    loop saves the asset under; [audio] and [a] elements, which the
    download loop also handles, keep their references. The page written
    is the same in every world and for every network: no outcome of a
    fetch enters it. (It is written when the file system lets
    [index.html] be written.) *)
Theorem rewriter_goes_by_shape (lib : library) (base_url : string) (page : soup) :
  Forall2 (fun e e' => element_name e' = element_name e
                       /\ made_local lib base_url "images"
                            (element_get e "src") (element_get e' "src"))
    (find_all "img" page) (find_all "img" (rewrite_references page))
  /\ Forall2 (fun e e' => element_name e' = element_name e
                          /\ made_local lib base_url "js"
                               (element_get e "src") (element_get e' "src"))
       (find_all "script" page) (find_all "script" (rewrite_references page))
  /\ List.map shallow (find_all "audio" (rewrite_references page))
     = List.map shallow (find_all "audio" page)
  /\ List.map shallow (find_all "a" (rewrite_references page))
     = List.map shallow (find_all "a" page)
  /\ forall (env : environment) (content : list Byte.byte) (directory_name : string)
        (w : world),
       BeautifulSoup lib content = page ->
       io_error env (fs_calls w) (Path.join directory_name "index.html") = None ->
       modify_html_content lib env content directory_name base_url w
       = (Ret tt, write_file (Path.join directory_name "index.html")
                    (prettify lib (rewrite_references page)) w).
Proof.
  split; [|split; [|split; [|split]]].
  - pose proof (map_eq_Forall2 _ _ _ _ (rewrite_references_img page)) as H.
    rewrite Forall2_fmap_l in H.
    eapply Forall2_impl; [exact H|].
    intros e e' He. now apply (reassign_made_local lib base_url "images" e e' "src").
  - pose proof (map_eq_Forall2 _ _ _ _ (rewrite_references_script page)) as H.
    rewrite Forall2_fmap_l in H.
    eapply Forall2_impl; [exact H|].
    intros e e' He. now apply (reassign_made_local lib base_url "js" e e' "src").
  - now apply rewrite_references_other.
  - now apply rewrite_references_other.
  - intros env content directory_name w <- Hio.
    now apply modify_html_content_writes.
Qed.

Lemma rewriter_goes_by_shape_witness :
  BeautifulSoup (Demo.lib [Examples.demo_page]) (Demo.markup Examples.demo_page)
  = Examples.demo_page
  /\ io_error (Demo.env [] 0) 0 (Path.join "site" "index.html") = None
  /\ modify_html_content (Demo.lib [Examples.demo_page]) (Demo.env [] 0)
       (Demo.markup Examples.demo_page) "site" "http://example.test" empty_world
     = (Ret tt, write_file (Path.join "site" "index.html")
                  (prettify (Demo.lib [Examples.demo_page])
                     (rewrite_references Examples.demo_page)) empty_world).
Proof.
  split; [reflexivity|]. split; [reflexivity|].
  apply (rewriter_goes_by_shape (Demo.lib [Examples.demo_page]) "http://example.test"
           Examples.demo_page); reflexivity.
Defined.

(** C5, as stated, fails on a page with a sound and a link: the rewriter
    leaves both references as they are. *)
Lemma rewriter_skips_audio_and_links :
  ~ rewrites_every_category (Demo.lib []) "http://example.test" Examples.media_page.
Proof.
  intros H.
  specialize (H "audio" "src" "audio" (or_intror (or_introl eq_refl))).
  vm_compute in H. inversion H as [|? ? ? ? Hhead _]. discriminate Hhead.
Qed.

(** *** Strings and paths, continued *)

Lemma append_nil_r (s : string) : s +:+ EmptyString = s.
Proof.
  induction s as [|c s IH]; [reflexivity|].
  change (String c (s +:+ EmptyString) = String c s). now rewrite IH.
Qed.

Lemma append_assoc (a b c : string) : (a +:+ b) +:+ c = a +:+ b +:+ c.
Proof.
  induction a as [|d a IH]; [reflexivity|].
  change (String d ((a +:+ b) +:+ c) = String d (a +:+ b +:+ c)). now rewrite IH.
Qed.

Lemma append_inv_head (a b c : string) : a +:+ b = a +:+ c -> b = c.
Proof.
  induction a as [|d a IH]; [trivial|].
  change (String d (a +:+ b) = String d (a +:+ c) -> b = c).
  intros E. injection E as E. auto.
Qed.

Lemma endswith_append (c d : ascii) (a b : string) :
  Str.endswith c (a +:+ String d b) = Str.endswith c (String d b).
Proof.
  induction a as [|e a IH]; [reflexivity|].
  change (Str.endswith c (String e (a +:+ String d b)) = Str.endswith c (String d b)).
  rewrite <- IH. cbn [Str.endswith].
  destruct (a +:+ String d b) eqn:E; [|reflexivity].
  destruct a; discriminate E.
Qed.

(** Joining below a directory whose name ends with a character other
    than '/'. *)
Lemma join_below (a : string) (d : ascii) (b x : string) :
  Str.endswith "/" (String d b) = false -> Str.startswith "/" x = false ->
  Path.join (a +:+ String d b) x = (a +:+ String d b) +:+ "/" +:+ x.
Proof.
  intros Hend Hx. unfold Path.join. rewrite Hx, endswith_append, Hend.
  assert (String.eqb (a +:+ String d b) EmptyString = false) as ->.
  { apply String.eqb_neq. destruct a; discriminate. }
  reflexivity.
Qed.

Lemma chain_from_whole (seen p : string) : In (seen +:+ p) (Path.chain_from seen p).
Proof.
  revert seen. induction p as [|d p IH]; intros seen.
  - rewrite append_nil_r. now left.
  - cbn [Path.chain_from]. apply in_or_app. right.
    specialize (IH (seen +:+ String d EmptyString)).
    now rewrite append_assoc in IH.
Qed.

(** [os.makedirs(p)] makes [p]. *)
Lemma chain_whole (p : string) : p <> EmptyString -> In p (Path.chain p).
Proof.
  intros Hp. unfold Path.chain. apply filter_In. split.
  - apply (chain_from_whole EmptyString p).
  - apply negb_true_iff, String.eqb_neq, Hp.
Qed.

Lemma all_allowed_contains (c : ascii) (s : string) :
  allowed c = false -> Str.all allowed s = true -> Str.contains c s = false.
Proof.
  intros Hc. induction s as [|d s IH]; [reflexivity|].
  cbn [Str.all Str.contains]. intros H. apply andb_prop in H. destruct H as [Hd Hs].
  destruct (Ascii.eqb c d) eqn:E; [|auto].
  apply Ascii.eqb_eq in E. subst d. congruence.
Qed.

Lemma sanitize_filename_allowed (s : string) :
  Str.all allowed (sanitize_filename s) = true.
Proof. rewrite sanitize_filename_spec'. apply replace_disallowed_all. Qed.

Lemma sanitize_filename_no_slash (s : string) :
  Str.contains "/" (sanitize_filename s) = false.
Proof. apply all_allowed_contains; [reflexivity | apply sanitize_filename_allowed]. Qed.

Lemma join_plain (a x : string) :
  a <> EmptyString -> Str.endswith "/" a = false -> Str.startswith "/" x = false ->
  Path.join a x = a +:+ "/" +:+ x.
Proof.
  intros Ha Hend Hx. unfold Path.join. rewrite Hx, Hend.
  apply String.eqb_neq in Ha. now rewrite Ha.
Qed.

(** *** The directory of a run and the paths below it *)

Lemma endswith_absent (c : ascii) (s : string) :
  Str.contains c s = false -> Str.endswith c s = false.
Proof.
  induction s as [|d s IH]; [reflexivity|].
  cbn [Str.contains Str.endswith]. rewrite (Ascii.eqb_sym c d).
  destruct (Ascii.eqb d c); [discriminate|].
  intros H. destruct s; [reflexivity | auto].
Qed.

Lemma directory_of_shape (env : environment) (reads : nat) (title : string) :
  directory_of env reads title <> EmptyString
  /\ Str.endswith "/" (directory_of env reads title) = false.
Proof.
  unfold directory_of. split; [destruct (strftime env _); discriminate|].
  change (Str.endswith "/" (strftime env (clock env reads)
                            +:+ String "_" (sanitize_filename (Str.take 20 title)))
          = false).
  rewrite endswith_append. apply endswith_absent.
  cbn [Str.contains]. change (Ascii.eqb "/" "_") with false. cbv iota.
  apply sanitize_filename_no_slash.
Qed.

Lemma row_target (dir subdir name : string) :
  dir <> EmptyString -> Str.endswith "/" dir = false ->
  In subdir (List.map snd (download_rows dir)) ->
  Str.startswith "/" name = false ->
  inside dir (Path.join subdir name) = true
  /\ Path.join subdir name <> Path.join dir "index.html".
Proof.
  intros Hne Hend Hin Hname.
  rewrite (join_plain dir "index.html" Hne Hend eq_refl).
  assert (forall x, Str.startswith "/" x = false ->
                    Str.endswith "/" (String "/" x) = false ->
                    inside dir (Path.join (Path.join dir x) name) = true
                    /\ (String "/" x +:+ "/" +:+ name <> "/index.html" ->
                        Path.join (Path.join dir x) name <> dir +:+ "/" +:+ "index.html"))
    as Hcase.
  { intros x Hx Hb.
    rewrite (join_plain dir x Hne Hend Hx).
    change (dir +:+ "/" +:+ x) with (dir +:+ String "/" x).
    rewrite (join_below dir "/" x name Hb Hname), append_assoc.
    split.
    - unfold inside. apply (prefix_append dir "/" (x +:+ "/" +:+ name)).
    - intros Hdiff E. apply append_inv_head in E. exact (Hdiff E). }
  cbn [download_rows List.map snd In] in Hin.
  destruct Hin as [<- | [<- | [<- | [<- | [<- | []]]]]];
    (match goal with |- context [Path.join (Path.join dir ?x) name] =>
       destruct (Hcase x eq_refl eq_refl) as [Hin Hdiff] end;
     split; [exact Hin | apply Hdiff; intros E; vm_compute in E; discriminate E]).
Qed.

(** ** [parse_website]: the runs that stop early *)


Lemma join_sanitized (dir v : string) :
  dir <> EmptyString -> Str.endswith "/" dir = false ->
  Path.join dir (sanitize_filename v) = dir +:+ "/" +:+ sanitize_filename v.
Proof. intros Hne Hend. apply join_plain; auto. apply sanitize_filename_head. Qed.

(** [os.path.dirname] of a file directly below a directory is the
    directory. *)
Lemma rsplit_last (c : ascii) (a x : string) :
  Str.contains c x = false ->
  Str.rsplit c (a +:+ String c x) = Some (a +:+ String c EmptyString, x).
Proof.
  intros Hx. induction a as [|d a IH].
  - change (Str.rsplit c (String c x) = Some (String c EmptyString, x)).
    cbn [Str.rsplit]. now rewrite (rsplit_absent c x Hx), Ascii.eqb_refl.
  - change (Str.rsplit c (String d (a +:+ String c x))
            = Some (String d (a +:+ String c EmptyString), x)).
    cbn [Str.rsplit]. now rewrite IH.
Qed.

Lemma rstrip_char_append (c : ascii) (a : string) :
  a <> EmptyString -> Str.endswith c a = false ->
  Str.rstrip_char c (a +:+ String c EmptyString) = a.
Proof.
  induction a as [|d a IH]; [congruence|]. intros _ Hend.
  change (Str.rstrip_char c (String d (a +:+ String c EmptyString)) = String d a).
  cbn [Str.rstrip_char]. destruct a as [|d' a].
  - cbn [Str.endswith] in Hend.
    change (EmptyString +:+ String c EmptyString) with (String c EmptyString).
    cbn [Str.rstrip_char]. now rewrite Ascii.eqb_refl, Hend.
  - rewrite IH; [reflexivity | discriminate | exact Hend].
Qed.

Lemma not_all_slashes (a : string) :
  a <> EmptyString -> Str.endswith "/" a = false ->
  Str.all (fun c => Ascii.eqb c "/") (a +:+ "/") = false.
Proof.
  induction a as [|d a IH]; [congruence|]. intros _ Hend.
  change (Str.all (fun c => Ascii.eqb c "/") (String d (a +:+ "/")) = false).
  cbn [Str.all]. destruct a as [|d' a].
  - cbn [Str.endswith] in Hend. now rewrite Hend.
  - rewrite IH; [apply andb_false_r | discriminate | exact Hend].
Qed.

Lemma dirname_below (a x : string) :
  a <> EmptyString -> Str.endswith "/" a = false -> Str.contains "/" x = false ->
  Path.dirname (a +:+ "/" +:+ x) = a.
Proof.
  intros Hne Hend Hx. unfold Path.dirname.
  change (a +:+ "/" +:+ x) with (a +:+ String "/" x).
  rewrite (rsplit_last "/" a x Hx).
  change (a +:+ String "/" EmptyString) with (a +:+ "/").
  rewrite (not_all_slashes a Hne Hend).
  now apply rstrip_char_append.
Qed.

(** The subdirectories of a run are directly below its directory. *)
Lemma join_name (dir x : string) :
  dir <> EmptyString -> Str.endswith "/" dir = false ->
  Str.startswith "/" x = false -> x <> EmptyString -> Str.endswith "/" x = false ->
  Path.join dir x = dir +:+ "/" +:+ x
  /\ Path.join dir x <> EmptyString /\ Str.endswith "/" (Path.join dir x) = false.
Proof.
  intros Hne Hend Hx Hxne Hxend. rewrite (join_plain dir x Hne Hend Hx).
  split; [reflexivity|]. split; [destruct dir; discriminate|].
  destruct x as [|d y]; [congruence|].
  change (dir +:+ "/" +:+ String d y) with (dir +:+ String "/" (String d y)).
  rewrite endswith_append. exact Hxend.
Qed.

Lemma subdirectory_shape (dir name path : string) :
  dir <> EmptyString -> Str.endswith "/" dir = false ->
  In (name, path) (subdirectories dir) ->
  path = dir +:+ "/" +:+ name
  /\ path <> EmptyString /\ Str.endswith "/" path = false.
Proof.
  intros Hne Hend Hin. cbn [subdirectories In] in Hin.
  destruct Hin as [E | [E | [E | [E | [E | [E | []]]]]]]; injection E as <- <-;
    apply join_name; auto; discriminate.
Qed.

(** ** The file system *)

Lemma mkdir_chain_grows (refused : string -> bool) (chain : list string) (ds : gset string) :
  ds ⊆ snd (mkdir_chain refused chain ds).
Proof.
  revert ds. induction chain as [|d chain IH]; intros ds; cbn [mkdir_chain]; [done|].
  case_bool_decide; [apply IH|].
  destruct (refused d); [done|].
  etrans; [|apply IH]. apply union_subseteq_l.
Qed.

(** When every directory of the chain could be made, the directories
    are those there were and those of the chain. *)
Lemma mkdir_chain_made (refused : string -> bool) (chain : list string) (ds ds' : gset string) :
  mkdir_chain refused chain ds = (true, ds') -> ds' = ds ∪ list_to_set chain.
Proof.
  revert ds. induction chain as [|d chain IH]; intros ds; cbn [mkdir_chain list_to_set].
  - intros [= <-]. now rewrite (right_id_L ∅ (∪)).
  - case_bool_decide as Hd.
    + intros H. rewrite (IH _ H).
      rewrite (assoc_L (∪)), (comm_L (∪) ds {[d]}), (subseteq_union_1_L {[d]} ds); [done|].
      now apply singleton_subseteq_l.
    + destruct (refused d); [discriminate|].
      intros H. rewrite (IH _ H). now rewrite (assoc_L (∪)).
Qed.

(** Directories that exist are passed over, whatever the file system
    would say. *)
Lemma mkdir_chain_present (refused : string -> bool) (chain : list string) (ds : gset string) :
  (forall d, In d chain -> d ∈ ds) -> mkdir_chain refused chain ds = (true, ds).
Proof.
  induction chain as [|d chain IH]; intros H; cbn [mkdir_chain]; [reflexivity|].
  rewrite bool_decide_eq_true_2 by (apply H; now left).
  apply IH. intros d' Hd'. apply H. now right.
Qed.

Lemma mkdir_chain_accepted (refused : string -> bool) (chain : list string) (ds : gset string) :
  (forall d, In d chain -> d ∈ ds \/ refused d = false) ->
  fst (mkdir_chain refused chain ds) = true.
Proof.
  revert ds. induction chain as [|d chain IH]; intros ds H; cbn [mkdir_chain]; [reflexivity|].
  assert (forall ds', ds ⊆ ds' ->
            forall d', In d' chain -> d' ∈ ds' \/ refused d' = false) as Hrest.
  { intros ds' Hsub d' Hd'. destruct (H d' (or_intror Hd')) as [Hin | Hr]; [left | now right].
    now apply Hsub. }
  case_bool_decide as Hd.
  - apply IH, (Hrest ds). done.
  - destruct (H d (or_introl eq_refl)) as [Hin | ->]; [contradiction|].
    apply IH, Hrest. apply union_subseteq_l.
Qed.

Section FileSystem.

Variable env : environment.

(** [os.makedirs] looks at the files, at the directories and at the
    file system: the rest of the world plays no part and is left as it
    is. *)
Lemma makedirs_elsewhere (path : string) (w : world) (lines requested : list string)
    (reads : nat) :
  makedirs env path (World (files w) (dirs w) lines requested reads (fs_calls w))
  = (fst (makedirs env path w),
     World (files w) (dirs (snd (makedirs env path w))) lines requested reads
       (S (fs_calls w))).
Proof.
  unfold makedirs. cbn [files dirs stdout requests clock_reads fs_calls].
  destruct (String.eqb path EmptyString); [reflexivity|].
  now destruct (mkdir_chain _ _ _) as [[|] ds].
Qed.

(** It returns or raises [OSError]; it touches no file, and no
    directory disappears. *)
Lemma makedirs_frame (path : string) (w : world) :
  let result := makedirs env path w in
  (fst result = Ret tt \/ fst result = Raise (OSError path))
  /\ files (snd result) = files w
  /\ dirs w ⊆ dirs (snd result)
  /\ stdout (snd result) = stdout w
  /\ requests (snd result) = requests w
  /\ clock_reads (snd result) = clock_reads w
  /\ fs_calls (snd result) = S (fs_calls w).
Proof.
  unfold makedirs.
  destruct (String.eqb path EmptyString).
  - cbn. repeat split; auto.
  - pose proof (mkdir_chain_grows (mkdir_refused env (files w) (fs_calls w))
                  (Path.chain path) (dirs w)) as Hsub.
    destruct (mkdir_chain _ _ _) as [[|] ds]; cbn in *; repeat split; auto.
Qed.

(** When it returns, the path was not empty and the directories of the
    path exist. *)
Lemma makedirs_made (path : string) (w : world) :
  fst (makedirs env path w) = Ret tt ->
  path <> EmptyString
  /\ makedirs env path w
     = (Ret tt, World (files w) (dirs w ∪ list_to_set (Path.chain path)) (stdout w)
                  (requests w) (clock_reads w) (S (fs_calls w))).
Proof.
  unfold makedirs.
  destruct (String.eqb path EmptyString) eqn:E; [discriminate|].
  destruct (mkdir_chain _ _ _) as [[|] ds] eqn:Hc; [|discriminate].
  intros _. split; [now apply String.eqb_neq|].
  now rewrite (mkdir_chain_made _ _ _ _ Hc).
Qed.

(** A directory that exists with all the directories above it is no
    error: nothing is asked of the file system. *)
Lemma makedirs_present (path : string) (w : world) :
  path <> EmptyString ->
  (forall d, In d (Path.chain path) -> d ∈ dirs w) ->
  makedirs env path w = (Ret tt, fs_call w).
Proof.
  intros Hne Hin. unfold makedirs.
  apply String.eqb_neq in Hne. rewrite Hne.
  now rewrite mkdir_chain_present.
Qed.

(** It returns when every directory of the path that is missing can be
    made: no file has its name and the file system does not refuse. *)
Lemma makedirs_accepted (path : string) (w : world) :
  path <> EmptyString ->
  (forall d, In d (Path.chain path) ->
             d ∈ dirs w
             \/ (files w !! d = None /\ mkdir_error env (fs_calls w) d = None)) ->
  fst (makedirs env path w) = Ret tt.
Proof.
  intros Hne Hin.
  assert (fst (mkdir_chain (mkdir_refused env (files w) (fs_calls w)) (Path.chain path)
                 (dirs w)) = true) as Hc.
  { apply mkdir_chain_accepted. intros d Hd.
    destruct (Hin d Hd) as [H | [Hf Hm]]; [now left | right].
    unfold mkdir_refused. now rewrite Hf, Hm. }
  unfold makedirs. apply String.eqb_neq in Hne. rewrite Hne.
  destruct (mkdir_chain _ _ _) as [[|] ds]; [reflexivity | discriminate Hc].
Qed.

Lemma makedirs_each_frame (paths : list string) (w : world) :
  let result := makedirs_each env paths w in
  files (snd result) = files w
  /\ dirs w ⊆ dirs (snd result)
  /\ stdout (snd result) = stdout w
  /\ requests (snd result) = requests w
  /\ clock_reads (snd result) = clock_reads w.
Proof.
  revert w. induction paths as [|p paths IH]; intros w.
  - cbn. repeat split; auto.
  - cbn [makedirs_each]. unfold bind.
    pose proof (makedirs_frame p w) as (_ & Hf & Hd & Hs & Hr & Hc & _).
    destruct (makedirs env p w) as [[[]|e] w1]; cbn [fst snd] in *.
    + specialize (IH w1). cbv zeta in IH. destruct IH as (Hf' & Hd' & Hs' & Hr' & Hc').
      split; [congruence|]. split; [etrans; [exact Hd | exact Hd']|].
      split; [congruence|]. split; congruence.
    + repeat split; auto.
Qed.

(** Writing a file, whether it succeeds or fails, leaves every other
    file, the directories and the rest of the world as they were. *)
Lemma open_write_frame (path : string) (data : list Byte.byte) (w : world) :
  let result := open_write env path data w in
  (forall other, other <> path -> files (snd result) !! other = files w !! other)
  /\ dirs (snd result) = dirs w
  /\ stdout (snd result) = stdout w
  /\ requests (snd result) = requests w
  /\ clock_reads (snd result) = clock_reads w
  /\ fs_calls (snd result) = S (fs_calls w).
Proof.
  unfold open_write.
  destruct (io_error env (fs_calls w) path) as [[e | e kept]|]; cbn;
    repeat split; auto; intros other Hother; now apply lookup_insert_ne.
Qed.

(** The three ways it ends. *)
Lemma open_write_cases (path : string) (data : list Byte.byte) (w : world) :
  open_write env path data w
  = match io_error env (fs_calls w) path with
    | None => (Ret None, write_file path data w)
    | Some (OpenFailed e) => (Ret (Some e), fs_call w)
    | Some (WriteFailed e kept) => (Ret (Some e), write_file path (firstn kept data) w)
    end.
Proof. reflexivity. Qed.

End FileSystem.

(** ** The ways out of [download_file] *)

Lemma fetched_or_error (env : environment) (url : string) (w : world) :
  (exists e, fetch_error env url w = Some e /\ fetched env url w = None)
  \/ (exists content, fetch_error env url w = None /\ fetched env url w = Some content).
Proof.
  unfold fetch_error, fetched.
  destruct (network env (length (requests w)) url) as [status reason content | e].
  - destruct (raise_for_status url status reason) as [e|]; eauto.
  - eauto.
Qed.

Lemma fetched_response (env : environment) (url : string) (w : world)
    (content : list Byte.byte) :
  fetched env url w = Some content ->
  exists status reason,
    network env (length (requests w)) url = Response status reason content
    /\ raise_for_status url status reason = None.
Proof.
  unfold fetched.
  destruct (network env (length (requests w)) url) as [status reason content' | e];
    [|discriminate].
  destruct (raise_for_status url status reason) eqn:E; [discriminate|].
  intros H. injection H as ->. eauto.
Qed.

Section DownloadFile.

Variable lib : library.
Variable env : environment.
Variables url filename directory : string.
Variable w : world.

Let file_path := Path.join directory (sanitize_filename filename).
Let result := download_file lib env url filename directory w.

(** Every way out of [download_file], by what [urlparse], the network
    and the file system answer. *)
Lemma download_file_cases :
  match is_valid_url lib url with
  | None => result = (Raise (URLValueError url), w)
  | Some false =>
      result = (Ret EmptyString,
                World (files w) (dirs w) (stdout w ++ ["Skipping invalid URL: " +:+ url])
                  (requests w) (clock_reads w) (fs_calls w))
  | Some true =>
      match fetched env url w with
      | None =>
          exists e,
            fetch_error env url w = Some e
            /\ result = (Ret EmptyString,
                         World (files w) (dirs w)
                           (stdout w ++ ["Failed to download file: " +:+ filename;
                                         "Error: " +:+ e])
                           (requests w ++ [url]) (clock_reads w) (fs_calls w))
      | Some content =>
          match fst (makedirs env (Path.dirname file_path) w) with
          | Raise e =>
              result = (Raise e,
                        World (files w) (dirs (snd (makedirs env (Path.dirname file_path) w)))
                          (stdout w) (requests w ++ [url]) (clock_reads w) (S (fs_calls w)))
          | Ret _ =>
              let existing := dirs w ∪ list_to_set (Path.chain (Path.dirname file_path)) in
              match io_error env (S (fs_calls w)) file_path with
              | None =>
                  result = (Ret (abspath lib file_path),
                            World (<[file_path := content]> (files w)) existing (stdout w)
                              (requests w ++ [url]) (clock_reads w) (S (S (fs_calls w))))
              | Some (OpenFailed e) =>
                  result = (Ret EmptyString,
                            World (files w) existing
                              (stdout w ++ ["Failed to save file: " +:+ file_path;
                                            "Error: " +:+ e])
                              (requests w ++ [url]) (clock_reads w) (S (S (fs_calls w))))
              | Some (WriteFailed e kept) =>
                  result = (Ret EmptyString,
                            World (<[file_path := firstn kept content]> (files w)) existing
                              (stdout w ++ ["Failed to save file: " +:+ file_path;
                                            "Error: " +:+ e])
                              (requests w ++ [url]) (clock_reads w) (S (S (fs_calls w))))
              end
          end
      end
  end.
Proof.
  destruct (is_valid_url lib url) as [[|]|] eqn:Hv;
    [|subst result; unfold download_file; now rewrite Hv ..].
  remember result as r eqn:Hr. subst result.
  unfold download_file in Hr. rewrite Hv in Hr. cbn [or_raise] in Hr.
  unfold bind at 1 in Hr. unfold ret at 1 in Hr. cbn [negb] in Hr.
  unfold bind at 1 in Hr. unfold requests_get in Hr.
  unfold fetched, fetch_error.
  destruct (network env (length (requests w)) url) as [status reason content | e].
  2:{ exists e. split; [reflexivity|]. subst r. unfold bind, print, ret.
      cbn [files dirs stdout requests clock_reads fs_calls]. now rewrite <- app_assoc. }
  destruct (raise_for_status url status reason) as [e|].
  { exists e. split; [reflexivity|]. subst r. unfold bind, print, ret.
    cbn [files dirs stdout requests clock_reads fs_calls]. now rewrite <- app_assoc. }
  fold file_path in Hr. unfold bind at 1 in Hr. rewrite makedirs_elsewhere in Hr.
  destruct (makedirs env (Path.dirname file_path) w) as [[[]|e] w1] eqn:Hm;
    cbn [fst snd] in *; [|exact Hr].
  destruct (makedirs_made env (Path.dirname file_path) w) as [_ Hmade];
    [now rewrite Hm|].
  rewrite Hm in Hmade. injection Hmade as ->.
  cbn [dirs] in Hr. unfold bind at 1 in Hr. rewrite open_write_cases in Hr.
  cbn [fs_calls] in Hr.
  destruct (io_error env (S (fs_calls w)) file_path) as [[e | e kept]|];
    subst r; unfold bind, print, ret, write_file, fs_call;
    cbn [files dirs stdout requests clock_reads fs_calls];
    rewrite <- ?app_assoc; reflexivity.
Qed.

(** What [download_file] leaves alone, however it ends: every file but
    the one of the sanitized name in the directory, the clock, the
    directories there were. It issues one GET when the URL is valid and
    none otherwise. *)
Lemma download_file_world :
  (forall path, path <> file_path -> files (snd result) !! path = files w !! path)
  /\ requests (snd result) = requests w ++ (if valid_url lib url then [url] else [])
  /\ clock_reads (snd result) = clock_reads w
  /\ dirs w ⊆ dirs (snd result)
  /\ fs_calls w <= fs_calls (snd result)
  /\ exists lines, stdout (snd result) = stdout w ++ lines.
Proof.
  pose proof download_file_cases as H. unfold valid_url.
  destruct (is_valid_url lib url) as [[|]|].
  - destruct (fetched env url w) as [content|].
    + pose proof (makedirs_frame env (Path.dirname file_path) w) as (_ & _ & Hd & _).
      cbv zeta in Hd.
      destruct (fst (makedirs env (Path.dirname file_path) w)) as [[]|e].
      * cbv zeta in H.
        destruct (io_error env (S (fs_calls w)) file_path) as [[e | e kept]|];
          rewrite H; cbn [fst snd files dirs stdout requests clock_reads fs_calls];
          (split; [intros path Hpath; try reflexivity; now apply lookup_insert_ne|]);
          (split; [reflexivity|]); (split; [reflexivity|]);
          (split; [apply union_subseteq_l|]); (split; [lia|]); eauto.
        exists []. now rewrite app_nil_r.
      * rewrite H. cbn [fst snd files dirs stdout requests clock_reads fs_calls].
        repeat split; auto. exists []. now rewrite app_nil_r.
    + destruct H as (e & _ & H). rewrite H.
      cbn [fst snd files dirs stdout requests clock_reads fs_calls].
      repeat split; auto; eauto.
  - rewrite H. cbn [fst snd files dirs stdout requests clock_reads fs_calls].
    repeat split; auto; [now rewrite app_nil_r | eauto].
  - rewrite H. cbn [fst snd]. repeat split; auto; [now rewrite app_nil_r|].
    exists []. now rewrite app_nil_r.
Qed.

(** It raises in two places only: where [urlparse] raises, and where
    [os.makedirs] does. *)
Lemma download_file_returns :
  is_valid_url lib url <> None ->
  (valid_url lib url = true -> fetched env url w <> None ->
   fst (makedirs env (Path.dirname file_path) w) = Ret tt) ->
  exists r, fst result = Ret r.
Proof.
  intros Hparsed Hmade. pose proof download_file_cases as H. unfold valid_url in Hmade.
  destruct (is_valid_url lib url) as [[|]|]; [| |congruence].
  - destruct (fetched env url w) as [content|].
    + rewrite Hmade in H by congruence. cbv zeta in H.
      destruct (io_error env (S (fs_calls w)) file_path) as [[e | e kept]|];
        rewrite H; eauto.
    + destruct H as (e & _ & H). rewrite H. eauto.
  - rewrite H. eauto.
Qed.

End DownloadFile.

(** ** The download loop *)

Section Loop.

Variable lib : library.
Variable env : environment.
Variable base_url : string.
Variable start_time : Q.
Variable time_limit : Z.

(** [download_file] does not read the clock. *)
Lemma download_file_clock (url filename directory : string) (w : world) :
  clock_reads (snd (download_file lib env url filename directory w)) = clock_reads w.
Proof. apply (download_file_world lib env url filename directory w). Qed.

(** A job is its download followed by a reading of the clock, unless the
    download raises. *)
Lemma attempt_cases (j : job) (w : world) :
  attempt lib env base_url j w
  = match download_file lib env (resolve lib base_url (fst j))
            (Path.basename (resolve lib base_url (fst j))) (snd j) w with
    | (Ret _, w1) => (Ret tt, snd (time_time env w1))
    | (Raise e, w1) => (Raise e, w1)
    end.
Proof.
  unfold attempt, bind.
  now destruct (download_file lib env _ _ (snd j) w) as [[r|e] w1].
Qed.

Lemma attempt_clock (j : job) (w w' : world) :
  attempt lib env base_url j w = (Ret tt, w') -> clock_reads w' = S (clock_reads w).
Proof.
  rewrite attempt_cases.
  pose proof (download_file_clock (resolve lib base_url (fst j))
                (Path.basename (resolve lib base_url (fst j))) (snd j) w) as Hc.
  destruct (download_file lib env _ _ (snd j) w) as [[r|e] w1]; [|discriminate].
  intros [= <-]. cbn. cbn in Hc. now rewrite Hc.
Qed.

Lemma attempt_each_clock (jobs : list job) (w w' : world) :
  attempt_each lib env base_url jobs w = (Ret tt, w') ->
  clock_reads w' = length jobs + clock_reads w.
Proof.
  revert w. induction jobs as [|j jobs IH]; intros w.
  - intros [= <-]. reflexivity.
  - cbn [attempt_each]. unfold bind.
    destruct (attempt lib env base_url j w) as [[[]|e] w1] eqn:Hj; [|discriminate].
    intros H. rewrite (IH _ H), (attempt_clock j w w1 Hj). cbn [length]. lia.
Qed.

Lemma attempt_each_app (jobs more : list job) (w : world) :
  attempt_each lib env base_url (jobs ++ more) w
  = (attempt_each lib env base_url jobs ;; attempt_each lib env base_url more)%py w.
Proof.
  revert w. induction jobs as [|j jobs IH]; intros w; [reflexivity|].
  cbn [app attempt_each]. unfold bind.
  destruct (attempt lib env base_url j w) as [[[]|e] w1]; [|reflexivity].
  rewrite IH. reflexivity.
Qed.

(** One turn of the loop: the job is carried out, the clock is read, and
    only then is the limit looked at. *)
Lemma download_jobs_step (j : job) (rest : list job) (w : world) :
  download_jobs lib env (j :: rest) base_url start_time time_limit w
  = match attempt lib env base_url j w with
    | (Ret _, w') =>
        if Qle_bool (inject_Z time_limit) (clock env (clock_reads w) - start_time)%Q then
          (Ret Returned, snd (print (time_limit_notice time_limit) w'))
        else download_jobs lib env rest base_url start_time time_limit w'
    | (Raise e, w') => (Raise e, w')
    end.
Proof.
  rewrite attempt_cases. destruct j as [content_url subdir].
  cbn [download_jobs fst snd]. unfold bind at 1.
  pose proof (download_file_clock (resolve lib base_url content_url)
                (Path.basename (resolve lib base_url content_url)) subdir w) as Hc.
  destruct (download_file lib env _ _ subdir w) as [[r|e] w1]; [|reflexivity].
  cbn [fst snd] in *. rewrite <- Hc.
  unfold bind at 1. unfold time_time at 1.
  destruct (Qle_bool _ _); reflexivity.
Qed.

(** The nested loops are the loop over the schedule. *)
Lemma download_elements_jobs (elements : list node) (attribute subdir : string) (w : world) :
  download_elements lib env elements attribute subdir base_url start_time time_limit w
  = download_jobs lib env (jobs_in elements attribute subdir) base_url start_time time_limit w.
Proof.
  revert w. induction elements as [|element elements IH]; intros w; [reflexivity|].
  cbn [download_elements jobs_in flat_map].
  destruct (element_get element attribute) as [content_url|]; [|apply IH].
  cbn [app download_jobs]. fold (resolve lib base_url content_url).
  fold (jobs_in elements attribute subdir).
  unfold bind. destruct (download_file _ _ _ _ _ w) as [[r|e] w1]; [|reflexivity].
  destruct (time_time env w1) as [[now|e] w2]; [|reflexivity].
  destruct (Qle_bool _ _); [reflexivity | apply IH].
Qed.

Lemma download_jobs_app (jobs jobs' : list job) (w : world) :
  download_jobs lib env (jobs ++ jobs') base_url start_time time_limit w
  = match download_jobs lib env jobs base_url start_time time_limit w with
    | (Ret Next, w') => download_jobs lib env jobs' base_url start_time time_limit w'
    | stopped => stopped
    end.
Proof.
  revert w. induction jobs as [|[content_url subdir] jobs IH]; intros w; [reflexivity|].
  cbn [app download_jobs]. unfold bind.
  destruct (download_file _ _ _ _ _ w) as [[r|e] w1]; [|reflexivity].
  destruct (time_time env w1) as [[now|e] w2]; [|reflexivity].
  destruct (Qle_bool _ _); [reflexivity | apply IH].
Qed.

Lemma download_categories_jobs (rows : list (string * string * string)) (page : soup)
    (w : world) :
  download_categories lib env rows page base_url start_time time_limit w
  = download_jobs lib env (schedule rows page) base_url start_time time_limit w.
Proof.
  revert w. induction rows as [|[[tag attribute] subdir] rows IH]; intros w; [reflexivity|].
  cbn [download_categories schedule flat_map].
  fold (schedule rows page).
  rewrite download_jobs_app. unfold bind.
  rewrite download_elements_jobs.
  destruct (download_jobs lib env (jobs_in _ _ _) _ _ _ w) as [[[|]|e] w1];
    [apply IH | reflexivity | reflexivity].
Qed.

(** The loop carries out the jobs that the limit lets through, one
    after the other, and ends as the last check tells; the exception of
    a job ends it at once. *)
Lemma download_jobs_carried (jobs : list job) (w : world) :
  download_jobs lib env jobs base_url start_time time_limit w
  = (attempt_each lib env base_url
       (carried_out env start_time time_limit (clock_reads w) jobs) ;;
     if cut_short env start_time time_limit (clock_reads w) jobs
     then print (time_limit_notice time_limit) ;; ret Returned
     else ret Next)%py w.
Proof.
  revert w. induction jobs as [|j jobs IH]; intros w; [reflexivity|].
  rewrite download_jobs_step. cbn [carried_out cut_short attempt_each].
  unfold bind at 1. unfold bind at 1.
  destruct (attempt lib env base_url j w) as [[[]|e] w1] eqn:Hj; [|reflexivity].
  destruct (Qle_bool _ _); [reflexivity|].
  rewrite IH, (attempt_clock j w w1 Hj). reflexivity.
Qed.

(** Whether the check made after the [i]-th job of a loop started in
    [w] finds the limit reached. *)
Let reached (w : world) (i : nat) : bool :=
  Qle_bool (inject_Z time_limit) (clock env (clock_reads w + i) - start_time)%Q.

Lemma carried_out_all (jobs : list job) (reads : nat) :
  (forall i, i < length jobs ->
     Qle_bool (inject_Z time_limit) (clock env (reads + i) - start_time)%Q = false) ->
  carried_out env start_time time_limit reads jobs = jobs
  /\ cut_short env start_time time_limit reads jobs = false.
Proof.
  revert reads. induction jobs as [|j jobs IH]; intros reads H; [now split|].
  cbn [carried_out cut_short].
  pose proof (H 0 ltac:(cbn; lia)) as H0. rewrite Nat.add_0_r in H0. rewrite H0.
  destruct (IH (S reads)) as [-> ->]; [|now split].
  intros i Hi. replace (S reads + i) with (reads + S i) by lia. apply H. cbn. lia.
Qed.

Lemma carried_out_cut (done : list job) (j : job) (rest : list job) (reads : nat) :
  (forall i, i < length done ->
     Qle_bool (inject_Z time_limit) (clock env (reads + i) - start_time)%Q = false) ->
  Qle_bool (inject_Z time_limit) (clock env (reads + length done) - start_time)%Q = true ->
  carried_out env start_time time_limit reads (done ++ j :: rest) = done ++ [j]
  /\ cut_short env start_time time_limit reads (done ++ j :: rest) = true.
Proof.
  revert reads. induction done as [|d done IH]; intros reads H Hj.
  - cbn [app carried_out cut_short length] in *. rewrite Nat.add_0_r in Hj.
    now rewrite Hj.
  - cbn [app carried_out cut_short].
    pose proof (H 0 ltac:(cbn; lia)) as H0. rewrite Nat.add_0_r in H0. rewrite H0.
    destruct (IH (S reads)) as [-> ->]; [| |now split].
    + intros i Hi. replace (S reads + i) with (reads + S i) by lia. apply H. cbn. lia.
    + cbn [length] in Hj. now replace (S reads + length done) with (reads + S (length done)) by lia.
Qed.

Lemma download_jobs_all (jobs : list job) (w : world) :
  (forall i, i < length jobs -> reached w i = false) ->
  download_jobs lib env jobs base_url start_time time_limit w
  = (attempt_each lib env base_url jobs ;; ret Next)%py w.
Proof.
  intros H. rewrite download_jobs_carried.
  now destruct (carried_out_all jobs (clock_reads w) H) as [-> ->].
Qed.

Lemma download_jobs_cut (done : list job) (j : job) (rest : list job) (w : world) :
  (forall i, i < length done -> reached w i = false) ->
  reached w (length done) = true ->
  download_jobs lib env (done ++ j :: rest) base_url start_time time_limit w
  = (attempt_each lib env base_url (done ++ [j]) ;;
     print (time_limit_notice time_limit) ;; ret Returned)%py w.
Proof.
  intros Hdone Hj. rewrite download_jobs_carried.
  now destruct (carried_out_cut done j rest (clock_reads w) Hdone Hj) as [-> ->].
Qed.

End Loop.

(** C2, as amended. The time limit is looked at after each job, not
    before: the loop carries out the job, reads the clock and only then
    compares the time elapsed with the limit. When the check made after
    the job of index [k] is the first to find the limit reached, the loop
    is: the jobs up to and including that one are carried out, none of
    the following is, the notice is printed and the function returns.
    When no check finds the limit reached, every job is carried out. In
    particular, with a limit of 0 and a clock that never reads less than
    the start time, exactly one job is carried out whenever the page has
    any. (A job that raises, because [urlparse] rejects its URL or
    [os.makedirs] fails, ends the loop with its exception, as it ends the
    jobs carried out one after the other.) *)
Theorem time_limit_checked_after_each_job (lib : library) (env : environment)
    (rows : list (string * string * string)) (page : soup) (base_url : string)
    (start_time : Q) (time_limit : Z) (w : world) :
  let jobs := schedule rows page in
  let reached i :=
    Qle_bool (inject_Z time_limit) (clock env (clock_reads w + i) - start_time)%Q in
  let run := download_categories lib env rows page base_url start_time time_limit w in
  (forall k, k < length jobs ->
             (forall i, i < k -> reached i = false) -> reached k = true ->
             run = (attempt_each lib env base_url (firstn (S k) jobs) ;;
                    print (time_limit_notice time_limit) ;;
                    ret Returned)%py w)
  /\ ((forall i, i < length jobs -> reached i = false) ->
      run = (attempt_each lib env base_url jobs ;; ret Next)%py w)
  /\ (time_limit = 0%Z -> (forall n, start_time <= clock env n)%Q -> jobs <> [] ->
      run = (attempt_each lib env base_url (firstn 1 jobs) ;;
             print (time_limit_notice 0) ;;
             ret Returned)%py w).
Proof.
  intros jobs reached run.
  assert (forall k, k < length jobs ->
             (forall i, i < k -> reached i = false) -> reached k = true ->
             run = (attempt_each lib env base_url (firstn (S k) jobs) ;;
                    print (time_limit_notice time_limit) ;;
                    ret Returned)%py w) as Hcut.
  { intros k Hk Hbefore Hat. subst run. rewrite download_categories_jobs.
    fold jobs. destruct (lookup_lt_is_Some_2 jobs k Hk) as [j Hj].
    rewrite <- (take_drop_middle jobs k j Hj) at 1.
    rewrite (take_S_r jobs k j Hj).
    apply download_jobs_cut.
    - intros i Hi. apply Hbefore. rewrite length_take in Hi. lia.
    - rewrite length_take. replace (k `min` length jobs) with k by lia. exact Hat. }
  split; [exact Hcut|]. split.
  - intros Hall. subst run. rewrite download_categories_jobs.
    now apply download_jobs_all.
  - intros -> Hclock Hjobs. apply (Hcut 0).
    + destruct jobs; [congruence | cbn; lia].
    + intros i Hi. lia.
    + subst reached. cbv beta. apply Qle_bool_iff.
      apply (proj1 (Qle_minus_iff _ _)), Hclock.
Qed.

Lemma time_limit_checked_after_each_job_witness :
  let lib := Demo.lib [Examples.gallery_page] in
  let env := Demo.env Examples.gallery_assets 0 in
  let run := download_categories lib env (download_rows "site") Examples.gallery_page
               "http://example.test" 0 0 empty_world in
  (0 = 0)%Z
  /\ (forall n, 0 <= clock env n)%Q
  /\ schedule (download_rows "site") Examples.gallery_page <> []
  /\ run = (attempt_each lib env "http://example.test"
              (firstn 1 (schedule (download_rows "site") Examples.gallery_page)) ;;
            print (time_limit_notice 0) ;;
            ret Returned)%py empty_world
  /\ fst run = Ret Returned
  /\ requests (snd run) = ["http://example.test/i0.png"]
  /\ files (snd run) = {[ "site/images/i0.png" := Examples.bytes123 ]}.
Proof.
  intros lib env run.
  assert (forall n, 0 <= clock env n)%Q as Hclock.
  { intros n. cbn. rewrite Qmult_0_l. apply Qle_refl. }
  assert (schedule (download_rows "site") Examples.gallery_page <> []) as Hjobs
    by (vm_compute; discriminate).
  pose proof (proj2 (proj2 (time_limit_checked_after_each_job lib env (download_rows "site")
                              Examples.gallery_page "http://example.test" 0 0 empty_world))
                eq_refl Hclock Hjobs) as Hrun.
  split; [reflexivity|]. split; [exact Hclock|]. split; [exact Hjobs|].
  split; [exact Hrun|].
  subst run. rewrite Hrun. vm_compute. repeat split; reflexivity.
Defined.

(** C2, as stated, fails on a page with ten images and a limit of 0: the
    loop of the script is not the loop that looks at the limit first: it
    requests the first image, where that loop requests nothing. *)
Lemma limit_zero_still_downloads :
  let lib := Demo.lib [Examples.gallery_page] in
  let env := Demo.env Examples.gallery_assets 0 in
  let jobs := schedule (download_rows "site") Examples.gallery_page in
  requests (snd (check_first_jobs lib env jobs "http://example.test" 0 0 empty_world)) = []
  /\ requests (snd (download_categories lib env (download_rows "site") Examples.gallery_page
                     "http://example.test" 0 0 empty_world))
     = ["http://example.test/i0.png"]
  /\ download_categories lib env (download_rows "site") Examples.gallery_page
       "http://example.test" 0 0 empty_world
     <> check_first_jobs lib env jobs "http://example.test" 0 0 empty_world.
Proof.
  intros lib env jobs.
  assert (requests (snd (check_first_jobs lib env jobs "http://example.test" 0 0 empty_world))
          = []) as Hspec by (vm_compute; reflexivity).
  assert (requests (snd (download_categories lib env (download_rows "site")
                           Examples.gallery_page "http://example.test" 0 0 empty_world))
          = ["http://example.test/i0.png"]) as Hcode by (vm_compute; reflexivity).
  split; [exact Hspec|]. split; [exact Hcode|].
  intros E. rewrite E, Hspec in Hcode. discriminate Hcode.
Qed.

(** ** The whole run *)

Lemma response_fetched (env : environment) (url : string) (w : world) (status : Z)
    (reason : string) (content : list Byte.byte) :
  network env (length (requests w)) url = Response status reason content ->
  raise_for_status url status reason = None ->
  fetched env url w = Some content.
Proof. intros Hnet Hstatus. unfold fetched. now rewrite Hnet, Hstatus. Qed.

Section Provisioning.

Variable env : environment.

Lemma makedirs_each_made (paths : list string) (w w' : world) :
  makedirs_each env paths w = (Ret tt, w') ->
  files w' = files w /\ stdout w' = stdout w /\ requests w' = requests w
  /\ clock_reads w' = clock_reads w
  /\ fs_calls w' = length paths + fs_calls w
  /\ dirs w ⊆ dirs w'
  /\ forall p, In p paths ->
               p <> EmptyString /\ forall d, In d (Path.chain p) -> d ∈ dirs w'.
Proof.
  revert w. induction paths as [|p paths IH]; intros w.
  - intros [= <-]. repeat split; auto; contradiction.
  - cbn [makedirs_each]. unfold bind.
    destruct (makedirs env p w) as [[[]|e] w1] eqn:Hm; [|discriminate].
    destruct (makedirs_made env p w) as [Hne Hmade]; [now rewrite Hm|].
    rewrite Hm in Hmade. injection Hmade as ->.
    intros H. destruct (IH _ H) as (Hf & Hs & Hr & Hc & Hn & Hd & Hin).
    cbn [files dirs stdout requests clock_reads fs_calls] in *.
    split; [exact Hf|]. split; [exact Hs|]. split; [exact Hr|]. split; [exact Hc|].
    split; [cbn [length]; lia|].
    split; [etrans; [apply union_subseteq_l | exact Hd]|].
    intros q [<- | Hq]; [|now apply Hin].
    split; [exact Hne|]. intros d Hd'.
    apply Hd, elem_of_union_r, elem_of_list_to_set, list_elem_of_In, Hd'.
Qed.

Lemma makedirs_each_accepted (paths : list string) (w : world) :
  (forall n d, mkdir_error env n d = None) ->
  (forall p d, In p paths -> In d (Path.chain p) -> files w !! d = None) ->
  (forall p, In p paths -> p <> EmptyString) ->
  fst (makedirs_each env paths w) = Ret tt.
Proof.
  intros Hmk. revert w. induction paths as [|p paths IH]; intros w Hfiles Hne; [reflexivity|].
  cbn [makedirs_each]. unfold bind.
  pose proof (makedirs_accepted env p w (Hne p (or_introl eq_refl))) as Hp.
  pose proof (makedirs_frame env p w) as (_ & Hf & _).
  destruct (makedirs env p w) as [[[]|e] w1]; cbn [fst snd] in *.
  - apply IH.
    + intros q d Hq Hd. rewrite Hf. apply (Hfiles q d); [now right | exact Hd].
    + intros q Hq. apply Hne. now right.
  - discriminate Hp. intros d Hd. right. split; [|apply Hmk].
    apply (Hfiles p d); [now left | exact Hd].
Qed.

(** [create_directory] reads the clock for the time stamp and makes the
    directory; it ends as [os.makedirs] ends. *)
Lemma create_directory_cases (title : string) (w : world) :
  create_directory env title w
  = let directory_name := directory_of env (clock_reads w) title in
    match makedirs env directory_name
            (World (files w) (dirs w) (stdout w) (requests w) (S (clock_reads w))
               (fs_calls w)) with
    | (Ret _, w') => (Ret directory_name, w')
    | (Raise e, w') => (Raise e, w')
    end.
Proof.
  unfold create_directory, datetime_now_strftime, bind, time_time, ret.
  fold (directory_of env (clock_reads w) title). cbv zeta.
  now destruct (makedirs env _ _) as [[[]|e] w'].
Qed.

(** *** The world when the downloads start *)

Section RootPersisted.

Variables url title : string.
Variable content : list Byte.byte.
Variables w w1 : world.

Let directory_name := directory_of env (S (clock_reads w)) title.
Let index := Path.join directory_name "index.html".

(** The steps up to the download loop, one by one. *)
Lemma root_persisted_steps :
  root_persisted env url title content w
  = match makedirs env directory_name
            (World (files w) (dirs w) (stdout w) (requests w ++ [url])
               (S (S (clock_reads w))) (fs_calls w)) with
    | (Ret _, w0) =>
        match makedirs_each env (List.map snd (subdirectories directory_name)) w0 with
        | (Ret _, w0') =>
            match io_error env (fs_calls w0') index with
            | None => (Ret tt, write_file index content w0')
            | Some (OpenFailed _) => (Raise (IOError index), fs_call w0')
            | Some (WriteFailed _ kept) =>
                (Raise (IOError index), write_file index (firstn kept content) w0')
            end
        | (Raise e, w0') => (Raise e, w0')
        end
    | (Raise e, w0) => (Raise e, w0)
    end.
Proof.
  unfold root_persisted, started. unfold bind at 1. rewrite create_directory_cases.
  cbn [files dirs stdout requests clock_reads fs_calls]. cbv zeta.
  fold directory_name.
  destruct (makedirs env directory_name _) as [[[]|e] w0]; [|reflexivity].
  unfold bind at 1.
  destruct (makedirs_each env _ w0) as [[[]|e] w0']; [|reflexivity].
  fold index. unfold open_write_or_raise, bind. rewrite open_write_cases.
  now destruct (io_error env (fs_calls w0') index) as [[e | e kept]|].
Qed.

Hypothesis Hroot : root_persisted env url title content w = (Ret tt, w1).

Lemma root_persisted_returned :
  files w1 = <[index := content]> (files w)
  /\ stdout w1 = stdout w
  /\ requests w1 = requests w ++ [url]
  /\ clock_reads w1 = S (S (clock_reads w))
  /\ fs_calls w1 = 8 + fs_calls w
  /\ io_error env (7 + fs_calls w) index = None
  /\ dirs w ⊆ dirs w1
  /\ directory_name ∈ dirs w1
  /\ forall name path, In (name, path) (subdirectories directory_name) ->
       path <> EmptyString /\ forall d, In d (Path.chain path) -> d ∈ dirs w1.
Proof.
  pose proof Hroot as H. rewrite root_persisted_steps in H.
  destruct (makedirs env directory_name _) as [[[]|e] w0] eqn:Hm; [|discriminate].
  destruct (makedirs_made env directory_name _ ltac:(now rewrite Hm)) as [Hne Hmade].
  rewrite Hm in Hmade. injection Hmade as ->.
  destruct (makedirs_each env _ _) as [[[]|e] w0'] eqn:He; [|discriminate].
  destruct (makedirs_each_made _ _ _ He) as (Hf & Hs & Hr & Hc & Hn & Hd & Hin).
  cbn [files dirs stdout requests clock_reads fs_calls length List.map subdirectories] in *.
  destruct (io_error env (fs_calls w0') index) as [[e | e kept]|] eqn:Hio;
    [discriminate | discriminate |].
  injection H as <-. unfold write_file.
  cbn [files dirs stdout requests clock_reads fs_calls].
  rewrite Hf, Hs, Hr, Hc, Hn.
  split; [reflexivity|]. split; [reflexivity|]. split; [reflexivity|].
  split; [reflexivity|]. split; [reflexivity|].
  split; [now rewrite Hn in Hio|].
  split; [etrans; [apply union_subseteq_l | exact Hd]|].
  split.
  - apply Hd, elem_of_union_r, elem_of_list_to_set, list_elem_of_In, chain_whole, Hne.
  - intros name path Hpath. apply Hin.
    change (In path (List.map snd (subdirectories directory_name))).
    apply in_map_iff. now exists (name, path).
Qed.

Lemma root_persisted_files : files w1 = <[index := content]> (files w).
Proof. apply root_persisted_returned. Qed.

Lemma root_persisted_stdout : stdout w1 = stdout w.
Proof. apply root_persisted_returned. Qed.

Lemma root_persisted_requests : requests w1 = requests w ++ [url].
Proof. apply root_persisted_returned. Qed.

Lemma root_persisted_clock : clock_reads w1 = S (S (clock_reads w)).
Proof. apply root_persisted_returned. Qed.

Lemma root_persisted_directory : directory_name ∈ dirs w1.
Proof. apply root_persisted_returned. Qed.

Lemma root_persisted_subdirectory (name path : string) :
  In (name, path) (subdirectories directory_name) ->
  path <> EmptyString /\ forall d, In d (Path.chain path) -> d ∈ dirs w1.
Proof. apply root_persisted_returned. Qed.

End RootPersisted.

(** The run gets to the download loop when the file system makes the
    directories and writes the page: nothing of the tree to be made is a
    file already, no [mkdir] is refused, and [index.html] is written. *)
Lemma root_persisted_accepted (url title : string) (content : list Byte.byte) (w : world) :
  let directory_name := directory_of env (S (clock_reads w)) title in
  (forall n d, mkdir_error env n d = None) ->
  (forall d, files w !! d = None) ->
  io_error env (7 + fs_calls w) (Path.join directory_name "index.html") = None ->
  exists w1, root_persisted env url title content w = (Ret tt, w1).
Proof.
  intros directory_name Hmk Hfiles Hio.
  destruct (directory_of_shape env (S (clock_reads w)) title) as [Hne Hend].
  fold directory_name in Hne, Hend.
  rewrite root_persisted_steps. fold directory_name.
  match goal with |- context [makedirs env directory_name ?w0] =>
    pose proof (makedirs_accepted env directory_name w0 Hne) as Hm;
    pose proof (makedirs_frame env directory_name w0) as (_ & Hf & _ & _ & _ & _ & Hn);
    destruct (makedirs env directory_name w0) as [[[]|e] w0'] end;
    cbn [fst snd files dirs fs_calls] in *.
  2:{ discriminate Hm. intros d Hd. right. split; [apply Hfiles | apply Hmk]. }
  pose proof (makedirs_each_accepted (List.map snd (subdirectories directory_name)) w0' Hmk)
    as He.
  destruct (makedirs_each env _ w0') as [[[]|e] w0''] eqn:Heach; cbn [fst] in He.
  2:{ discriminate He.
      - intros p d _ _. rewrite Hf. apply Hfiles.
      - intros p Hp. apply in_map_iff in Hp. destruct Hp as ([name q] & <- & Hq).
        apply (subdirectory_shape directory_name name q Hne Hend Hq). }
  destruct (makedirs_each_made _ _ _ Heach) as (_ & _ & _ & _ & Hn' & _).
  cbn [length List.map subdirectories] in Hn'. rewrite Hn', Hn.
  change (6 + S (fs_calls w)) with (7 + fs_calls w). rewrite Hio. eauto.
Qed.

End Provisioning.

(** A run whose page fetch succeeds and whose page has a title goes on
    to make its directories and to save the raw page; when that is done
    it comes to the download loop, and ends as that loop ends. *)
Lemma parse_website_run (lib : library) (env : environment) (url : string)
    (time_limit : Z) (w : world) (parsed_url : ParseResult)
    (content : list Byte.byte) (title : node) (text : string) :
  urlparse lib url = Some parsed_url ->
  fetched env url w = Some content ->
  soup_title (BeautifulSoup lib content) = Some title ->
  node_string title = Some text ->
  parse_website lib env url time_limit w
  = let directory_name := directory_of env (S (clock_reads w)) (Str.strip text) in
    let base_url := scheme parsed_url +:+ "://" +:+ netloc parsed_url in
    match root_persisted env url (Str.strip text) content w with
    | (Ret _, w1) =>
        match download_categories lib env (download_rows directory_name)
                (BeautifulSoup lib content) base_url (clock env (clock_reads w)) time_limit
                w1 with
        | (Ret Next, w') =>
            (modify_html_content lib env content directory_name base_url ;;
             print "Website parsing and download completed.")%py w'
        | (Ret Returned, w') => (Ret tt, w')
        | (Raise e, w') => (Raise e, w')
        end
    | (Raise e, w1) => (Raise e, w1)
    end.
Proof.
  intros Hparsed Hfetched Htitle Hstring.
  destruct (fetched_response env url w content Hfetched) as (status & reason & Hnet & Hstatus).
  unfold parse_website. unfold bind at 1. unfold time_time at 1.
  unfold bind at 1. rewrite Hparsed. unfold or_raise, ret at 1.
  unfold bind at 1. unfold requests_get at 1. cbn [requests].
  rewrite Hnet, Hstatus.
  unfold bind at 1. unfold title_of. rewrite Htitle, Hstring. unfold ret at 1.
  cbn [files dirs stdout requests clock_reads fs_calls].
  unfold root_persisted, started. cbv zeta.
  unfold bind at 1. unfold bind at 5.
  rewrite create_directory_cases. cbn [clock_reads]. cbv zeta.
  destruct (makedirs env _ _) as [[[]|e] w0]; [|reflexivity].
  unfold bind at 1. unfold bind at 4.
  destruct (makedirs_each env _ w0) as [[[]|e] w0']; [|reflexivity].
  unfold bind at 1.
  destruct (open_write_or_raise env _ content w0') as [[[]|e] w1]; [|reflexivity].
  unfold bind at 1.
  destruct (download_categories _ _ _ _ _ _ _ _) as [[[|]|e] w2]; reflexivity.
Qed.

(** C4, as amended. The page of the scenario, served at
    [http://example.test/] with the image [a.png] served beside it, is
    mirrored as follows when the time limit is not reached and the file
    system makes the directories and writes [index.html]: the directory
    [<timestamp>_Demo_Page_Title] and its [images] subdirectory are made;
    the reference [a.png], which is relative and does not start with
    "..", is not resolved against the page: it is skipped as an invalid
    URL, so no request is made for the image and no file is written
    below [images/]; [index.html] is the only file, and it holds the page
    with the [src] of the image rewritten to [images/a.png]. The time
    stamp is the second reading of the clock; the first is the start
    time and the third is the one compared with the limit. *)
Theorem demo_page_end_to_end (lib : library) (env : environment) (time_limit : Z)
    (reason reason' : string) (parsed_url parsed_reference : ParseResult) :
  let url := "http://example.test/" in
  let content := Demo.markup Examples.demo_page in
  let directory_name := strftime env (clock env 1) +:+ "_Demo_Page_Title" in
  let index := directory_name +:+ "/index.html" in
  let run := parse_website lib env url time_limit empty_world in
  network env 0 url = Response 200 reason content ->
  (forall n, network env n "http://example.test/a.png"
             = Response 200 reason' Examples.bytes123) ->
  BeautifulSoup lib content = Examples.demo_page ->
  urlparse lib url = Some parsed_url ->
  urlparse lib "a.png" = Some parsed_reference ->
  scheme parsed_reference = EmptyString ->
  (forall n d, mkdir_error env n d = None) ->
  (forall n, io_error env n index = None) ->
  Qle_bool (inject_Z time_limit) (clock env 2 - clock env 0)%Q = false ->
  fst run = Ret tt
  /\ directory_name ∈ dirs (snd run)
  /\ directory_name +:+ "/images" ∈ dirs (snd run)
  /\ files (snd run)
     = {[ index := prettify lib (Demo.document "Demo Page Title"
                                   [Tag "img" [("src", "images/a.png")] []]) ]}
  /\ files (snd run) !! (directory_name +:+ "/images/a.png") = None
  /\ requests (snd run) = [url]
  /\ stdout (snd run) = ["Skipping invalid URL: a.png";
                         "Website parsing and download completed."].
Proof.
  intros url content directory_name index run Hroot Hasset Hparse Hparsed Hreference
    Hscheme Hmkdir Hio Hclock.
  assert (directory_of env 1 (Str.strip "Demo Page Title") = directory_name) as Hdir
    by reflexivity.
  assert (forall x, Str.startswith "/" x = false ->
                    Path.join directory_name x = directory_name +:+ "/" +:+ x) as Hjoin.
  { intros x Hx. apply (join_below (strftime env (clock env 1)) "_" "Demo_Page_Title" x); auto. }
  assert (fetched env url empty_world = Some content) as Hfetched
    by (apply (response_fetched env url empty_world 200 reason content Hroot); reflexivity).
  destruct (root_persisted_accepted env url (Str.strip "Demo Page Title") content empty_world)
    as [w1 Hw1]; [exact Hmkdir | intros d; apply lookup_empty | |].
  { cbn [clock_reads empty_world]. rewrite Hdir, (Hjoin "index.html" eq_refl). apply Hio. }
  pose proof (root_persisted_returned env url (Str.strip "Demo Page Title") content
                empty_world w1 Hw1) as (Hfiles & Hstdout & Hrequests & Hreads & _ & _ & _
                                        & Hdirectory & Hsub).
  cbn [clock_reads empty_world files stdout requests] in Hfiles, Hstdout, Hrequests, Hreads,
    Hdirectory, Hsub.
  rewrite Hdir in Hfiles, Hdirectory, Hsub. rewrite (Hjoin "index.html" eq_refl) in Hfiles.
  pose proof (parse_website_run lib env url time_limit empty_world parsed_url content
                (Tag "title" [] [NavigableString "Demo Page Title"]) "Demo Page Title"
                Hparsed Hfetched) as Hrun.
  rewrite Hparse in Hrun. specialize (Hrun eq_refl eq_refl).
  cbv zeta in Hrun. cbn [clock_reads empty_world] in Hrun.
  rewrite Hw1, Hdir in Hrun.
  rewrite download_categories_jobs in Hrun.
  change (schedule (download_rows directory_name) Examples.demo_page)
    with [("a.png", Path.join directory_name "images")] in Hrun.
  rewrite download_jobs_all in Hrun.
  2:{ intros i Hi. cbn [length] in Hi. replace i with 0 by lia.
      rewrite Hreads. exact Hclock. }
  assert (forall base_url,
            attempt_each lib env base_url [("a.png", Path.join directory_name "images")] w1
            = (Ret tt,
               snd (time_time env
                      (World (files w1) (dirs w1)
                         (stdout w1 ++ ["Skipping invalid URL: a.png"]) (requests w1)
                         (clock_reads w1) (fs_calls w1))))) as Hjob.
  { intros base_url. cbn [attempt_each]. unfold bind at 1. rewrite attempt_cases.
    cbn [fst snd]. change (resolve lib base_url "a.png") with "a.png".
    now rewrite (download_file_skips lib env "a.png" (Path.basename "a.png")
                   (Path.join directory_name "images") _
                   (is_valid_url_false lib "a.png" parsed_reference Hreference
                      (or_introl Hscheme))). }
  unfold bind at 1 in Hrun. rewrite Hjob in Hrun.
  unfold bind, ret in Hrun. rewrite modify_html_content_writes in Hrun.
  2:{ rewrite (Hjoin "index.html" eq_refl). apply Hio. }
  rewrite Hparse in Hrun.
  rewrite (Hjoin "index.html" eq_refl) in Hrun.
  subst run. rewrite Hrun. clear Hrun.
  unfold print, write_file, time_time.
  cbn [fst snd files dirs stdout requests clock_reads fs_calls].
  rewrite Hfiles, Hstdout, Hrequests.
  split; [reflexivity|]. split; [exact Hdirectory|].
  split.
  { destruct (Hsub "images" (Path.join directory_name "images") (or_introl eq_refl))
      as [Hne Hchain].
    pose proof (Hjoin "images" eq_refl) as Hj.
    change (directory_name +:+ "/" +:+ "images") with (directory_name +:+ "/images") in Hj.
    rewrite <- Hj. apply Hchain, chain_whole, Hne. }
  split.
  { now rewrite insert_insert_eq, insert_empty. }
  split.
  { rewrite insert_insert_eq, insert_empty.
    apply lookup_singleton_ne. intros E.
    apply append_inv_head in E. discriminate E. }
  split; reflexivity.
Qed.

Lemma demo_page_end_to_end_witness :
  let lib := Demo.lib [Examples.demo_page] in
  let env := Demo.env [(Examples.root, Demo.markup Examples.demo_page);
                       ("http://example.test/a.png", Examples.bytes123)] 0 in
  let run := parse_website lib env "http://example.test/" 4 empty_world in
  network env 0 "http://example.test/" = Response 200 "OK" (Demo.markup Examples.demo_page)
  /\ (forall n, network env n "http://example.test/a.png"
                = Response 200 "OK" Examples.bytes123)
  /\ BeautifulSoup lib (Demo.markup Examples.demo_page) = Examples.demo_page
  /\ urlparse lib "http://example.test/"
     = Some {| scheme := "http"; netloc := "example.test" |}
  /\ urlparse lib "a.png" = Some {| scheme := EmptyString; netloc := EmptyString |}
  /\ (forall n d, mkdir_error env n d = None)
  /\ (forall n, io_error env n "20240101_120000_Demo_Page_Title/index.html" = None)
  /\ Qle_bool (inject_Z 4) (clock env 2 - clock env 0)%Q = false
  /\ files (snd run) !! "20240101_120000_Demo_Page_Title/images/a.png" = None
  /\ requests (snd run) = ["http://example.test/"].
Proof.
  intros lib env run.
  assert (network env 0 "http://example.test/"
          = Response 200 "OK" (Demo.markup Examples.demo_page)) as H1 by reflexivity.
  assert (forall n, network env n "http://example.test/a.png"
                    = Response 200 "OK" Examples.bytes123) as H2 by reflexivity.
  assert (BeautifulSoup lib (Demo.markup Examples.demo_page) = Examples.demo_page) as H3
    by reflexivity.
  assert (urlparse lib "http://example.test/"
          = Some {| scheme := "http"; netloc := "example.test" |}) as H4 by reflexivity.
  assert (urlparse lib "a.png" = Some {| scheme := EmptyString; netloc := EmptyString |})
    as H5 by reflexivity.
  assert (forall n d, mkdir_error env n d = None) as H6 by reflexivity.
  assert (forall n, io_error env n "20240101_120000_Demo_Page_Title/index.html" = None) as H7
    by reflexivity.
  assert (Qle_bool (inject_Z 4) (clock env 2 - clock env 0)%Q = false) as H8
    by reflexivity.
  pose proof (demo_page_end_to_end lib env 4 "OK" "OK" _ _ H1 H2 H3 H4 H5 eq_refl H6 H7 H8)
    as (_ & _ & _ & _ & Hfile & Hreq & _).
  repeat split; assumption.
Defined.

(** C4, as stated, fails on the scenario itself: nothing is saved as
    [images/a.png], and the image is never requested. *)
Lemma relative_image_is_skipped :
  let w := snd (Demo.run Examples.root Examples.demo_page
                  [("http://example.test/a.png", Examples.bytes123)] 0 4) in
  files w !! "20240101_120000_Demo_Page_Title/images/a.png" <> Some Examples.bytes123
  /\ ~ In "http://example.test/a.png" (requests w)
  /\ stdout w = ["Skipping invalid URL: a.png"; "Website parsing and download completed."].
Proof.
  vm_compute. split; [discriminate|]. split; [|reflexivity].
  intros [H|[]]. discriminate H.
Qed.

(** C7, as amended. The rewritten page is written to the path at which
    the raw page was saved, [index.html] in the directory of the run, and
    replaces it there: the raw bytes are not kept as a file of their own.
    The rewrite step changes no other file and no directory: in a run
    that completes, the files are those the download loop left, with
    [index.html] holding the rewritten page. (The run is one that gets
    through: [urlparse] accepts the URL of the page, the directories are
    made, both writes of [index.html] succeed and the loop ends without
    an exception and before the limit.) *)
Theorem rewritten_page_replaces_raw_page (lib : library) (env : environment)
    (url : string) (time_limit : Z) (w w1 w2 : world) (status : Z) (reason : string)
    (content : list Byte.byte) (title : node) (text : string) (parsed_url : ParseResult) :
  let directory_name := directory_of env (S (clock_reads w)) (Str.strip text) in
  let index := Path.join directory_name "index.html" in
  let base_url := scheme parsed_url +:+ "://" +:+ netloc parsed_url in
  urlparse lib url = Some parsed_url ->
  network env (length (requests w)) url = Response status reason content ->
  raise_for_status url status reason = None ->
  soup_title (BeautifulSoup lib content) = Some title ->
  node_string title = Some text ->
  root_persisted env url (Str.strip text) content w = (Ret tt, w1) ->
  download_categories lib env (download_rows directory_name) (BeautifulSoup lib content)
    base_url (clock env (clock_reads w)) time_limit w1 = (Ret Next, w2) ->
  io_error env (fs_calls w2) index = None ->
  files w1 !! index = Some content
  /\ fst (parse_website lib env url time_limit w) = Ret tt
  /\ files (snd (parse_website lib env url time_limit w))
     = <[index := prettify lib (rewrite_references (BeautifulSoup lib content))]> (files w2)
  /\ (forall path, path <> index ->
        files (snd (parse_website lib env url time_limit w)) !! path = files w2 !! path)
  /\ dirs (snd (parse_website lib env url time_limit w)) = dirs w2
  /\ requests (snd (parse_website lib env url time_limit w)) = requests w2.
Proof.
  intros directory_name index base_url Hparsed Hnet Hstatus Htitle Hstring Hroot Hloop Hio.
  rewrite (parse_website_run lib env url time_limit w parsed_url content title text
             Hparsed (response_fetched env url w status reason content Hnet Hstatus)
             Htitle Hstring).
  cbv zeta. fold directory_name base_url. rewrite Hroot, Hloop.
  unfold bind. rewrite modify_html_content_writes by exact Hio.
  fold index. unfold print, write_file. cbn [fst snd files dirs requests].
  split; [|split; [reflexivity|split; [reflexivity|split; [|split; reflexivity]]]].
  - rewrite (root_persisted_files env url (Str.strip text) content w w1 Hroot).
    apply lookup_insert_eq.
  - intros path Hpath. now apply lookup_insert_ne.
Qed.

Lemma rewritten_page_replaces_raw_page_witness :
  let lib := Demo.lib [Examples.demo_page] in
  let env := Demo.env [(Examples.root, Demo.markup Examples.demo_page)] 0 in
  let index := "20240101_120000_Demo_Page_Title/index.html" in
  let w1 := snd (root_persisted env Examples.root "Demo Page Title"
                   (Demo.markup Examples.demo_page) empty_world) in
  let w2 := snd (attempt lib env "http://example.test"
                   ("a.png", "20240101_120000_Demo_Page_Title/images") w1) in
  let w := snd (parse_website lib env Examples.root 4 empty_world) in
  urlparse lib Examples.root = Some {| scheme := "http"; netloc := "example.test" |}
  /\ network env 0 Examples.root = Response 200 "OK" (Demo.markup Examples.demo_page)
  /\ root_persisted env Examples.root "Demo Page Title" (Demo.markup Examples.demo_page)
       empty_world = (Ret tt, w1)
  /\ download_categories lib env (download_rows "20240101_120000_Demo_Page_Title")
       Examples.demo_page "http://example.test" 0 4 w1 = (Ret Next, w2)
  /\ io_error env (fs_calls w2) index = None
  /\ files w1 !! index = Some (Demo.markup Examples.demo_page)
  /\ files w = {[ index := Demo.prettify (rewrite_references Examples.demo_page) ]}.
Proof.
  intros lib env index w1 w2 w.
  assert (root_persisted env Examples.root "Demo Page Title" (Demo.markup Examples.demo_page)
            empty_world = (Ret tt, w1)) as Hroot by (vm_compute; reflexivity).
  assert (download_categories lib env (download_rows "20240101_120000_Demo_Page_Title")
            Examples.demo_page "http://example.test" 0 4 w1 = (Ret Next, w2)) as Hloop
    by (vm_compute; reflexivity).
  assert (io_error env (fs_calls w2) index = None) as Hio by reflexivity.
  pose proof (rewritten_page_replaces_raw_page lib env Examples.root 4 empty_world w1 w2
                200 "OK" (Demo.markup Examples.demo_page)
                (Tag "title" [] [NavigableString "Demo Page Title"]) "Demo Page Title"
                _ eq_refl eq_refl eq_refl eq_refl eq_refl Hroot Hloop Hio)
    as (Hraw & _ & Hfiles & _).
  split; [reflexivity|]. split; [reflexivity|]. split; [exact Hroot|].
  split; [exact Hloop|]. split; [exact Hio|]. split; [exact Hraw|].
  subst w. rewrite Hfiles. vm_compute. reflexivity.
Defined.

(** C7, as stated, fails on the page of the end-to-end scenario: when the
    run is over no file holds the bytes of the page as they were
    fetched. *)
Lemma raw_page_is_not_kept :
  let w := snd (Demo.run Examples.root Examples.demo_page [] 0 4) in
  ~ exists path, files w !! path = Some (Demo.markup Examples.demo_page).
Proof.
  intros w [path Hpath]. revert Hpath.
  assert (files w = {[ "20240101_120000_Demo_Page_Title/index.html"
                       := Demo.prettify (rewrite_references Examples.demo_page) ]}) as ->
    by (vm_compute; reflexivity).
  destruct (decide (path = "20240101_120000_Demo_Page_Title/index.html")) as [->|Hne].
  - rewrite lookup_singleton_eq. intros E. injection E as E.
    vm_compute in E. discriminate E.
  - rewrite lookup_singleton_ne by congruence. discriminate.
Qed.

(** ** Where the script departs from what it sets out to do *)

(** C1. On a page whose image is named by its absolute URL the download
    loop saves the image as [images/a.png], the sanitized base name of
    the URL, while the rewriter puts the sanitized whole reference into
    the page: [images/http___example.test_img_a.png], a path at which
    there is no file. The page and the assets do not agree. The same
    happens for a reference that starts with "..": the image is fetched
    from the resolved URL and saved as [images/a.png], the page refers
    to [images/.._a.png]. *)
Theorem rewritten_reference_misses_saved_file :
  let lib := Demo.lib [Examples.absolute_page] in
  let w := snd (Demo.run Examples.root Examples.absolute_page
                  [("http://example.test/img/a.png", Examples.bytes123)] 0 4) in
  let w' := snd (Demo.run Examples.root Examples.parent_page
                   [("http://example.test/a.png", Examples.bytes123)] 0 4) in
  (local_name lib "http://example.test" "http://example.test/img/a.png" = "a.png"
   /\ files w !! "20240101_120000_Demo_Page_Title/images/a.png" = Some Examples.bytes123
   /\ files w !! "20240101_120000_Demo_Page_Title/index.html"
      = Some (Demo.prettify
                (Demo.document "Demo Page Title"
                   [Tag "img" [("src", "images/http___example.test_img_a.png")] []]))
   /\ files w !! "20240101_120000_Demo_Page_Title/images/http___example.test_img_a.png"
      = None)
  /\ (local_name lib "http://example.test" "../a.png" = "a.png"
      /\ requests w' = [Examples.root; "http://example.test/a.png"]
      /\ files w' !! "20240101_120000_Demo_Page_Title/images/a.png" = Some Examples.bytes123
      /\ files w' !! "20240101_120000_Demo_Page_Title/index.html"
         = Some (Demo.prettify
                   (Demo.document "Demo Page Title"
                      [Tag "img" [("src", "images/.._a.png")] []]))
      /\ files w' !! "20240101_120000_Demo_Page_Title/images/.._a.png" = None).
Proof. vm_compute. repeat split; reflexivity. Qed.

(** C3. On a page with ten images and a limit of 0 the run returns from
    the download loop as soon as the first image is saved: the notice is
    the only line printed, [modify_html_content] is never called, and
    [index.html] still holds the bytes of the page as they were fetched,
    with the references not rewritten. *)
Theorem truncated_run_skips_the_rewrite :
  let run := Demo.run Examples.root Examples.gallery_page Examples.gallery_assets 0 0 in
  fst run = Ret tt
  /\ stdout (snd run) = ["Time limit exceeded (0s). Stopping further downloads."]
  /\ files (snd run) !! "20240101_120000_Gallery/index.html"
     = Some (Demo.markup Examples.gallery_page)
  /\ files (snd run) !! "20240101_120000_Gallery/index.html"
     <> Some (Demo.prettify (rewrite_references Examples.gallery_page))
  /\ files (snd run) !! "20240101_120000_Gallery/images/i0.png" = Some Examples.bytes123.
Proof.
  vm_compute. repeat split; try reflexivity. discriminate.
Qed.

(** C6. On a page with a style sheet the run completes without a request
    for the style sheet (the only request is the one for the page) and
    without a file below [css/], yet the page written refers to the
    style sheet by a path below [css/]. *)
Theorem stylesheet_rewritten_but_never_fetched :
  let w := snd (Demo.run Examples.root Examples.styled_page
                  [("http://example.test/style.css", Examples.bytes123)] 0 4) in
  schedule (download_rows "20240101_120000_Styled") Examples.styled_page = []
  /\ requests w = [Examples.root]
  /\ stdout w = ["Website parsing and download completed."]
  /\ List.map (fun e => element_get e "href")
       (find_all "link" (rewrite_references Examples.styled_page))
     = [Some "css/http___example.test_style.css"]
  /\ files w !! "20240101_120000_Styled/index.html"
     = Some (Demo.prettify (rewrite_references Examples.styled_page))
  /\ files w !! "20240101_120000_Styled/css/http___example.test_style.css" = None
  /\ files w !! "20240101_120000_Styled/css/style.css" = None.
Proof. vm_compute. repeat split; reflexivity. Qed.

(** * Further properties of the script *)

(** ** [download_file]: what each way out leaves behind *)

Lemma is_valid_url_none (lib : library) (url : string) :
  is_valid_url lib url = None -> urlparse lib url = None.
Proof. unfold is_valid_url. now destruct (urlparse lib url). Qed.


(** X2. When the fetch fails, by an exception of the request or by a
    status from 400 to 599, [download_file] prints the two failure lines
    (the file name, then the error), returns the empty string and leaves
    files and directories as they were: the content of an error response
    is never saved. *)
Theorem download_file_fetch_failure (lib : library) (env : environment)
    (url filename directory : string) (w : world) :
  is_valid_url lib url = Some true ->
  (exists e, network env (length (requests w)) url = RequestException e)
  \/ (exists status reason content,
        network env (length (requests w)) url = Response status reason content
        /\ (400 <= status < 600)%Z) ->
  exists e,
    download_file lib env url filename directory w
    = (Ret EmptyString,
       World (files w) (dirs w)
         (stdout w ++ ["Failed to download file: " +:+ filename; "Error: " +:+ e])
         (requests w ++ [url]) (clock_reads w) (fs_calls w)).
Proof.
  intros Hvalid Hfail.
  assert (fetched env url w = None) as Hnone.
  { unfold fetched.
    destruct Hfail as [[e ->] | (status & reason & content & -> & Hs)]; [reflexivity|].
    unfold raise_for_status.
    destruct (Z.leb_spec 400 status); [|lia].
    destruct (Z.ltb_spec status 500); cbn [andb]; [reflexivity|].
    destruct (Z.leb_spec 500 status); [|lia].
    destruct (Z.ltb_spec status 600); [|lia]. reflexivity. }
  pose proof (download_file_cases lib env url filename directory w) as H.
  rewrite Hvalid, Hnone in H. destruct H as (e & _ & H). eauto.
Qed.

Lemma download_file_fetch_failure_witness :
  let lib := Demo.lib [] in
  let env := Demo.env [] 0 in
  is_valid_url lib "http://example.test/missing.png" = Some true
  /\ network env 0 "http://example.test/missing.png" = Response 404 "Not Found" []
  /\ exists e,
      download_file lib env "http://example.test/missing.png" "missing.png" "site/images"
        empty_world
      = (Ret EmptyString,
         World ∅ ∅ ["Failed to download file: missing.png"; "Error: " +:+ e]
           ["http://example.test/missing.png"] 0 0).
Proof.
  intros lib env. split; [reflexivity|]. split; [reflexivity|].
  apply (download_file_fetch_failure lib env "http://example.test/missing.png"
           "missing.png" "site/images" empty_world eq_refl).
  right. exists 404%Z, "Not Found", []. split; [reflexivity | lia].
Defined.

(** X3. When the content is fetched but the file cannot be written,
    [download_file] has already made the directory of the file; it prints
    the two failure lines, returns the empty string and drops the
    content fetched. What is left at the path depends on where the
    failure came. When [open] raised, the files are as they were. When
    [write] or the closing of the file raised, the file exists and holds
    the bytes written until then, and nothing else: a file that was
    there under the same name is lost. *)
Theorem download_file_write_failure (lib : library) (env : environment)
    (url filename directory : string) (w : world) (content : list Byte.byte)
    (failure : write_failure) :
  let file_path := Path.join directory (sanitize_filename filename) in
  let result := download_file lib env url filename directory w in
  let e := match failure with OpenFailed e | WriteFailed e _ => e end in
  is_valid_url lib url = Some true ->
  fetched env url w = Some content ->
  fst (makedirs env (Path.dirname file_path) w) = Ret tt ->
  io_error env (S (fs_calls w)) file_path = Some failure ->
  fst result = Ret EmptyString
  /\ files (snd result)
     = match failure with
       | OpenFailed _ => files w
       | WriteFailed _ kept => <[file_path := firstn kept content]> (files w)
       end
  /\ dirs (snd result) = dirs w ∪ list_to_set (Path.chain (Path.dirname file_path))
  /\ stdout (snd result)
     = stdout w ++ ["Failed to save file: " +:+ file_path; "Error: " +:+ e]
  /\ requests (snd result) = requests w ++ [url].
Proof.
  intros file_path result e Hvalid Hc Hmade Hio.
  pose proof (download_file_cases lib env url filename directory w) as H.
  fold file_path result in H. rewrite Hvalid, Hc, Hmade in H. cbv zeta in H.
  rewrite Hio in H. subst e.
  destruct failure as [e | e kept]; rewrite H; repeat split; reflexivity.
Qed.

Lemma download_file_write_failure_witness :
  let lib := Demo.lib [] in
  let served := [("http://example.test/a.png", Examples.bytes123)] in
  let w := snd (download_file lib (Demo.env served 0) "http://example.test/a.png" "a.png"
                  "site/images" empty_world) in
  let result := download_file lib (quota_env served) "http://example.test/a.png" "a.png"
                  "site/images" w in
  is_valid_url lib "http://example.test/a.png" = Some true
  /\ fetched (quota_env served) "http://example.test/a.png" w = Some Examples.bytes123
  /\ fst (makedirs (quota_env served) (Path.dirname "site/images/a.png") w) = Ret tt
  /\ io_error (quota_env served) (S (fs_calls w)) "site/images/a.png"
     = Some (WriteFailed "[Errno 122] Disk quota exceeded" 0)
  /\ files w !! "site/images/a.png" = Some Examples.bytes123
  /\ fst result = Ret EmptyString
  /\ files (snd result) = <["site/images/a.png" := []]> (files w)
  /\ stdout (snd result)
     = ["Failed to save file: site/images/a.png";
        "Error: [Errno 122] Disk quota exceeded"].
Proof.
  intros lib served w result.
  assert (fst (makedirs (quota_env served) (Path.dirname "site/images/a.png") w) = Ret tt)
    as Hmade by (vm_compute; reflexivity).
  pose proof (download_file_write_failure lib (quota_env served) "http://example.test/a.png"
                "a.png" "site/images" w Examples.bytes123
                (WriteFailed "[Errno 122] Disk quota exceeded" 0)
                eq_refl eq_refl Hmade eq_refl) as (H1 & H2 & _ & H4 & _).
  split; [reflexivity|]. split; [reflexivity|]. split; [exact Hmade|].
  split; [reflexivity|]. split; [vm_compute; reflexivity|].
  split; [exact H1|]. split; [exact H2 | exact H4].
Defined.

(** A path that names a directory cannot be opened: the URL of a
    directory has an empty base name, and the download fails on the
    subdirectory itself. *)
Example directory_url_is_not_saved :
  let served := [("http://example.test/docs/", Examples.bytes123)] in
  let result := download_file (Demo.lib []) (Demo.env served 0) "http://example.test/docs/"
                  (Path.basename "http://example.test/docs/") "site/pdfs" empty_world in
  fst result = Ret EmptyString
  /\ files (snd result) = ∅
  /\ requests (snd result) = ["http://example.test/docs/"]
  /\ stdout (snd result)
     = ["Failed to save file: site/pdfs/";
        "Error: [Errno 21] Is a directory: 'site/pdfs/'"].
Proof. vm_compute. repeat split; reflexivity. Qed.

Lemma strip_query_fragment_idem (s : string) :
  strip_query_fragment (strip_query_fragment s) = strip_query_fragment s.
Proof.
  induction s as [|d s IH]; [reflexivity|].
  cbn [strip_query_fragment].
  destruct (Ascii.eqb d "?" || Ascii.eqb d "#")%bool eqn:E; [reflexivity|].
  cbn [strip_query_fragment]. now rewrite E, IH.
Qed.

(** X4. A download that succeeds stores the content directly in the
    directory given: the file is the directory, a '/', and a name made of
    allowed characters only, without any '/'. Whatever follows a '?' or
    '#' in the file name plays no part in the name. (It succeeds when the
    content is fetched, the directory exists or can be made, and the
    file is written.) *)
Theorem download_file_saves_flat (lib : library) (env : environment)
    (url filename directory : string) (w : world) (content : list Byte.byte) :
  let name := sanitize_filename filename in
  directory <> EmptyString ->
  Str.endswith "/" directory = false ->
  is_valid_url lib url = Some true ->
  fetched env url w = Some content ->
  fst (makedirs env directory w) = Ret tt ->
  io_error env (S (fs_calls w)) (directory +:+ "/" +:+ name) = None ->
  files (snd (download_file lib env url filename directory w))
  = <[directory +:+ "/" +:+ name := content]> (files w)
  /\ inside directory (directory +:+ "/" +:+ name) = true
  /\ Str.contains "/" name = false
  /\ Str.all allowed name = true
  /\ name = sanitize_filename (strip_query_fragment filename).
Proof.
  intros name Hne Hend Hvalid Hc Hmade Hio.
  assert (Path.join directory name = directory +:+ "/" +:+ name) as Hjoin
    by (apply join_plain; auto; apply sanitize_filename_head).
  pose proof (download_file_cases lib env url filename directory w) as H.
  fold name in H. rewrite Hvalid, Hc, Hjoin in H.
  rewrite (dirname_below directory name Hne Hend (sanitize_filename_no_slash filename)) in H.
  rewrite Hmade in H. cbv zeta in H. rewrite Hio in H. rewrite H. cbn [snd files].
  split; [reflexivity|]. split.
  { unfold inside. apply (prefix_append directory "/" name). }
  split; [apply sanitize_filename_no_slash|].
  split; [apply sanitize_filename_allowed|].
  subst name. rewrite !sanitize_filename_spec'. f_equal.
  symmetry. apply strip_query_fragment_idem.
Qed.

Lemma download_file_saves_flat_witness :
  let lib := Demo.lib [] in
  let env := Demo.env [("http://example.test/a.png?size=2", Examples.bytes123)] 0 in
  (("site/images" : string) <> EmptyString)
  /\ Str.endswith "/" "site/images" = false
  /\ is_valid_url lib "http://example.test/a.png?size=2" = Some true
  /\ fetched env "http://example.test/a.png?size=2" empty_world = Some Examples.bytes123
  /\ fst (makedirs env "site/images" empty_world) = Ret tt
  /\ io_error env 1 "site/images/a.png" = None
  /\ files (snd (download_file lib env "http://example.test/a.png?size=2" "a.png?size=2"
                   "site/images" empty_world))
     = <["site/images/a.png" := Examples.bytes123]> ∅.
Proof.
  intros lib env.
  assert (("site/images" : string) <> EmptyString) as Hne by discriminate.
  assert (fst (makedirs env "site/images" empty_world) = Ret tt) as Hmade
    by (vm_compute; reflexivity).
  split; [exact Hne|]. split; [reflexivity|]. split; [reflexivity|].
  split; [reflexivity|]. split; [exact Hmade|]. split; [reflexivity|].
  apply (download_file_saves_flat lib env "http://example.test/a.png?size=2" "a.png?size=2"
           "site/images" empty_world Examples.bytes123 Hne eq_refl eq_refl eq_refl Hmade
           eq_refl).
Defined.

(** X5. Two downloads into one directory whose file names are sanitized
    to the same name use the same file: when both succeed the content of
    the later one replaces the content of the earlier one, and both
    requests have been made. Nothing renames or keeps the first file.
    (Both succeed when both contents are fetched, the directory can be
    made for the first and the file system writes the file.) *)
Theorem same_name_is_overwritten (lib : library) (env : environment)
    (url1 url2 filename1 filename2 directory : string) (w : world)
    (content1 content2 : list Byte.byte) :
  let file_path := Path.join directory (sanitize_filename filename1) in
  let w1 := snd (download_file lib env url1 filename1 directory w) in
  let w2 := snd (download_file lib env url2 filename2 directory w1) in
  sanitize_filename filename1 = sanitize_filename filename2 ->
  is_valid_url lib url1 = Some true -> is_valid_url lib url2 = Some true ->
  fetched env url1 w = Some content1 ->
  fetched env url2 w1 = Some content2 ->
  fst (makedirs env (Path.dirname file_path) w) = Ret tt ->
  (forall n, io_error env n file_path = None) ->
  files w1 !! file_path = Some content1
  /\ files w2 = <[file_path := content2]> (files w)
  /\ requests w2 = requests w ++ [url1; url2].
Proof.
  intros file_path w1 w2 Hsame Hv1 Hv2 Hc1 Hc2 Hmade Hio.
  assert (w1 = World (<[file_path := content1]> (files w))
                 (dirs w ∪ list_to_set (Path.chain (Path.dirname file_path)))
                 (stdout w) (requests w ++ [url1]) (clock_reads w) (S (S (fs_calls w))))
    as Hw1.
  { subst w1. pose proof (download_file_cases lib env url1 filename1 directory w) as H.
    fold file_path in H. rewrite Hv1, Hc1, Hmade in H. cbv zeta in H.
    rewrite Hio in H. now rewrite H. }
  destruct (makedirs_made env (Path.dirname file_path) w Hmade) as [Hne _].
  assert (fst (makedirs env (Path.dirname file_path) w1) = Ret tt) as Hmade'.
  { rewrite makedirs_present; [reflexivity | exact Hne |].
    intros d Hd. rewrite Hw1. cbn [dirs].
    apply elem_of_union_r, elem_of_list_to_set, list_elem_of_In, Hd. }
  subst w2.
  pose proof (download_file_cases lib env url2 filename2 directory w1) as H.
  rewrite <- Hsame in H. fold file_path in H.
  rewrite Hv2, Hc2, Hmade' in H. cbv zeta in H. rewrite Hio in H. rewrite H.
  cbn [snd files requests]. rewrite Hw1. cbn [files requests].
  split; [apply lookup_insert_eq|]. split.
  - apply insert_insert_eq.
  - now rewrite <- app_assoc.
Qed.

Lemma same_name_is_overwritten_witness :
  let lib := Demo.lib [] in
  let env := Demo.env [("http://example.test/x/a.png", Examples.bytes123);
                       ("http://example.test/y/a.png", [Byte.x04])] 0 in
  let w1 := snd (download_file lib env "http://example.test/x/a.png"
                   (Path.basename "http://example.test/x/a.png") "site/images" empty_world) in
  let w2 := snd (download_file lib env "http://example.test/y/a.png"
                   (Path.basename "http://example.test/y/a.png") "site/images" w1) in
  sanitize_filename (Path.basename "http://example.test/x/a.png")
  = sanitize_filename (Path.basename "http://example.test/y/a.png")
  /\ fst (makedirs env (Path.dirname "site/images/a.png") empty_world) = Ret tt
  /\ (forall n, io_error env n "site/images/a.png" = None)
  /\ files w1 !! "site/images/a.png" = Some Examples.bytes123
  /\ files w2 = <["site/images/a.png" := [Byte.x04]]> ∅.
Proof.
  intros lib env w1 w2.
  assert (fst (makedirs env (Path.dirname "site/images/a.png") empty_world) = Ret tt)
    as Hmade by (vm_compute; reflexivity).
  assert (forall n, io_error env n "site/images/a.png" = None) as Hio by reflexivity.
  pose proof (same_name_is_overwritten lib env "http://example.test/x/a.png"
                "http://example.test/y/a.png"
                (Path.basename "http://example.test/x/a.png")
                (Path.basename "http://example.test/y/a.png")
                "site/images" empty_world Examples.bytes123 [Byte.x04]
                eq_refl eq_refl eq_refl eq_refl eq_refl Hmade Hio) as (H1 & H2 & _).
  split; [reflexivity|]. split; [exact Hmade|]. split; [exact Hio|].
  split; [exact H1 | exact H2].
Defined.

(** ** More on [sanitize_filename] *)

Lemma strip_query_fragment_length (s : string) :
  String.length (strip_query_fragment s) <= String.length s.
Proof.
  induction s as [|d s IH]; [reflexivity|].
  cbn [strip_query_fragment].
  destruct (Ascii.eqb d "?" || Ascii.eqb d "#")%bool; cbn [String.length]; lia.
Qed.

Lemma sanitize_filename_length (s : string) :
  String.length (sanitize_filename s) <= String.length s.
Proof.
  rewrite sanitize_filename_spec'. unfold replace_disallowed.
  rewrite map_length. apply strip_query_fragment_length.
Qed.

Lemma strip_query_fragment_append (a b : string) :
  Str.contains "?" a = false -> Str.contains "#" a = false ->
  strip_query_fragment (a +:+ b) = a +:+ strip_query_fragment b.
Proof.
  induction a as [|d a IH]; [reflexivity|].
  cbn [Str.contains]. rewrite (Ascii.eqb_sym "?" d), (Ascii.eqb_sym "#" d).
  destruct (Ascii.eqb d "?") eqn:Eq; [discriminate|].
  destruct (Ascii.eqb d "#") eqn:Eh; [discriminate|].
  intros Hq Hh.
  change (strip_query_fragment (String d (a +:+ b))
          = String d (a +:+ strip_query_fragment b)).
  cbn [strip_query_fragment]. now rewrite Eq, Eh, IH.
Qed.

Lemma str_map_append (f : ascii -> ascii) (a b : string) :
  Str.map f (a +:+ b) = Str.map f a +:+ Str.map f b.
Proof.
  induction a as [|d a IH]; [reflexivity|].
  change (String (f d) (Str.map f (a +:+ b)) = String (f d) (Str.map f a +:+ Str.map f b)).
  now rewrite IH.
Qed.

(** X6. [sanitize_filename] never makes a name longer, leaves a name made
    of allowed characters as it is, and works piece by piece: as long as
    no '?' or '#' has been met, the sanitized name of a concatenation is
    the concatenation of the sanitized names; in particular what follows
    a '?' or a '#' is dropped whatever it is. *)
Theorem sanitize_filename_piecewise (a b : string) :
  String.length (sanitize_filename a) <= String.length a
  /\ (Str.all allowed a = true -> sanitize_filename a = a)
  /\ (Str.contains "?" a = false -> Str.contains "#" a = false ->
      sanitize_filename (a +:+ b) = sanitize_filename a +:+ sanitize_filename b
      /\ sanitize_filename (a +:+ String "?" b) = sanitize_filename a
      /\ sanitize_filename (a +:+ String "#" b) = sanitize_filename a).
Proof.
  split; [apply sanitize_filename_length|].
  split; [intros H; rewrite sanitize_filename_spec; now apply sanitize_spec_fixed|].
  intros Hq Hh.
  assert (forall t, sanitize_filename (a +:+ t) = sanitize_filename a +:+ sanitize_filename t)
    as Happ.
  { intros t. rewrite !sanitize_filename_spec'. unfold replace_disallowed.
    rewrite (strip_query_fragment_append a t Hq Hh), str_map_append.
    f_equal. f_equal.
    rewrite <- (append_nil_r a) at 2.
    now rewrite (strip_query_fragment_append a EmptyString Hq Hh), append_nil_r. }
  split; [apply Happ|].
  split; rewrite Happ; apply append_nil_r.
Qed.

Lemma sanitize_filename_piecewise_witness :
  Str.all allowed "report-2024_v1.pdf" = true
  /\ sanitize_filename "report-2024_v1.pdf" = "report-2024_v1.pdf"
  /\ Str.contains "?" "my file.png" = false
  /\ Str.contains "#" "my file.png" = false
  /\ sanitize_filename ("my file.png" +:+ String "?" "size=large#top") = "my_file.png".
Proof.
  split; [reflexivity|].
  split; [apply (sanitize_filename_piecewise "report-2024_v1.pdf" EmptyString); reflexivity|].
  split; [reflexivity|]. split; [reflexivity|].
  rewrite (proj1 (proj2 (proj2 (proj2 (sanitize_filename_piecewise "my file.png"
                                         "size=large#top")) eq_refl eq_refl))).
  reflexivity.
Defined.

(** ** [create_directory] *)

Lemma take_length (n : nat) (s : string) : String.length (Str.take n s) <= n.
Proof.
  unfold Str.take. revert s. induction n as [|n IH]; intros [|c s]; cbn; try lia.
  specialize (IH s). lia.
Qed.

(** X7. [create_directory] reads the clock once, for the time stamp.
    The name of the directory is the time stamp of that reading, an
    underscore and the sanitized first twenty characters of the title: a
    name whose last part has at most twenty characters, all of them
    allowed. It makes the directory and returns the name, or it raises
    the [OSError] of [os.makedirs]; either way no file, request or
    printed line is added and no directory disappears. It returns
    whenever each directory of the name either exists (that is no error)
    or can be made. *)
Theorem create_directory_name (env : environment) (title : string) (w : world) :
  let name := sanitize_filename (Str.take 20 title) in
  let directory_name := strftime env (clock env (clock_reads w)) +:+ "_" +:+ name in
  let result := create_directory env title w in
  String.length name <= 20
  /\ Str.all allowed name = true
  /\ ((fst result = Ret directory_name
       /\ dirs (snd result) = dirs w ∪ list_to_set (Path.chain directory_name)
       /\ directory_name ∈ dirs (snd result))
      \/ fst result = Raise (OSError directory_name))
  /\ dirs w ⊆ dirs (snd result)
  /\ files (snd result) = files w
  /\ stdout (snd result) = stdout w
  /\ requests (snd result) = requests w
  /\ clock_reads (snd result) = S (clock_reads w)
  /\ ((forall d, In d (Path.chain directory_name) ->
         d ∈ dirs w \/ (files w !! d = None /\ mkdir_error env (fs_calls w) d = None)) ->
      fst result = Ret directory_name).
Proof.
  intros name directory_name result.
  split; [subst name; etransitivity; [apply sanitize_filename_length | apply take_length]|].
  split; [apply sanitize_filename_allowed|].
  subst result. rewrite create_directory_cases. cbv zeta.
  change (directory_of env (clock_reads w) title) with directory_name.
  set (w0 := World (files w) (dirs w) (stdout w) (requests w) (S (clock_reads w))
               (fs_calls w)).
  assert (directory_name <> EmptyString) as Hne
    by (subst directory_name; destruct (strftime env _); discriminate).
  pose proof (makedirs_frame env directory_name w0) as (Hends & Hf & Hd & Hs & Hr & Hc & _).
  pose proof (makedirs_made env directory_name w0) as Hmade.
  pose proof (makedirs_accepted env directory_name w0 Hne) as Haccepted.
  cbv zeta in *.
  destruct (makedirs env directory_name w0) as [[[]|e] w'];
    cbn [fst snd files dirs stdout requests clock_reads fs_calls w0] in *.
  - destruct (Hmade eq_refl) as [_ [= ->]]. cbn [dirs].
    repeat split; auto. left. repeat split.
    apply elem_of_union_r, elem_of_list_to_set, list_elem_of_In, chain_whole, Hne.
  - destruct Hends as [Hends | Hends]; [discriminate|]. injection Hends as ->.
    repeat split; auto. intros H. discriminate (Haccepted H).
Qed.

Lemma create_directory_name_witness :
  let env := Demo.env [] 1 in
  let first := create_directory env "Demo Page Title: an example" empty_world in
  let second := create_directory env "Demo Page Title: an example" (snd first) in
  (forall d, In d (Path.chain "20240101_120000_Demo_Page_Title__an_") ->
     d ∈ dirs empty_world
     \/ (files empty_world !! d = None /\ mkdir_error env 0 d = None))
  /\ fst first = Ret "20240101_120000_Demo_Page_Title__an_"
  /\ fst second = Ret "20240101_120001_Demo_Page_Title__an_"
  /\ fst (create_directory (read_only_env []) "Demo Page Title" empty_world)
     = Raise (OSError "20240101_120000_Demo_Page_Title").
Proof.
  intros env first second.
  assert (forall d, In d (Path.chain "20240101_120000_Demo_Page_Title__an_") ->
            d ∈ dirs empty_world
            \/ (files empty_world !! d = None /\ mkdir_error env 0 d = None)) as Hfree
    by (intros d _; right; split; reflexivity).
  split; [exact Hfree|]. split.
  - apply (create_directory_name env "Demo Page Title: an example" empty_world), Hfree.
  - split; vm_compute; reflexivity.
Defined.

(** ** [parse_website]: the runs that stop early *)

(** The URL of the page is parsed before it is fetched: when [urlparse]
    rejects it the run ends there, with the clock read once. *)
Lemma parse_website_unparsed (lib : library) (env : environment) (url : string)
    (time_limit : Z) (w : world) :
  urlparse lib url = None ->
  parse_website lib env url time_limit w
  = (Raise (URLValueError url),
     World (files w) (dirs w) (stdout w) (requests w) (S (clock_reads w)) (fs_calls w)).
Proof.
  intros Hp. unfold parse_website. unfold bind at 1. unfold time_time at 1.
  unfold bind at 1. now rewrite Hp.
Qed.



(** X9. A page without a [title] element, or whose [title] is not a
    single piece of text (it is empty, or has several children), makes
    [parse_website] raise [AttributeError] right after the fetch: the run
    stops before any directory is made or any file written, and nothing
    is printed. *)
Theorem parse_website_without_title (lib : library) (env : environment)
    (url : string) (time_limit : Z) (w : world) (content : list Byte.byte)
    (parsed_url : ParseResult) :
  urlparse lib url = Some parsed_url ->
  fetched env url w = Some content ->
  soup_title (BeautifulSoup lib content) = None
  \/ (exists name attrs, soup_title (BeautifulSoup lib content) = Some (Tag name attrs []))
  \/ (exists name attrs c1 c2 rest,
        soup_title (BeautifulSoup lib content) = Some (Tag name attrs (c1 :: c2 :: rest))) ->
  parse_website lib env url time_limit w
  = (Raise AttributeError,
     World (files w) (dirs w) (stdout w) (requests w ++ [url]) (S (clock_reads w))
       (fs_calls w)).
Proof.
  intros Hp Hc Htitle.
  destruct (fetched_response env url w content Hc) as (status & reason & Hnet & Hstatus).
  unfold parse_website. unfold bind at 1. unfold time_time at 1.
  unfold bind at 1. rewrite Hp. unfold or_raise, ret at 1.
  unfold bind at 1. unfold requests_get at 1. cbn [requests].
  rewrite Hnet, Hstatus. unfold bind at 1. unfold title_of.
  destruct Htitle as [-> | [(name & attrs & ->) | (name & attrs & c1 & c2 & rest & ->)]];
    reflexivity.
Qed.

Lemma parse_website_without_title_witness :
  let env page := Demo.env [(Examples.root, Demo.markup page);
                            ("http://example.test/a.png", Examples.bytes123)] 0 in
  urlparse (Demo.lib [untitled_page]) Examples.root
  = Some {| scheme := "http"; netloc := "example.test" |}
  /\ fetched (env untitled_page) Examples.root empty_world = Some (Demo.markup untitled_page)
  /\ soup_title (BeautifulSoup (Demo.lib [untitled_page]) (Demo.markup untitled_page)) = None
  /\ parse_website (Demo.lib [untitled_page]) (env untitled_page) Examples.root 4 empty_world
     = (Raise AttributeError, World ∅ ∅ [] [Examples.root] 1 0)
  /\ parse_website (Demo.lib [empty_title_page]) (env empty_title_page) Examples.root 4
       empty_world
     = (Raise AttributeError, World ∅ ∅ [] [Examples.root] 1 0).
Proof.
  intros env. split; [reflexivity|]. split; [reflexivity|]. split; [reflexivity|]. split.
  - apply (parse_website_without_title (Demo.lib [untitled_page]) (env untitled_page)
             Examples.root 4 empty_world (Demo.markup untitled_page) _ eq_refl eq_refl).
    left. reflexivity.
  - apply (parse_website_without_title (Demo.lib [empty_title_page]) (env empty_title_page)
             Examples.root 4 empty_world (Demo.markup empty_title_page) _ eq_refl eq_refl).
    right. left. exists "title", []. reflexivity.
Defined.

(** Making the directories, step by step. *)
Lemma provisioned_steps (env : environment) (url title : string) (w : world) :
  let directory_name := directory_of env (S (clock_reads w)) title in
  provisioned env url title w
  = match makedirs env directory_name
            (World (files w) (dirs w) (stdout w) (requests w ++ [url])
               (S (S (clock_reads w))) (fs_calls w)) with
    | (Ret _, w0) =>
        match makedirs_each env (List.map snd (subdirectories directory_name)) w0 with
        | (Ret _, w0') => (Ret directory_name, w0')
        | (Raise e, w0') => (Raise e, w0')
        end
    | (Raise e, w0) => (Raise e, w0)
    end.
Proof.
  intros directory_name.
  unfold provisioned, started. unfold bind at 1. rewrite create_directory_cases.
  cbn [files dirs stdout requests clock_reads fs_calls]. cbv zeta.
  fold directory_name.
  destruct (makedirs env directory_name _) as [[[]|e] w0]; [|reflexivity].
  unfold bind, ret.
  now destruct (makedirs_each env _ w0) as [[[]|e] w0'].
Qed.

(** X10. When the raw page cannot be written as [index.html],
    [parse_website] raises the [IOError]: the directory of the run and
    its six subdirectories have been made by then, no asset is requested
    and nothing is printed. When it was [open] that raised, no file is
    written. When [write] or the closing of the file raised,
    [index.html] is left behind with the bytes written until then: an
    empty or a cut page. *)
Theorem parse_website_unwritable_index (lib : library) (env : environment)
    (url : string) (time_limit : Z) (w w0 : world) (content : list Byte.byte)
    (title : node) (text : string) (parsed_url : ParseResult) (failure : write_failure) :
  let directory_name := directory_of env (S (clock_reads w)) (Str.strip text) in
  let index := Path.join directory_name "index.html" in
  let result := parse_website lib env url time_limit w in
  urlparse lib url = Some parsed_url ->
  fetched env url w = Some content ->
  soup_title (BeautifulSoup lib content) = Some title ->
  node_string title = Some text ->
  provisioned env url (Str.strip text) w = (Ret directory_name, w0) ->
  io_error env (fs_calls w0) index = Some failure ->
  fst result = Raise (IOError index)
  /\ files (snd result)
     = match failure with
       | OpenFailed _ => files w
       | WriteFailed _ kept => <[index := firstn kept content]> (files w)
       end
  /\ stdout (snd result) = stdout w
  /\ requests (snd result) = requests w ++ [url]
  /\ directory_name ∈ dirs (snd result)
  /\ forall name path, In (name, path) (subdirectories directory_name) ->
                       path ∈ dirs (snd result).
Proof.
  intros directory_name index result Hp Hc Htitle Hstring Hmade Hio.
  subst result.
  rewrite (parse_website_run lib env url time_limit w parsed_url content title text
             Hp Hc Htitle Hstring).
  cbv zeta. rewrite root_persisted_steps.
  rewrite provisioned_steps in Hmade. cbv zeta in Hmade.
  fold directory_name index in Hmade |- *.
  destruct (makedirs env directory_name _) as [[[]|e] w'] eqn:Hm; [|discriminate].
  destruct (makedirs_made env directory_name _ ltac:(now rewrite Hm)) as [Hne Hdir].
  rewrite Hm in Hdir. injection Hdir as ->.
  destruct (makedirs_each env _ _) as [[[]|e] w''] eqn:He; [|discriminate].
  injection Hmade as ->.
  destruct (makedirs_each_made _ _ _ _ He) as (Hf & Hs & Hr & _ & _ & Hd & Hin).
  cbn [files dirs stdout requests] in Hf, Hs, Hr, Hd.
  rewrite Hio.
  assert (directory_name ∈ dirs w0) as Hdirectory
    by (apply Hd, elem_of_union_r, elem_of_list_to_set, list_elem_of_In, chain_whole, Hne).
  assert (forall name path, In (name, path) (subdirectories directory_name) ->
                            path ∈ dirs w0) as Hsub.
  { intros name path Hpath.
    destruct (Hin path) as [Hpne Hchain]; [|apply Hchain, chain_whole, Hpne].
    apply in_map_iff. now exists (name, path). }
  destruct failure as [e | e kept]; unfold fs_call, write_file;
    cbn [fst snd files dirs stdout requests]; rewrite ?Hf;
    repeat split; auto.
Qed.

Lemma parse_website_unwritable_index_witness :
  let lib := Demo.lib [Examples.absolute_page] in
  let env := quota_env [(Examples.root, Demo.markup Examples.absolute_page);
                        ("http://example.test/img/a.png", Examples.bytes123)] in
  let result := parse_website lib env Examples.root 4 empty_world in
  let w0 := snd (provisioned env Examples.root "Demo Page Title" empty_world) in
  urlparse lib Examples.root = Some {| scheme := "http"; netloc := "example.test" |}
  /\ fetched env Examples.root empty_world = Some (Demo.markup Examples.absolute_page)
  /\ provisioned env Examples.root "Demo Page Title" empty_world
     = (Ret "20240101_120000_Demo_Page_Title", w0)
  /\ io_error env (fs_calls w0) "20240101_120000_Demo_Page_Title/index.html"
     = Some (WriteFailed "[Errno 122] Disk quota exceeded" 0)
  /\ fst result = Raise (IOError "20240101_120000_Demo_Page_Title/index.html")
  /\ files (snd result) = {[ "20240101_120000_Demo_Page_Title/index.html" := [] ]}
  /\ requests (snd result) = [Examples.root].
Proof.
  intros lib env result w0.
  assert (provisioned env Examples.root "Demo Page Title" empty_world
          = (Ret "20240101_120000_Demo_Page_Title", w0)) as Hmade
    by (vm_compute; reflexivity).
  pose proof (parse_website_unwritable_index lib env Examples.root 4 empty_world w0
                (Demo.markup Examples.absolute_page)
                (Tag "title" [] [NavigableString "Demo Page Title"]) "Demo Page Title"
                _ (WriteFailed "[Errno 122] Disk quota exceeded" 0)
                eq_refl eq_refl eq_refl eq_refl Hmade eq_refl) as (H1 & H2 & _ & H4 & _).
  split; [reflexivity|]. split; [reflexivity|]. split; [exact Hmade|].
  split; [reflexivity|]. split; [exact H1|]. split; [|exact H4].
  etrans; [exact H2 | reflexivity].
Defined.

(** ** The download loop, job by job *)

(** The jobs carried out are jobs of the list, from its beginning; they
    are all of them when no check cut the loop short, and one at least
    when a check did. *)
Lemma carried_out_shape (env : environment) (start_time : Q) (time_limit : Z)
    (reads : nat) (jobs : list job) :
  exists rest,
    jobs = carried_out env start_time time_limit reads jobs ++ rest
    /\ (cut_short env start_time time_limit reads jobs = false -> rest = [])
    /\ (cut_short env start_time time_limit reads jobs = true ->
        carried_out env start_time time_limit reads jobs <> []).
Proof.
  revert reads. induction jobs as [|j jobs IH]; intros reads.
  - exists []. split; [reflexivity|]. split; [reflexivity | discriminate].
  - cbn [carried_out cut_short]. destruct (Qle_bool _ _).
    + exists jobs. split; [reflexivity|]. split; discriminate.
    + destruct (IH (S reads)) as (rest & Hjobs & Hall & Hcut).
      exists rest. cbn [app]. rewrite <- Hjobs.
      split; [reflexivity|]. split; [exact Hall | discriminate].
Qed.

Section Attempts.

Variable lib : library.
Variable env : environment.
Variable base_url : string.

(** The file a job writes when it succeeds, and the URL it asks for. *)
Let target (j : job) : string :=
  Path.join (snd j) (local_name lib base_url (fst j)).
Let source (j : job) : string := resolve lib base_url (fst j).

(** What a job leaves alone, however it ends. *)
Lemma attempt_world (j : job) (w : world) :
  let w' := snd (attempt lib env base_url j w) in
  requests w' = requests w ++ (if valid_url lib (source j) then [source j] else [])
  /\ (forall path, path <> target j -> files w' !! path = files w !! path)
  /\ dirs w ⊆ dirs w'
  /\ exists lines, stdout w' = stdout w ++ lines.
Proof.
  cbv zeta. rewrite attempt_cases.
  pose proof (download_file_world lib env (source j) (Path.basename (source j)) (snd j) w)
    as (Hf & Hr & _ & Hd & _ & Hl).
  unfold target, local_name. fold (source j).
  destruct (download_file lib env (source j) _ (snd j) w) as [[r|e] w1];
    cbn [fst snd time_time files dirs stdout requests] in *; auto.
Qed.

Lemma attempt_each_requests (jobs : list job) (w w' : world) :
  attempt_each lib env base_url jobs w = (Ret tt, w') ->
  requests w' = requests w ++ List.filter (valid_url lib) (List.map source jobs).
Proof.
  revert w. induction jobs as [|j jobs IH]; intros w.
  - intros [= <-]. now rewrite app_nil_r.
  - cbn [attempt_each List.map List.filter]. unfold bind.
    pose proof (proj1 (attempt_world j w)) as Hj.
    destruct (attempt lib env base_url j w) as [[[]|e] w1]; [|discriminate].
    cbn [snd] in Hj. intros H. rewrite (IH _ H), Hj, <- app_assoc. f_equal.
    now destruct (valid_url lib (source j)).
Qed.

(** A property of the world that every job of a list keeps, however the
    job ends, holds when the list has been gone through, however that
    ends. *)
Lemma attempt_each_keeps (P : world -> Prop) (jobs : list job) (w : world) :
  (forall j w0, In j jobs -> P w0 -> P (snd (attempt lib env base_url j w0))) ->
  P w -> P (snd (attempt_each lib env base_url jobs w)).
Proof.
  revert w. induction jobs as [|j jobs IH]; intros w Hstep Hw; [exact Hw|].
  cbn [attempt_each]. unfold bind.
  pose proof (Hstep j w (or_introl eq_refl) Hw) as Hj.
  destruct (attempt lib env base_url j w) as [[[]|e] w1]; cbn [snd] in *; [|exact Hj].
  apply IH; [|exact Hj].
  intros j' w0 Hin. apply Hstep. now right.
Qed.

Lemma attempt_each_stdout (jobs : list job) (w : world) :
  exists lines, stdout (snd (attempt_each lib env base_url jobs w)) = stdout w ++ lines.
Proof.
  apply (attempt_each_keeps (fun w0 => exists lines, stdout w0 = stdout w ++ lines)).
  - intros j w0 _ [lines Hw0].
    destruct (proj2 (proj2 (proj2 (attempt_world j w0)))) as [more Hmore].
    exists (lines ++ more). now rewrite Hmore, Hw0, app_assoc.
  - exists []. now rewrite app_nil_r.
Qed.

(** The same for the loop, with the notice it may print. *)
Lemma download_jobs_keeps (P : world -> Prop) (start_time : Q) (time_limit : Z)
    (jobs : list job) (w : world) :
  (forall j w0, In j jobs -> P w0 -> P (snd (attempt lib env base_url j w0))) ->
  (forall w0, P w0 -> P (snd (print (time_limit_notice time_limit) w0))) ->
  P w -> P (snd (download_jobs lib env jobs base_url start_time time_limit w)).
Proof.
  intros Hstep Hprint Hw. rewrite download_jobs_carried.
  destruct (carried_out_shape env start_time time_limit (clock_reads w) jobs)
    as (rest & Hjobs & _).
  assert (P (snd (attempt_each lib env base_url
                    (carried_out env start_time time_limit (clock_reads w) jobs) w))) as H.
  { apply attempt_each_keeps; [|exact Hw].
    intros j w0 Hin. apply Hstep. rewrite Hjobs. apply in_or_app. now left. }
  unfold bind at 1.
  destruct (attempt_each lib env base_url _ w) as [[[]|e] w1]; cbn [snd] in H; [|exact H].
  destruct (cut_short env start_time time_limit (clock_reads w) jobs); [|exact H].
  unfold bind, ret.
  specialize (Hprint w1 H).
  now destruct (print (time_limit_notice time_limit) w1) as [[[]|e] w2].
Qed.

End Attempts.

Lemma schedule_subdir (rows : list (string * string * string)) (page : soup) (j : job) :
  In j (schedule rows page) -> In (snd j) (List.map snd rows).
Proof.
  unfold schedule. intros H. apply in_flat_map in H.
  destruct H as ([[tag attribute] subdir] & Hrow & Hj).
  apply in_map_iff. exists (tag, attribute, subdir). split; [|exact Hrow].
  unfold jobs_in in Hj. apply in_flat_map in Hj. destruct Hj as (e & _ & He).
  destruct (element_get e attribute); [|destruct He].
  destruct He as [<- | []]. reflexivity.
Qed.

(** ** The endings of a run *)

(** The rewritten page is written like the raw page: in full, not at
    all, or in part. *)
Lemma modify_html_content_cases (lib : library) (env : environment)
    (content : list Byte.byte) (directory_name base_url : string) (w : world) :
  let index := Path.join directory_name "index.html" in
  let rewritten := prettify lib (rewrite_references (BeautifulSoup lib content)) in
  modify_html_content lib env content directory_name base_url w
  = match io_error env (fs_calls w) index with
    | None => (Ret tt, write_file index rewritten w)
    | Some (OpenFailed _) => (Raise (IOError index), fs_call w)
    | Some (WriteFailed _ kept) =>
        (Raise (IOError index), write_file index (firstn kept rewritten) w)
    end.
Proof.
  cbv zeta. unfold modify_html_content, open_write_or_raise, bind.
  rewrite open_write_cases.
  now destruct (io_error env (fs_calls w) _) as [[e | e kept]|].
Qed.

(** Up to the download loop no file is touched but [index.html],
    however these steps end. *)
Lemma root_persisted_kept (env : environment) (url title : string)
    (content : list Byte.byte) (w : world) (path : string) :
  path <> Path.join (directory_of env (S (clock_reads w)) title) "index.html" ->
  files (snd (root_persisted env url title content w)) !! path = files w !! path.
Proof.
  intros Hpath. rewrite root_persisted_steps.
  match goal with |- context [makedirs env ?d ?w0] =>
    pose proof (makedirs_frame env d w0) as (_ & Hf & _);
    destruct (makedirs env d w0) as [[[]|e] w0'] end;
    cbn [fst snd files] in *; [|now rewrite Hf].
  match goal with |- context [makedirs_each env ?l w0'] =>
    pose proof (makedirs_each_frame env l w0') as (Hf' & _);
    destruct (makedirs_each env l w0') as [[[]|e] w0''] end;
    cbn [fst snd files] in *; [|now rewrite Hf', Hf].
  destruct (io_error env (fs_calls w0'') _) as [[e | e kept]|];
    unfold write_file, fs_call; cbn [snd files];
    rewrite ?lookup_insert_ne by (intros E; apply Hpath; now symmetry);
    now rewrite Hf', Hf.
Qed.

Section Run.

Variable lib : library.
Variable env : environment.
Variable url : string.
Variable time_limit : Z.
Variables w w1 : world.
Variable content : list Byte.byte.
Variable title : node.
Variable text : string.
Variable parsed_url : ParseResult.

Let directory_name := directory_of env (S (clock_reads w)) (Str.strip text).
Let index := Path.join directory_name "index.html".
Let base_url := scheme parsed_url +:+ "://" +:+ netloc parsed_url.
Let page := BeautifulSoup lib content.
Let jobs := schedule (download_rows directory_name) page.
Let target (j : job) : string := Path.join (snd j) (local_name lib base_url (fst j)).

(** No job writes [index.html], and every job writes below the
    directory of the run, directly in the subdirectory of its row. *)
Lemma job_target (j : job) :
  In j jobs -> inside directory_name (target j) = true /\ target j <> index.
Proof.
  intros Hin. subst target index. cbv beta.
  destruct (directory_of_shape env (S (clock_reads w)) (Str.strip text)) as [Hne Hend].
  apply row_target; auto.
  - apply (schedule_subdir _ page). exact Hin.
  - apply sanitize_filename_head.
Qed.

Lemma job_directory (j : job) :
  In j jobs ->
  Path.dirname (target j) = snd j
  /\ exists name, In (name, snd j) (subdirectories directory_name).
Proof.
  intros Hin.
  pose proof (schedule_subdir _ page j Hin) as Hrow.
  assert (exists name, In (name, snd j) (subdirectories directory_name)) as [name Hname].
  { cbn [download_rows List.map snd In] in Hrow. cbn [subdirectories In].
    destruct Hrow as [<- | [<- | [<- | [<- | [<- | []]]]]];
      [exists "images" | exists "audio" | exists "pdfs" | exists "text" | exists "js"];
      auto 10. }
  split; [|eauto].
  destruct (directory_of_shape env (S (clock_reads w)) (Str.strip text)) as [Hne Hend].
  destruct (subdirectory_shape directory_name name (snd j) Hne Hend Hname)
    as (_ & Hsne & Hsend).
  unfold target, local_name.
  rewrite (join_plain (snd j) _ Hsne Hsend (sanitize_filename_head _)).
  apply dirname_below; auto. apply sanitize_filename_no_slash.
Qed.

Lemma inside_index : inside directory_name index = true.
Proof.
  destruct (directory_of_shape env (S (clock_reads w)) (Str.strip text)) as [Hne Hend].
  subst index. fold directory_name in Hne, Hend.
  rewrite (join_plain directory_name "index.html" Hne Hend eq_refl).
  unfold inside. apply (prefix_append directory_name "/" "index.html").
Qed.

(** A job changes no file outside the directory of the run, and not
    [index.html], however it ends. *)
Lemma job_keeps (j : job) (w0 : world) (path : string) :
  In j jobs -> inside directory_name path = false \/ path = index ->
  files (snd (attempt lib env base_url j w0)) !! path = files w0 !! path.
Proof.
  intros Hin Hpath.
  apply (attempt_world lib env base_url j w0).
  destruct (job_target j Hin) as [Hinside Hindex]. unfold target in Hinside, Hindex.
  intros ->. destruct Hpath as [Hout | E]; [congruence | contradiction].
Qed.

Hypothesis Hroot : root_persisted env url (Str.strip text) content w = (Ret tt, w1).

(** The directory a job asks [os.makedirs] for is the subdirectory of
    its row, which exists: the job cannot fail there. *)
Lemma job_makedirs (j : job) (w0 : world) :
  In j jobs -> dirs w1 ⊆ dirs w0 ->
  makedirs env (Path.dirname (target j)) w0 = (Ret tt, fs_call w0).
Proof.
  intros Hin Hsub. destruct (job_directory j Hin) as [-> [name Hname]].
  destruct (root_persisted_subdirectory env url _ content w w1 Hroot name (snd j) Hname)
    as [Hne Hchain].
  apply makedirs_present; [exact Hne|]. intros d Hd. apply Hsub, Hchain, Hd.
Qed.

(** In a run a job returns as soon as [urlparse] accepts its URL. *)
Lemma attempt_returns (j : job) (w0 : world) :
  In j jobs -> urlparse lib (resolve lib base_url (fst j)) <> None ->
  dirs w1 ⊆ dirs w0 ->
  exists w', attempt lib env base_url j w0 = (Ret tt, w') /\ dirs w1 ⊆ dirs w'.
Proof.
  intros Hin Hp Hsub.
  pose proof (attempt_world lib env base_url j w0) as (_ & _ & Hd & _). cbv zeta in Hd.
  rewrite attempt_cases in *.
  destruct (download_file_returns lib env (resolve lib base_url (fst j))
              (Path.basename (resolve lib base_url (fst j))) (snd j) w0) as [r Hr].
  - unfold is_valid_url. destruct (urlparse lib _); congruence.
  - intros _ _.
    change (Path.join (snd j)
              (sanitize_filename (Path.basename (resolve lib base_url (fst j)))))
      with (target j).
    now rewrite job_makedirs.
  - destruct (download_file lib env _ _ (snd j) w0) as [[r'|e] w']; [|discriminate Hr].
    eexists. split; [reflexivity|]. cbn [snd] in Hd. etrans; [exact Hsub | exact Hd].
Qed.

Lemma attempt_each_returns (done : list job) (w0 : world) :
  (forall j, In j done ->
             In j jobs /\ urlparse lib (resolve lib base_url (fst j)) <> None) ->
  dirs w1 ⊆ dirs w0 ->
  exists w', attempt_each lib env base_url done w0 = (Ret tt, w') /\ dirs w1 ⊆ dirs w'.
Proof.
  revert w0. induction done as [|j done IH]; intros w0 Hdone Hsub.
  - exists w0. now split.
  - destruct (Hdone j (or_introl eq_refl)) as [Hin Hp].
    destruct (attempt_returns j w0 Hin Hp Hsub) as (wj & Hj & Hsubj).
    destruct (IH wj) as (w' & Hrest & Hsub'); [|exact Hsubj|].
    + intros j' Hj'. apply Hdone. now right.
    + exists w'. cbn [attempt_each]. unfold bind. rewrite Hj. now split.
Qed.

Lemma attempts_keep_index (done : list job) :
  (forall j, In j done -> In j jobs) ->
  files (snd (attempt_each lib env base_url done w1)) !! index = Some content.
Proof.
  intros Hdone.
  apply (attempt_each_keeps lib env base_url (fun w0 => files w0 !! index = Some content)).
  - intros j w0 Hin Hw0. rewrite job_keeps; [exact Hw0 | now apply Hdone | now right].
  - rewrite (root_persisted_files env url (Str.strip text) content w w1 Hroot).
    apply lookup_insert_eq.
Qed.

Hypothesis Hparsed : urlparse lib url = Some parsed_url.
Hypothesis Hfetched : fetched env url w = Some content.
Hypothesis Htitle : soup_title page = Some title.
Hypothesis Hstring : node_string title = Some text.

(** The run from the download loop on. *)
Lemma run_from_loop :
  parse_website lib env url time_limit w
  = match download_jobs lib env jobs base_url (clock env (clock_reads w)) time_limit w1 with
    | (Ret Next, w') =>
        (modify_html_content lib env content directory_name base_url ;;
         print "Website parsing and download completed.")%py w'
    | (Ret Returned, w') => (Ret tt, w')
    | (Raise e, w') => (Raise e, w')
    end.
Proof.
  rewrite (parse_website_run lib env url time_limit w parsed_url content title text
             Hparsed Hfetched Htitle Hstring).
  cbv zeta. rewrite Hroot. now rewrite download_categories_jobs.
Qed.

Hypothesis Hjobs :
  forall j, In j jobs -> urlparse lib (resolve lib base_url (fst j)) <> None.

(** Some first jobs of the schedule are carried out; then the run goes
    on to the rewrite, when they are all the jobs, or ends with the
    notice. *)
Lemma run_shape :
  exists done rest w2,
    jobs = done ++ rest
    /\ attempt_each lib env base_url done w1 = (Ret tt, w2)
    /\ ((rest = []
         /\ parse_website lib env url time_limit w
            = (modify_html_content lib env content directory_name base_url ;;
               print "Website parsing and download completed.")%py w2)
        \/ (done <> []
            /\ parse_website lib env url time_limit w
               = (Ret tt, snd (print (time_limit_notice time_limit) w2)))).
Proof.
  pose proof run_from_loop as Hrun. rewrite download_jobs_carried in Hrun.
  destruct (carried_out_shape env (clock env (clock_reads w)) time_limit (clock_reads w1)
              jobs) as (rest & Hsplit & Hall & Hcut).
  set (done := carried_out env (clock env (clock_reads w)) time_limit (clock_reads w1) jobs)
    in *.
  destruct (attempt_each_returns done w1) as (w2 & Hdone & _); [|done|].
  { intros j Hj. assert (In j jobs) by (rewrite Hsplit; apply in_or_app; now left).
    auto. }
  exists done, rest, w2. split; [exact Hsplit|]. split; [exact Hdone|].
  unfold bind at 1 in Hrun. rewrite Hdone in Hrun.
  destruct (cut_short env _ time_limit (clock_reads w1) jobs).
  - right. split; [now apply Hcut | exact Hrun].
  - left. split; [now apply Hall | exact Hrun].
Qed.

(** *** A link and its two files *)

Variable v : string.
Variable link_content : list Byte.byte.
Variable subdir : string.

Let link := resolve lib base_url v.
Let saved := Path.join subdir (local_name lib base_url v).

Hypothesis Hvalid : is_valid_url lib link = Some true.
Hypothesis Hserved :
  forall n, exists status reason,
    network env n link = Response status reason link_content
    /\ raise_for_status link status reason = None.
Hypothesis Hwritable : forall n, io_error env n saved = None.
Hypothesis Hunique : forall j, In j jobs -> target j = saved -> resolve lib base_url (fst j) = link.

Lemma link_job_saves (j : job) (w0 : world) :
  In j jobs -> dirs w1 ⊆ dirs w0 -> target j = saved ->
  files (snd (attempt lib env base_url j w0)) !! saved = Some link_content.
Proof.
  intros Hin Hsub Htarget.
  pose proof (download_file_cases lib env (resolve lib base_url (fst j))
                (Path.basename (resolve lib base_url (fst j))) (snd j) w0) as H.
  change (Path.join (snd j)
            (sanitize_filename (Path.basename (resolve lib base_url (fst j)))))
    with (target j) in H.
  rewrite (Hunique j Hin Htarget) in H. fold link in H. rewrite Hvalid in H.
  assert (fetched env link w0 = Some link_content) as Hlink.
  { destruct (Hserved (length (requests w0))) as (status & reason & Hnet & Hstatus).
    now apply (response_fetched env link w0 status reason). }
  rewrite Hlink, (job_makedirs j w0 Hin Hsub) in H. cbv zeta in H.
  rewrite Htarget, Hwritable in H.
  rewrite attempt_cases, (Hunique j Hin Htarget). fold link. rewrite H.
  cbn [snd time_time files]. apply lookup_insert_eq.
Qed.

Lemma link_job_keeps (j : job) (w0 : world) :
  In j jobs -> dirs w1 ⊆ dirs w0 ->
  files w0 !! saved = Some link_content ->
  files (snd (attempt lib env base_url j w0)) !! saved = Some link_content.
Proof.
  intros Hin Hsub Hw0.
  destruct (decide (target j = saved)) as [Htarget | Hother].
  - now apply link_job_saves.
  - rewrite (proj1 (proj2 (attempt_world lib env base_url j w0))); [exact Hw0|].
    intros E. apply Hother. now symmetry.
Qed.

(** Once a job for the file has been carried out, the file holds the
    content of the link, and it still does when the jobs are over. *)
Lemma link_saved (done : list job) (w0 w' : world) :
  (forall j, In j done -> In j jobs) ->
  dirs w1 ⊆ dirs w0 ->
  files w0 !! saved = Some link_content \/ (exists j, In j done /\ target j = saved) ->
  attempt_each lib env base_url done w0 = (Ret tt, w') ->
  files w' !! saved = Some link_content.
Proof.
  revert w0. induction done as [|j done IH]; intros w0 Hdone Hsub Hsaved.
  - intros [= <-]. destruct Hsaved as [H | (j & [] & _)]. exact H.
  - cbn [attempt_each]. unfold bind.
    pose proof (Hdone j (or_introl eq_refl)) as Hin.
    pose proof (link_job_saves j w0 Hin Hsub) as Hsaves.
    pose proof (link_job_keeps j w0 Hin Hsub) as Hkeeps.
    pose proof (attempt_world lib env base_url j w0) as (_ & _ & Hd & _). cbv zeta in Hd.
    destruct (attempt lib env base_url j w0) as [[[]|e] wj]; [|discriminate].
    cbn [snd] in *. apply IH.
    + intros j' Hj'. apply Hdone. now right.
    + etrans; [exact Hsub | exact Hd].
    + destruct Hsaved as [H | (j' & [<- | Hj'] & Htarget)]; eauto.
Qed.

End Run.



(** A reference that [urlparse] rejects ends the run where the loop
    comes to it: the exception leaves [parse_website], the references
    that follow are not downloaded and the page is not rewritten. *)
Example unparsable_reference_ends_the_run :
  let run := Demo.run Examples.root Examples.bracket_page
               [("http://example.test/a.png", Examples.bytes123)] 0 4 in
  fst run = Raise (URLValueError "//[")
  /\ requests (snd run) = [Examples.root]
  /\ stdout (snd run) = []
  /\ files (snd run) = {[ "20240101_120000_Bracket/index.html"
                          := Demo.markup Examples.bracket_page ]}.
Proof. vm_compute. repeat split; reflexivity. Qed.

(** X12. Whatever a run writes, it writes below its own directory: every
    path whose file differs after the run from what it was before lies
    below the directory named after the time stamp and the title. This
    holds however the run ends: completed, cut short by the time limit,
    or stopped by an exception of [urlparse], of [os.makedirs] or of a
    writing of [index.html]. *)
Theorem run_writes_below_its_directory (lib : library) (env : environment)
    (url : string) (time_limit : Z) (w : world) (content : list Byte.byte)
    (title : node) (text : string) :
  let directory_name := directory_of env (S (clock_reads w)) (Str.strip text) in
  let final := parse_website lib env url time_limit w in
  fetched env url w = Some content ->
  soup_title (BeautifulSoup lib content) = Some title ->
  node_string title = Some text ->
  forall path, files (snd final) !! path <> files w !! path ->
               inside directory_name path = true.
Proof.
  intros directory_name final Hfetched Htitle Hstring path Hpath.
  destruct (inside directory_name path) eqn:Hout; [reflexivity|].
  exfalso. apply Hpath. clear Hpath. subst final.
  destruct (urlparse lib url) as [parsed_url|] eqn:Hparsed.
  2:{ now rewrite parse_website_unparsed. }
  assert (path <> Path.join directory_name "index.html") as Hindex.
  { intros ->. subst directory_name. rewrite inside_index in Hout. discriminate Hout. }
  rewrite (parse_website_run lib env url time_limit w parsed_url content title text
             Hparsed Hfetched Htitle Hstring).
  cbv zeta. fold directory_name.
  pose proof (root_persisted_kept env url (Str.strip text) content w path Hindex) as Hroot.
  destruct (root_persisted env url (Str.strip text) content w) as [[[]|e] w1];
    cbn [snd] in Hroot; [|exact Hroot].
  rewrite download_categories_jobs.
  pose proof (download_jobs_keeps lib env
                (scheme parsed_url +:+ "://" +:+ netloc parsed_url)
                (fun w0 => files w0 !! path = files w !! path)
                (clock env (clock_reads w)) time_limit
                (schedule (download_rows directory_name) (BeautifulSoup lib content)) w1)
    as Hloop.
  cbv beta in Hloop.
  destruct (download_jobs lib env _ _ _ time_limit w1) as [[[|]|e] w2];
    cbn [snd] in Hloop.
  - unfold bind. rewrite modify_html_content_cases. cbv zeta.
    destruct (io_error env (fs_calls w2) _) as [[e | e kept]|];
      unfold print, write_file, fs_call; cbn [snd files];
      rewrite ?lookup_insert_ne by (intros E; apply Hindex; now symmetry);
      apply Hloop; auto;
      intros j w0 Hj Hw0;
      rewrite (job_keeps lib env w content text parsed_url j w0 path Hj (or_introl Hout));
      exact Hw0.
  - apply Hloop; auto.
    intros j w0 Hj Hw0.
    rewrite (job_keeps lib env w content text parsed_url j w0 path Hj (or_introl Hout)).
    exact Hw0.
  - apply Hloop; auto.
    intros j w0 Hj Hw0.
    rewrite (job_keeps lib env w content text parsed_url j w0 path Hj (or_introl Hout)).
    exact Hw0.
Qed.

Lemma run_writes_below_its_directory_witness :
  let lib := Demo.lib [Examples.linked_page] in
  let env := Demo.env [(Examples.root, Demo.markup Examples.linked_page);
                       ("http://example.test/doc.pdf", Examples.bytes123)] 0 in
  let final := parse_website lib env Examples.root 4 empty_world in
  fetched env Examples.root empty_world = Some (Demo.markup Examples.linked_page)
  /\ files (snd final) !! "20240101_120000_Links/text/doc.pdf"
     <> files empty_world !! "20240101_120000_Links/text/doc.pdf"
  /\ inside "20240101_120000_Links" "20240101_120000_Links/text/doc.pdf" = true.
Proof.
  intros lib env final.
  assert (files (snd final) !! "20240101_120000_Links/text/doc.pdf"
          <> files empty_world !! "20240101_120000_Links/text/doc.pdf") as Hdiff
    by (vm_compute; discriminate).
  split; [reflexivity|]. split; [exact Hdiff|].
  exact (run_writes_below_its_directory lib env Examples.root 4 empty_world
           (Demo.markup Examples.linked_page)
           (Tag "title" [] [NavigableString "Links"]) "Links"
           eq_refl eq_refl eq_refl _ Hdiff).
Defined.

(** X13. A page with nothing to download is never cut short: when no
    element of the five rows has its attribute, the clock is not read
    again and the run completes whatever the time limit is, zero and
    negative limits included. It requests the page only, writes the
    rewritten page as [index.html] and prints the completion notice.
    (The run is one that gets to the loop, and in which [index.html] can
    be written a second time.) *)
Theorem run_without_assets_completes (lib : library) (env : environment)
    (url : string) (time_limit : Z) (w w1 : world) (content : list Byte.byte)
    (title : node) (text : string) (parsed_url : ParseResult) :
  let directory_name := directory_of env (S (clock_reads w)) (Str.strip text) in
  let index := Path.join directory_name "index.html" in
  let page := BeautifulSoup lib content in
  let final := parse_website lib env url time_limit w in
  urlparse lib url = Some parsed_url ->
  fetched env url w = Some content ->
  soup_title page = Some title ->
  node_string title = Some text ->
  root_persisted env url (Str.strip text) content w = (Ret tt, w1) ->
  io_error env (fs_calls w1) index = None ->
  schedule (download_rows directory_name) page = [] ->
  fst final = Ret tt
  /\ files (snd final) = <[index := prettify lib (rewrite_references page)]> (files w)
  /\ stdout (snd final) = stdout w ++ ["Website parsing and download completed."]
  /\ requests (snd final) = requests w ++ [url]
  /\ clock_reads (snd final) = S (S (clock_reads w)).
Proof.
  intros directory_name index page final Hparsed Hfetched Htitle Hstring Hroot Hio Hnone.
  assert (parse_website lib env url time_limit w
          = (Ret tt,
             snd (print "Website parsing and download completed."
                    (write_file index (prettify lib (rewrite_references page)) w1))))
    as Hrun.
  { rewrite (run_from_loop lib env url time_limit w w1 content title text parsed_url
               Hroot Hparsed Hfetched Htitle Hstring).
    fold directory_name page. rewrite Hnone. cbn [download_jobs]. unfold ret at 1.
    unfold bind. now rewrite modify_html_content_writes by exact Hio. }
  subst final. rewrite Hrun. unfold print, write_file.
  cbn [fst snd files dirs stdout requests clock_reads fs_calls].
  rewrite (root_persisted_files env url _ content w w1 Hroot),
    (root_persisted_stdout env url _ content w w1 Hroot),
    (root_persisted_requests env url _ content w w1 Hroot),
    (root_persisted_clock env url _ content w w1 Hroot).
  fold directory_name index. rewrite insert_insert_eq. repeat split; reflexivity.
Qed.

Lemma run_without_assets_completes_witness :
  let lib := Demo.lib [bare_page] in
  let env := Demo.env [(Examples.root, Demo.markup bare_page)] 1 in
  let final := parse_website lib env Examples.root 0 empty_world in
  let w1 := snd (root_persisted env Examples.root "Bare" (Demo.markup bare_page)
                   empty_world) in
  urlparse lib Examples.root = Some {| scheme := "http"; netloc := "example.test" |}
  /\ fetched env Examples.root empty_world = Some (Demo.markup bare_page)
  /\ root_persisted env Examples.root "Bare" (Demo.markup bare_page) empty_world
     = (Ret tt, w1)
  /\ io_error env (fs_calls w1) "20240101_120001_Bare/index.html" = None
  /\ schedule (download_rows (directory_of env 1 (Str.strip "Bare"))) bare_page = []
  /\ fst final = Ret tt
  /\ stdout (snd final) = ["Website parsing and download completed."]
  /\ requests (snd final) = [Examples.root].
Proof.
  intros lib env final w1.
  assert (root_persisted env Examples.root "Bare" (Demo.markup bare_page) empty_world
          = (Ret tt, w1)) as Hroot by (vm_compute; reflexivity).
  pose proof (run_without_assets_completes lib env Examples.root 0 empty_world w1
                (Demo.markup bare_page) (Tag "title" [] [NavigableString "Bare"]) "Bare"
                _ eq_refl eq_refl eq_refl eq_refl Hroot eq_refl eq_refl)
    as (H1 & _ & H3 & H4 & _).
  split; [reflexivity|]. split; [reflexivity|]. split; [exact Hroot|].
  split; [reflexivity|]. split; [reflexivity|].
  split; [exact H1|]. split; [exact H3 | exact H4].
Defined.

(** ** Links are downloaded twice *)

Lemma jobs_in_values (elements : list node) (attribute subdir : string) :
  jobs_in elements attribute subdir
  = List.map (fun v => (v, subdir)) (values_of attribute elements).
Proof.
  unfold jobs_in, values_of.
  induction elements as [|e elements IH]; [reflexivity|].
  cbn [flat_map]. rewrite List.map_app, IH.
  now destruct (element_get e attribute).
Qed.

Lemma values_of_element (attribute : string) (elements : list node) (e : node) (v : string) :
  In e elements -> element_get e attribute = Some v -> In v (values_of attribute elements).
Proof.
  intros Hin Hv. unfold values_of. apply in_flat_map. exists e.
  split; [exact Hin|]. rewrite Hv. now left.
Qed.




(** ** The rewriter, element by element *)

Lemma find_all_assign_shallow (wanted : string -> attributes -> bool) (key : string)
    (f : string -> string) (tag : string) (page : soup) :
  List.map shallow (find_all tag (assign_all wanted key f page))
  = List.map (fun e => (fst e, assign wanted key f (fst e) (snd e)))
      (List.map shallow (find_all tag page)).
Proof.
  unfold find_all. rewrite find_all_assign_all by reflexivity.
  now rewrite List.map_map.
Qed.

Lemma rewrite_references_shallow (tag : string) (page : soup) :
  List.map shallow (find_all tag (rewrite_references page))
  = List.map (fun e => (fst e, rewritten_attrs (fst e) (snd e)))
      (List.map shallow (find_all tag page)).
Proof.
  unfold rewrite_references.
  rewrite !find_all_assign_shallow, !List.map_map.
  apply List.map_ext. intros e. reflexivity.
Qed.

Lemma dict_get_set_other (attrs : attributes) (key k x : string) :
  k <> key -> dict_get (dict_set attrs key x) k = dict_get attrs k.
Proof.
  intros Hk. induction attrs as [|[k' v] attrs IH].
  - cbn [dict_set dict_get]. apply String.eqb_neq in Hk.
    now rewrite (String.eqb_sym key k), Hk.
  - cbn [dict_set]. destruct (String.eqb k' key) eqn:E; cbn [dict_get].
    + apply String.eqb_eq in E. subst k'.
      apply String.eqb_neq in Hk. now rewrite (String.eqb_sym key k), Hk.
    + now rewrite IH.
Qed.

Lemma dict_set_keys (attrs : attributes) (key v x : string) :
  dict_get attrs key = Some v ->
  List.map fst (dict_set attrs key x) = List.map fst attrs.
Proof.
  induction attrs as [|[k u] attrs IH]; cbn [dict_get dict_set]; [discriminate|].
  destruct (String.eqb k key) eqn:E; cbn [List.map fst]; [reflexivity|].
  intros H. now rewrite IH.
Qed.

Lemma assign_other (wanted : string -> attributes -> bool) (key : string)
    (f : string -> string) (name : string) (attrs : attributes) (k : string) :
  k <> key -> dict_get (assign wanted key f name attrs) k = dict_get attrs k.
Proof.
  intros Hk. unfold assign. destruct (wanted name attrs); [|reflexivity].
  destruct (dict_get attrs key); [|reflexivity]. now apply dict_get_set_other.
Qed.

Lemma assign_keys (wanted : string -> attributes -> bool) (key : string)
    (f : string -> string) (name : string) (attrs : attributes) :
  List.map fst (assign wanted key f name attrs) = List.map fst attrs.
Proof.
  unfold assign. destruct (wanted name attrs); [|reflexivity].
  destruct (dict_get attrs key) eqn:E; [|reflexivity]. eapply dict_set_keys, E.
Qed.

Lemma assign_unwanted (wanted : string -> attributes -> bool) (key : string)
    (f : string -> string) (name : string) (attrs : attributes) :
  wanted name attrs = false -> assign wanted key f name attrs = attrs.
Proof. intros H. unfold assign. now rewrite H. Qed.

Lemma map_shallow_eq {A : Type} (g : string * attributes -> A)
    (h : string -> attributes -> attributes) (l l' : list node) :
  List.map shallow l' = List.map (fun e => (fst e, h (fst e) (snd e))) (List.map shallow l) ->
  (forall name attrs, g (name, h name attrs) = g (name, attrs)) ->
  List.map (fun e => g (shallow e)) l' = List.map (fun e => g (shallow e)) l.
Proof.
  intros Hmap Hg.
  rewrite <- (List.map_map shallow g l'), Hmap, !List.map_map.
  apply List.map_ext. intros e. apply Hg.
Qed.

Lemma map_shallow_eq_named {A : Type} (g : string * attributes -> A)
    (h : string -> attributes -> attributes) (tag : string) (l l' : list node) :
  List.map shallow l' = List.map (fun e => (fst e, h (fst e) (snd e))) (List.map shallow l) ->
  Forall (fun e => named tag (element_name e) (element_attrs e) = true) l ->
  (forall attrs, g (tag, h tag attrs) = g (tag, attrs)) ->
  List.map (fun e => g (shallow e)) l' = List.map (fun e => g (shallow e)) l.
Proof.
  intros Hmap Hall Hg.
  rewrite <- (List.map_map shallow g l'), Hmap, !List.map_map.
  apply List.map_ext_in. intros e He.
  rewrite Forall_forall in Hall. specialize (Hall e (proj2 (list_elem_of_In _ _) He)).
  unfold named in Hall. apply String.eqb_eq in Hall.
  unfold shallow. cbn [fst snd]. rewrite Hall. apply Hg.
Qed.



Lemma map_shallow_named2 {A : Type} (g g' : string * attributes -> A)
    (h : string -> attributes -> attributes) (tag : string) (l l' : list node) :
  List.map shallow l' = List.map (fun e => (fst e, h (fst e) (snd e))) (List.map shallow l) ->
  Forall (fun e => named tag (element_name e) (element_attrs e) = true) l ->
  (forall attrs, g (tag, h tag attrs) = g' (tag, attrs)) ->
  List.map (fun e => g (shallow e)) l' = List.map (fun e => g' (shallow e)) l.
Proof.
  intros Hmap Hall Hg.
  rewrite <- (List.map_map shallow g l'), Hmap, !List.map_map.
  apply List.map_ext_in. intros e He.
  rewrite Forall_forall in Hall. specialize (Hall e (proj2 (list_elem_of_In _ _) He)).
  unfold named in Hall. apply String.eqb_eq in Hall.
  unfold shallow. cbn [fst snd]. rewrite Hall. apply Hg.
Qed.

Lemma assign_wanted (wanted : string -> attributes -> bool) (key : string)
    (f : string -> string) (name : string) (attrs : attributes) :
  wanted name attrs = true ->
  dict_get (assign wanted key f name attrs) key = option_map f (dict_get attrs key).
Proof.
  intros H. unfold assign. rewrite H.
  destruct (dict_get attrs key) as [v|] eqn:E; [|now rewrite E].
  cbn [option_map]. eapply dict_get_set, E.
Qed.

(** X15. The values the rewriter writes are computed from the text of
    the attribute alone. The [src] of an [img] becomes "images/" followed
    by the sanitized value, the [src] of a [script] "js/" followed by the
    sanitized value. The [href] of a [link] becomes "css/" followed by
    the sanitized value exactly when one of the white-space separated
    words of its [rel] is [stylesheet], in that spelling: a link with
    another [rel], or without one, keeps its [href]. An element without
    the attribute gets none. *)
Theorem rewritten_values (page : soup) :
  List.map (fun e => element_get e "src") (find_all "img" (rewrite_references page))
  = List.map (fun e => option_map (fun v => "images/" +:+ sanitize_filename v)
                         (element_get e "src")) (find_all "img" page)
  /\ List.map (fun e => element_get e "src") (find_all "script" (rewrite_references page))
     = List.map (fun e => option_map (fun v => "js/" +:+ sanitize_filename v)
                            (element_get e "src")) (find_all "script" page)
  /\ List.map (fun e => element_get e "href") (find_all "link" (rewrite_references page))
     = List.map (fun e => if is_stylesheet (element_attrs e)
                          then option_map (fun v => "css/" +:+ sanitize_filename v)
                                 (element_get e "href")
                          else element_get e "href") (find_all "link" page).
Proof.
  assert (forall tag key (g' : attributes -> option string),
             (forall attrs, dict_get (rewritten_attrs tag attrs) key = g' attrs) ->
             List.map (fun e => element_get e key) (find_all tag (rewrite_references page))
             = List.map (fun e => g' (element_attrs e)) (find_all tag page)) as Hgen.
  { intros tag key g' Hg.
    rewrite (List.map_ext (fun e => element_get e key)
               (fun e => dict_get (snd (shallow e)) key))
      by (intros e; apply element_get_attrs).
    apply (map_shallow_named2 (fun e => dict_get (snd e) key) (fun e => g' (snd e))
             rewritten_attrs tag _ _ (rewrite_references_shallow tag page)
             (find_all_where_found (named tag) page)).
    intros attrs. cbn [snd]. apply Hg. }
  split; [|split].
  - rewrite (Hgen "img" "src"
               (fun attrs => option_map (fun v => "images/" +:+ sanitize_filename v)
                               (dict_get attrs "src"))).
    + apply List.map_ext. intros e. now rewrite element_get_attrs.
    + intros attrs. unfold rewritten_attrs.
      rewrite (assign_other _ "href") by discriminate.
      rewrite (assign_unwanted (named "script")) by reflexivity.
      rewrite (assign_wanted (named "img")) by reflexivity.
      destruct (dict_get attrs "src"); [|reflexivity]. cbn [option_map]. f_equal.
      apply join_sanitized; [discriminate | reflexivity].
  - rewrite (Hgen "script" "src"
               (fun attrs => option_map (fun v => "js/" +:+ sanitize_filename v)
                               (dict_get attrs "src"))).
    + apply List.map_ext. intros e. now rewrite element_get_attrs.
    + intros attrs. unfold rewritten_attrs.
      rewrite (assign_other _ "href") by discriminate.
      rewrite (assign_unwanted (named "img")) by reflexivity.
      rewrite (assign_wanted (named "script")) by reflexivity.
      destruct (dict_get attrs "src"); [|reflexivity]. cbn [option_map]. f_equal.
      apply join_sanitized; [discriminate | reflexivity].
  - rewrite (Hgen "link" "href"
               (fun attrs => if is_stylesheet attrs
                             then option_map (fun v => "css/" +:+ sanitize_filename v)
                                    (dict_get attrs "href")
                             else dict_get attrs "href")).
    + apply List.map_ext. intros e. now rewrite element_get_attrs.
    + intros attrs. unfold rewritten_attrs.
      rewrite (assign_unwanted (named "img")) by reflexivity.
      rewrite (assign_unwanted (named "script")) by reflexivity.
      destruct (is_stylesheet attrs) eqn:E.
      * rewrite (assign_wanted (named_rel "link" "stylesheet")).
        2:{ unfold named_rel. cbn [String.eqb]. exact E. }
        destruct (dict_get attrs "href"); [|reflexivity]. cbn [option_map]. f_equal.
        apply join_sanitized; [discriminate | reflexivity].
      * rewrite (assign_unwanted (named_rel "link" "stylesheet")); [reflexivity|].
        unfold named_rel. exact E.
Qed.

(** On a page with four links: the style sheet and the alternate style
    sheet are rewritten (the query of the first is dropped), the icon
    and the link whose [rel] is spelt with a capital are not. *)
Example rewritten_values_of_links :
  List.map (fun e => element_get e "href") (find_all "link" (rewrite_references links_page))
  = [Some "css/main.css"; Some "css/print.css"; Some "favicon.ico"; Some "upper.css"].
Proof. reflexivity. Qed.

(** ** The command line *)

(** X16. Without a URL argument the script prints the usage line and
    does nothing else. With a URL and a second argument that [int]
    rejects it raises [ValueError] before the run starts: nothing is
    requested, written or printed. Arguments after the limit are
    ignored, and leaving the limit out is the same as giving 4. *)
Theorem main_arguments (lib : library) (env : environment) (int : string -> option Z)
    (w : world) :
  (forall argv, length argv < 2 ->
     main lib env int argv w
     = (Ran (Ret tt),
        World (files w) (dirs w)
          (stdout w ++ ["Please provide the website address as an argument."])
          (requests w) (clock_reads w) (fs_calls w)))
  /\ (forall prog url limit extra,
        int limit = None ->
        main lib env int (prog :: url :: limit :: extra) w = (ValueError limit, w))
  /\ (forall prog url limit extra,
        main lib env int (prog :: url :: limit :: extra) w
        = main lib env int [prog; url; limit] w)
  /\ (forall prog url limit,
        int limit = Some 4%Z ->
        main lib env int [prog; url; limit] w = main lib env int [prog; url] w)
  /\ (forall prog url,
        main lib env int [prog; url] w
        = (Ran (fst (parse_website lib env url 4 w)),
           snd (parse_website lib env url 4 w))).
Proof.
  split; [|split; [|split; [|split]]].
  - intros [|a [|b argv]] H; cbn [length] in H; try lia; reflexivity.
  - intros prog url limit extra H. cbn [main]. now rewrite H.
  - reflexivity.
  - intros prog url limit H. cbn [main]. now rewrite H.
  - intros prog url. cbn [main]. now destruct (parse_website lib env url 4 w).
Qed.

Lemma main_arguments_witness :
  let lib := Demo.lib [Examples.demo_page] in
  let env := Demo.env [(Examples.root, Demo.markup Examples.demo_page)] 0 in
  int_of_digits "soon" = None
  /\ main lib env int_of_digits ["Wee-Web-Scraper.py"; Examples.root; "soon"] empty_world
     = (ValueError "soon", empty_world)
  /\ int_of_digits "4" = Some 4%Z
  /\ main lib env int_of_digits ["Wee-Web-Scraper.py"; Examples.root; "4"; "more"] empty_world
     = main lib env int_of_digits ["Wee-Web-Scraper.py"; Examples.root] empty_world
  /\ length ["Wee-Web-Scraper.py"] < 2
  /\ main lib env int_of_digits ["Wee-Web-Scraper.py"] empty_world
     = (Ran (Ret tt),
        World ∅ ∅ ["Please provide the website address as an argument."] [] 0 0).
Proof.
  intros lib env.
  destruct (main_arguments lib env int_of_digits empty_world) as (H1 & H2 & H3 & H4 & _).
  split; [reflexivity|]. split; [apply H2; reflexivity|].
  split; [reflexivity|]. split; [rewrite H3; apply H4; reflexivity|].
  split; [cbn; lia|]. apply H1. cbn; lia.
Defined.

(** ** The time limit and what it lets through *)

Lemma limit_reached_mono (limit limit' : Z) (elapsed : Q) :
  (limit <= limit')%Z ->
  Qle_bool (inject_Z limit') elapsed = true -> Qle_bool (inject_Z limit) elapsed = true.
Proof.
  intros Hle H. apply Qle_bool_iff. apply Qle_bool_iff in H.
  eapply Qle_trans; [|exact H]. now rewrite <- Zle_Qle.
Qed.

Lemma carried_out_mono (env : environment) (start_time : Q) (limit limit' : Z)
    (reads : nat) (jobs : list job) :
  (limit <= limit')%Z ->
  (exists more, carried_out env start_time limit' reads jobs
                = carried_out env start_time limit reads jobs ++ more)
  /\ (cut_short env start_time limit' reads jobs = true ->
      cut_short env start_time limit reads jobs = true)
  /\ (cut_short env start_time limit reads jobs = false ->
      carried_out env start_time limit reads jobs = jobs).
Proof.
  intros Hle. revert reads. induction jobs as [|j jobs IH]; intros reads.
  - cbn. repeat split; auto. now exists [].
  - cbn [carried_out cut_short].
    destruct (Qle_bool (inject_Z limit') _) eqn:E'.
    + rewrite (limit_reached_mono limit limit' _ Hle E').
      repeat split; auto; [now exists [] | discriminate].
    + destruct (IH (S reads)) as ([more Hmore] & Hcut & Hall).
      destruct (Qle_bool (inject_Z limit) _) eqn:E.
      * repeat split; auto; [|discriminate].
        exists (carried_out env start_time limit' (S reads) jobs). reflexivity.
      * repeat split; auto.
        -- exists more. cbn [app]. now rewrite Hmore.
        -- intros H. now rewrite (Hall H).
Qed.

(** The requests of a loop are those of the jobs it carries out. *)
Lemma requests_after_jobs (lib : library) (env : environment) (base_url : string)
    (done : list job) (cut : bool) (notice : string) (w : world) :
  requests (snd ((attempt_each lib env base_url done ;;
                  if cut then print notice ;; ret Returned else ret Next)%py w))
  = requests (snd (attempt_each lib env base_url done w)).
Proof.
  unfold bind at 1.
  destruct (attempt_each lib env base_url done w) as [[[]|e] w1]; [|reflexivity].
  now destruct cut.
Qed.

(** X17. Raising the time limit never makes the loop download less. For
    two limits, the smaller first, started in the same world with the
    same clock: the jobs carried out under the smaller limit are the
    first of the jobs carried out under the larger one, so the requests
    made under the smaller limit are the first of the requests made under
    the larger one (when no job raises, the others are the requests of
    the further jobs whose URL is valid); and a loop that ran to its end
    under the smaller limit does exactly the same under the larger
    one. *)
Theorem larger_limit_downloads_no_less (lib : library) (env : environment)
    (rows : list (string * string * string)) (page : soup) (base_url : string)
    (start_time : Q) (limit limit' : Z) (w : world) :
  let loop time_limit :=
    download_categories lib env rows page base_url start_time time_limit w in
  let jobs := schedule rows page in
  (limit <= limit')%Z ->
  (exists done more,
      carried_out env start_time limit (clock_reads w) jobs = done
      /\ carried_out env start_time limit' (clock_reads w) jobs = done ++ more
      /\ requests (snd (loop limit))
         = requests (snd (attempt_each lib env base_url done w))
      /\ (exists later, requests (snd (loop limit')) = requests (snd (loop limit)) ++ later)
      /\ (fst (attempt_each lib env base_url (done ++ more) w) = Ret tt ->
          requests (snd (loop limit'))
          = requests (snd (loop limit))
            ++ List.filter (valid_url lib)
                 (List.map (fun j => resolve lib base_url (fst j)) more)))
  /\ (fst (loop limit) = Ret Next -> loop limit' = loop limit).
Proof.
  intros loop jobs Hle. subst loop. cbv beta.
  rewrite !download_categories_jobs. fold jobs.
  rewrite !download_jobs_carried.
  destruct (carried_out_mono env start_time limit limit' (clock_reads w) jobs Hle)
    as ([more Hmore] & Hcut & Hall).
  set (done := carried_out env start_time limit (clock_reads w) jobs) in *.
  split.
  - exists done, more.
    split; [reflexivity|]. split; [exact Hmore|].
    rewrite Hmore, !requests_after_jobs.
    split; [reflexivity|].
    rewrite attempt_each_app. unfold bind.
    destruct (attempt_each lib env base_url done w) as [[[]|e] w1] eqn:Hdone; cbn [fst snd].
    + split.
      * apply (attempt_each_keeps lib env base_url
                 (fun w0 => exists later, requests w0 = requests w1 ++ later)).
        -- intros j w0 _ [later Hw0].
           rewrite (proj1 (attempt_world lib env base_url j w0)), Hw0, <- app_assoc.
           eauto.
        -- exists []. now rewrite app_nil_r.
      * intros Hreturns.
        destruct (attempt_each lib env base_url more w1) as [[[]|e] w2] eqn:Hrest;
          [|discriminate].
        apply (attempt_each_requests lib env base_url more w1 w2 Hrest).
    + split; [exists []; now rewrite app_nil_r | discriminate].
  - pose proof (proj2 (proj2 (carried_out_mono env start_time limit' limit' (clock_reads w)
                                jobs (Z.le_refl _)))) as Hall'.
    destruct (cut_short env start_time limit (clock_reads w) jobs) eqn:Hc.
    + intros H. exfalso. revert H. unfold bind, print, ret.
      destruct (attempt_each lib env base_url done w) as [[[]|e] w1]; discriminate.
    + intros _. rewrite (Hall eq_refl) in *.
      destruct (cut_short env start_time limit' (clock_reads w) jobs);
        [discriminate (Hcut eq_refl)|].
      now rewrite (Hall' eq_refl).
Qed.

Lemma larger_limit_downloads_no_less_witness :
  let lib := Demo.lib [Examples.gallery_page] in
  let env := Demo.env Examples.gallery_assets 1 in
  let loop time_limit :=
    download_categories lib env (download_rows "site") Examples.gallery_page
      "http://example.test" 0 time_limit empty_world in
  (0 <= 2)%Z
  /\ requests (snd (loop 0%Z)) = ["http://example.test/i0.png"]
  /\ requests (snd (loop 2%Z))
     = ["http://example.test/i0.png"; "http://example.test/i1.png";
        "http://example.test/i2.png"]
  /\ exists more,
      carried_out env 0 2 0 (schedule (download_rows "site") Examples.gallery_page)
      = carried_out env 0 0 0 (schedule (download_rows "site") Examples.gallery_page)
        ++ more.
Proof.
  intros lib env loop.
  assert (0 <= 2)%Z as Hle by lia.
  split; [exact Hle|]. split; [vm_compute; reflexivity|].
  split; [vm_compute; reflexivity|].
  destruct (proj1 (larger_limit_downloads_no_less lib env (download_rows "site")
                     Examples.gallery_page "http://example.test" 0 0 2 empty_world Hle))
    as (done & more & Hdone & Hmore & _).
  exists more. cbn [clock_reads empty_world] in Hdone, Hmore. now rewrite Hmore, Hdone.
Defined.
